(** * Session-aware risk and profit-taking engine

    A shallow embedding of the session clock ([session_manager.py]), the
    risk manager ([risk_manager.py]) and the rule engine of the profit monitor
    ([profit_monitor.py]), with the properties the specification states
    about them.

    Conventions of the embedding:
    - Python [int] is [Z]; a Python [float] is a rational [Q], as every
      finite double is.  Where the program tests the result of an
      arithmetic operation against a fixed number or against one of its
      operands (the remainder of a partial close, the stop of a trailing
      order), the operation yields the nearest double, as IEEE 754
      prescribes ([double]); elsewhere arithmetic is exact;
    - a [datetime] is an absolute instant, counted in microseconds ([Z]); a
      [date] is a day number ([Z]);
    - a Python [dict] is an association list in insertion order, keys
      unique;
    - the broker is an external, stateful collaborator: every call takes the
      broker state and returns the next one. *)

From Stdlib Require Import ZArith QArith Qabs Qpower Qround List String Bool Lia.
From Stdlib Require Import Sorting.Sorted Sorting.Permutation.
From Stdlib Require DecimalString.
From Stdlib Require Import Lqa.
Import ListNotations.

Set Implicit Arguments.

(** ** Numbers *)

Definition Qlt_bool (x y : Q) : bool := negb (Qle_bool y x).

Lemma Qlt_bool_iff (x y : Q) : Qlt_bool x y = true <-> (x < y)%Q.
Proof.
  unfold Qlt_bool. rewrite negb_true_iff. split.
  - intros H. apply Qnot_le_lt. intros Hle.
    apply Qle_bool_iff in Hle. congruence.
  - intros H. destruct (Qle_bool y x) eqn:E; [|reflexivity].
    apply Qle_bool_iff in E. exfalso. exact (Qlt_not_le _ _ H E).
Qed.

Lemma Qlt_bool_false_iff (x y : Q) : Qlt_bool x y = false <-> (y <= x)%Q.
Proof.
  unfold Qlt_bool. rewrite negb_false_iff. apply Qle_bool_iff.
Qed.

Lemma Qle_bool_false_iff (x y : Q) : Qle_bool x y = false <-> (y < x)%Q.
Proof.
  rewrite <- Qlt_bool_iff. unfold Qlt_bool.
  destruct (Qle_bool x y); simpl; intuition congruence.
Qed.

(** ** Session clock ([session_manager.py]) *)

Module Session.

Local Open Scope Z_scope.

(** [datetime.time]: the constructor enforces the field ranges. *)
Record time := mk_time {
  hour : Z;
  minute : Z;
  second : Z;
  microsecond : Z
}.

Definition valid_time (t : time) : Prop :=
  0 <= hour t < 24 /\ 0 <= minute t < 60 /\
  0 <= second t < 60 /\ 0 <= microsecond t < 1000000.

(** Microseconds elapsed since local midnight: the chronological position of
    a time of day. *)
Definition us_of_day (t : time) : Z :=
  ((hour t * 60 + minute t) * 60 + second t) * 1000000 + microsecond t.

(** The order "a is not later in the day than b". *)
Definition time_le (a b : time) : Prop := us_of_day a <= us_of_day b.
Definition time_lt (a b : time) : Prop := us_of_day a < us_of_day b.

(** Python compares two naive [time] objects as the tuples
    [(hour, minute, second, microsecond)], lexicographically. *)
Fixpoint tuple_cmp (a b : list Z) : comparison :=
  match a, b with
  | [], [] => Eq
  | [], _ :: _ => Lt
  | _ :: _, [] => Gt
  | x :: a', y :: b' =>
      match x ?= y with
      | Eq => tuple_cmp a' b'
      | c => c
      end
  end.

Definition time_tuple (t : time) : list Z :=
  [hour t; minute t; second t; microsecond t].

Definition time_cmp (a b : time) : comparison :=
  tuple_cmp (time_tuple a) (time_tuple b).

(** [a <= b], [a >= b] and [a > b] on [time] objects. *)
Definition time_leb (a b : time) : bool :=
  match time_cmp a b with Gt => false | _ => true end.
Definition time_geb (a b : time) : bool :=
  match time_cmp a b with Lt => false | _ => true end.
Definition time_gtb (a b : time) : bool :=
  match time_cmp a b with Gt => true | _ => false end.

(** A time zone gives, for an instant, its offset from UTC in microseconds
    (it may vary with the instant: daylight saving). *)
Definition tzinfo := Z -> Z.

Definition day_us : Z := 86400 * 1000000.

(** [current_time.astimezone(tz).time()] *)
Definition astimezone_time (tz : tzinfo) (instant : Z) : time :=
  let us := (instant + tz instant) mod day_us in
  mk_time (us / 3600000000)
          ((us / 60000000) mod 60)
          ((us / 1000000) mod 60)
          (us mod 1000000).

(** [_parse_time]: a time of day from its hours and minutes. *)
Definition time_hm (h m : Z) : time := mk_time h m 0 0.

Record MarketSession := mk_session {
  timezone : tzinfo;
  is_active : bool;
  start_time : time;
  end_time : time
}.

(** [MarketSession.is_session_active].  [clock] is what
    [datetime.now(self.timezone)] reads when no time is supplied. *)
Definition is_session_active (s : MarketSession) (clock : Z)
    (current_time : option Z) : bool :=
  let current_time := match current_time with
                      | None => clock
                      | Some t => t
                      end in
  let current_time_local := astimezone_time (timezone s) current_time in
  if time_gtb (start_time s) (end_time s)
  then time_geb current_time_local (start_time s)
       || time_leb current_time_local (end_time s)
  else time_leb (start_time s) current_time_local
       && time_leb current_time_local (end_time s).

(** The local time of day the query is evaluated at. *)
Definition local_now (s : MarketSession) (clock : Z)
    (current_time : option Z) : time :=
  astimezone_time (timezone s)
    (match current_time with None => clock | Some t => t end).

(** *** The tuple comparison is the chronological order *)

Lemma astimezone_time_valid (tz : tzinfo) (i : Z) :
  valid_time (astimezone_time tz i).
Proof.
  unfold valid_time, astimezone_time; simpl.
  assert (H : 0 <= (i + tz i) mod day_us < day_us)
    by (apply Z.mod_pos_bound; reflexivity).
  set (us := (i + tz i) mod day_us) in *. unfold day_us in H.
  repeat split;
    try (apply Z.mod_pos_bound; lia);
    try (apply Z.div_pos; lia).
  apply Z.div_lt_upper_bound; lia.
Qed.

Lemma time_cmp_spec (a b : time) :
  valid_time a -> valid_time b ->
  time_cmp a b = (us_of_day a ?= us_of_day b).
Proof.
  unfold valid_time, time_cmp, time_tuple, us_of_day.
  destruct a as [h1 m1 s1 u1], b as [h2 m2 s2 u2]; simpl.
  intros (Hh1 & Hm1 & Hs1 & Hu1) (Hh2 & Hm2 & Hs2 & Hu2).
  symmetry.
  destruct (Z.compare_spec h1 h2) as [-> | Hh | Hh].
  - destruct (Z.compare_spec m1 m2) as [-> | Hm | Hm].
    + destruct (Z.compare_spec s1 s2) as [-> | Hs | Hs].
      * destruct (Z.compare_spec u1 u2) as [-> | Hu | Hu].
        -- apply Z.compare_refl.
        -- apply Z.compare_lt_iff. lia.
        -- apply Z.compare_gt_iff. lia.
      * apply Z.compare_lt_iff. lia.
      * apply Z.compare_gt_iff. lia.
    + apply Z.compare_lt_iff. lia.
    + apply Z.compare_gt_iff. lia.
  - apply Z.compare_lt_iff. nia.
  - apply Z.compare_gt_iff. nia.
Qed.

Lemma time_leb_spec (a b : time) :
  valid_time a -> valid_time b -> (time_leb a b = true <-> time_le a b).
Proof.
  intros Ha Hb. unfold time_leb, time_le. rewrite (time_cmp_spec Ha Hb).
  destruct (Z.compare_spec (us_of_day a) (us_of_day b));
    split; intros; try lia; try reflexivity; try discriminate.
Qed.

Lemma time_geb_spec (a b : time) :
  valid_time a -> valid_time b -> (time_geb a b = true <-> time_le b a).
Proof.
  intros Ha Hb. unfold time_geb, time_le. rewrite (time_cmp_spec Ha Hb).
  destruct (Z.compare_spec (us_of_day a) (us_of_day b));
    split; intros; try lia; try reflexivity; try discriminate.
Qed.

Lemma time_gtb_spec (a b : time) :
  valid_time a -> valid_time b -> (time_gtb a b = true <-> time_lt b a).
Proof.
  intros Ha Hb. unfold time_gtb, time_lt. rewrite (time_cmp_spec Ha Hb).
  destruct (Z.compare_spec (us_of_day a) (us_of_day b));
    split; intros; try lia; try reflexivity; try discriminate.
Qed.

(** C2.  For a session whose start and end are times of day, and any query
    instant: when start <= end the session is active exactly when
    start <= now <= end; when start > end the window wraps midnight and the
    session is active exactly when now >= start or now <= end ([now] being
    the session-local time of day of the query). *)
Theorem is_session_active_window (s : MarketSession) (clock : Z)
    (current_time : option Z) :
  valid_time (start_time s) -> valid_time (end_time s) ->
  let now := local_now s clock current_time in
  (time_le (start_time s) (end_time s) ->
     (is_session_active s clock current_time = true <->
      time_le (start_time s) now /\ time_le now (end_time s)))
  /\
  (time_lt (end_time s) (start_time s) ->
     (is_session_active s clock current_time = true <->
      time_le (start_time s) now \/ time_le now (end_time s))).
Proof.
  intros Hs He now.
  assert (Hn : valid_time now) by apply astimezone_time_valid.
  unfold is_session_active. fold (local_now s clock current_time). fold now.
  destruct (time_gtb (start_time s) (end_time s)) eqn:G.
  - apply (time_gtb_spec Hs He) in G. split.
    + unfold time_le, time_lt in *. lia.
    + intros _. rewrite orb_true_iff.
      rewrite (time_geb_spec Hn Hs), (time_leb_spec Hn He). tauto.
  - assert (G' : ~ time_lt (end_time s) (start_time s)).
    { intros C. apply (time_gtb_spec Hs He) in C. congruence. }
    split.
    + intros _. rewrite andb_true_iff.
      rewrite (time_leb_spec Hs Hn), (time_leb_spec Hn He). tauto.
    + intros C. contradiction.
Qed.

(** The night session 22:00-06:00 (UTC) of the specification's example. *)
Definition utc : tzinfo := fun _ => 0.
Definition night_session : MarketSession :=
  mk_session utc false (time_hm 22 0) (time_hm 6 0).
Definition at_hm (h m : Z) : Z := (h * 60 + m) * 60 * 1000000.

Example night_session_2330 :
  is_session_active night_session 0 (Some (at_hm 23 30)) = true.
Proof. reflexivity. Qed.

Example night_session_0200 :
  is_session_active night_session 0 (Some (at_hm 2 0)) = true.
Proof. reflexivity. Qed.

Example night_session_1000 :
  is_session_active night_session 0 (Some (at_hm 10 0)) = false.
Proof. reflexivity. Qed.

Lemma is_session_active_window_witness :
  is_session_active night_session 0 (Some (at_hm 23 30)) = true <->
  time_le (start_time night_session)
          (local_now night_session 0 (Some (at_hm 23 30))) \/
  time_le (local_now night_session 0 (Some (at_hm 23 30)))
          (end_time night_session).
Proof.
  refine (proj2 (@is_session_active_window night_session 0
                   (Some (at_hm 23 30)) _ _) _).
  - unfold valid_time; simpl; lia.
  - unfold valid_time; simpl; lia.
  - unfold time_lt; vm_compute; reflexivity.
Defined.

(** *** Durations and next starts *)

(** [a < b] on [time] objects. *)
Definition time_ltb (a b : time) : bool :=
  match time_cmp a b with Lt => true | _ => false end.

(** [datetime.combine(date, t)], on the timeline of naive (wall-clock)
    datetimes, in microseconds. *)
Definition combine (date : Z) (t : time) : Z := date * day_us + us_of_day t.

(** [get_session_duration], in microseconds; [today] is the date read by
    [datetime.today()]. *)
Definition get_session_duration (s : MarketSession) (today : Z) : Z :=
  let start_dt := combine today (start_time s) in
  let end_dt := combine today (end_time s) in
  let end_dt := if time_gtb (start_time s) (end_time s)
                then end_dt + day_us else end_dt in
  end_dt - start_dt.

(** The wall-clock reading of an instant in a time zone. *)
Definition wall_clock (tz : tzinfo) (instant : Z) : Z := instant + tz instant.

(** An aware [datetime]: its fields, as a naive datetime in microseconds,
    and the UTC offset its [tzinfo] carries. *)
Record datetime := mk_datetime {
  naive : Z;
  utcoffset : Z
}.

(** The instant an aware datetime denotes. *)
Definition timestamp (d : datetime) : Z := naive d - utcoffset d.

(** [get_next_session_start].  [localize] gives the UTC offset that
    [self.timezone.localize] attaches to a naive datetime; adding a
    [timedelta] to the result changes its fields and keeps that offset. *)
Definition get_next_session_start (localize : Z -> Z) (s : MarketSession)
    (clock : Z) (current_time : option Z) : datetime :=
  let current_time := match current_time with
                      | None => clock
                      | Some t => t
                      end in
  let current_date := wall_clock (timezone s) current_time / day_us in
  let today_start := combine current_date (start_time s) in
  let today_start := mk_datetime today_start (localize today_start) in
  if time_ltb (astimezone_time (timezone s) current_time) (start_time s)
  then today_start
  else mk_datetime (naive today_start + day_us) (utcoffset today_start).

Lemma us_of_day_bounds (t : time) :
  valid_time t -> 0 <= us_of_day t < day_us.
Proof.
  unfold valid_time, us_of_day, day_us. intros (Hh & Hm & Hs & Hu). nia.
Qed.

Lemma us_of_day_astimezone (tz : tzinfo) (i : Z) :
  us_of_day (astimezone_time tz i) = wall_clock tz i mod day_us.
Proof.
  unfold us_of_day, astimezone_time, wall_clock; simpl.
  assert (H : 0 <= (i + tz i) mod day_us < day_us)
    by (apply Z.mod_pos_bound; reflexivity).
  set (us := (i + tz i) mod day_us) in *. unfold day_us in H.
  pose proof (Z.div_mod us 1000000 ltac:(lia)) as E1.
  pose proof (Z.div_mod (us / 1000000) 60 ltac:(lia)) as E2.
  pose proof (Z.div_mod (us / 60000000) 60 ltac:(lia)) as E3.
  assert (D1 : us / 60000000 = us / 1000000 / 60)
    by (rewrite Z.div_div by lia; reflexivity).
  assert (D2 : us / 3600000000 = us / 60000000 / 60)
    by (rewrite Z.div_div by lia; reflexivity).
  rewrite D2. rewrite D1 in *. lia.
Qed.

Lemma time_ltb_spec (a b : time) :
  valid_time a -> valid_time b -> (time_ltb a b = true <-> time_lt a b).
Proof.
  intros Ha Hb. unfold time_ltb, time_lt. rewrite (time_cmp_spec Ha Hb).
  destruct (Z.compare_spec (us_of_day a) (us_of_day b));
    split; intros; try lia; try reflexivity; try discriminate.
Qed.

Lemma mod_day_shift (x : Z) :
  - day_us < x < day_us ->
  x mod day_us = if x <? 0 then x + day_us else x.
Proof.
  intros Hx. destruct (x <? 0) eqn:E.
  - apply Z.ltb_lt in E. symmetry.
    apply (Z.mod_unique x day_us (-1)); lia.
  - apply Z.ltb_ge in E. apply Z.mod_small. lia.
Qed.

(** The duration of a session is less than a day, and the session is active
    exactly during that long from its start: at a query time the session is
    active iff the time elapsed since the latest start (counted around the
    clock) is at most the duration. *)
Theorem session_duration_covers_window (s : MarketSession) (today clock : Z)
    (current_time : option Z) :
  valid_time (start_time s) -> valid_time (end_time s) ->
  0 <= get_session_duration s today < day_us /\
  (is_session_active s clock current_time = true <->
   (us_of_day (local_now s clock current_time)
    - us_of_day (start_time s)) mod day_us
   <= get_session_duration s today).
Proof.
  intros Hs He.
  assert (Hn : valid_time (local_now s clock current_time))
    by apply astimezone_time_valid.
  pose proof (us_of_day_bounds Hs) as Bs.
  pose proof (us_of_day_bounds He) as Be.
  pose proof (us_of_day_bounds Hn) as Bn.
  unfold get_session_duration, combine, is_session_active.
  fold (local_now s clock current_time).
  rewrite mod_day_shift by lia.
  destruct (time_gtb (start_time s) (end_time s)) eqn:G.
  - apply (time_gtb_spec Hs He) in G. unfold time_lt in G.
    split; [lia|].
    rewrite orb_true_iff, (time_geb_spec Hn Hs), (time_leb_spec Hn He).
    unfold time_le.
    destruct (_ <? 0) eqn:E;
      [apply Z.ltb_lt in E | apply Z.ltb_ge in E]; lia.
  - assert (G' : us_of_day (start_time s) <= us_of_day (end_time s)).
    { destruct (Z_le_gt_dec (us_of_day (start_time s))
                            (us_of_day (end_time s))) as [L | L]; [exact L|].
      assert (C : time_gtb (start_time s) (end_time s) = true)
        by (apply (time_gtb_spec Hs He); unfold time_lt; lia).
      congruence. }
    split; [lia|].
    rewrite andb_true_iff, (time_leb_spec Hs Hn), (time_leb_spec Hn He).
    unfold time_le.
    destruct (_ <? 0) eqn:E;
      [apply Z.ltb_lt in E | apply Z.ltb_ge in E]; lia.
Qed.

Lemma session_duration_covers_window_witness :
  0 <= get_session_duration night_session 0 < day_us /\
  (is_session_active night_session 0 (Some (at_hm 2 0)) = true <->
   (us_of_day (local_now night_session 0 (Some (at_hm 2 0)))
    - us_of_day (start_time night_session)) mod day_us
   <= get_session_duration night_session 0).
Proof.
  apply (@session_duration_covers_window night_session 0 0
           (Some (at_hm 2 0))).
  - unfold valid_time; simpl; lia.
  - unfold valid_time; simpl; lia.
Defined.

(** The datetime that [get_next_session_start] returns carries the
    session's start time of day in its fields, which lie strictly after the
    local fields of the query time and at most a day after them; its UTC
    offset is the one [localize] gave today's start, also when it is
    tomorrow's start.  When that offset is the one in force at the query,
    the instant returned is strictly later than the query and at most a day
    later; when it is the one in force at the instant returned, the wall
    clock of the zone reads the start time at that instant. *)
Theorem next_session_start_within_a_day (localize : Z -> Z)
    (s : MarketSession) (clock : Z) (current_time : option Z) :
  valid_time (start_time s) ->
  let t := match current_time with None => clock | Some t => t end in
  let now := wall_clock (timezone s) t in
  let next := get_next_session_start localize s clock current_time in
  (now < naive next <= now + day_us /\
   naive next mod day_us = us_of_day (start_time s) /\
   utcoffset next = localize (combine (now / day_us) (start_time s))) /\
  (utcoffset next = timezone s t -> t < timestamp next <= t + day_us) /\
  (timezone s (timestamp next) = utcoffset next ->
   wall_clock (timezone s) (timestamp next) mod day_us
   = us_of_day (start_time s)).
Proof.
  intros Hs i now next.
  pose proof (us_of_day_bounds Hs) as Bs.
  assert (Hn : valid_time (astimezone_time (timezone s) i))
    by apply astimezone_time_valid.
  pose proof (us_of_day_astimezone (timezone s) i) as Eu.
  fold now in Eu.
  assert (Hd : 0 < day_us) by reflexivity.
  pose proof (Z.div_mod now day_us ltac:(lia)) as Ediv.
  pose proof (Z.mod_pos_bound now day_us Hd) as Bm.
  assert (Hfields :
            now < naive next <= now + day_us /\
            naive next mod day_us = us_of_day (start_time s) /\
            utcoffset next = localize (combine (now / day_us) (start_time s))).
  { unfold next, get_next_session_start. fold i. fold now.
    destruct (time_ltb (astimezone_time (timezone s) i) (start_time s)) eqn:L;
      cbn [naive utcoffset]; unfold combine.
    - apply (time_ltb_spec Hn Hs) in L. unfold time_lt in L. rewrite Eu in L.
      split; [lia|]. split; [|reflexivity].
      rewrite Z.add_comm, Z.mod_add by lia. apply Z.mod_small. lia.
    - assert (L' : us_of_day (start_time s) <= now mod day_us).
      { destruct (Z_le_gt_dec (us_of_day (start_time s)) (now mod day_us))
          as [C | C]; [exact C|].
        assert (T : time_ltb (astimezone_time (timezone s) i) (start_time s)
                    = true)
          by (apply (time_ltb_spec Hn Hs); unfold time_lt; lia).
        congruence. }
      split; [lia|]. split; [|reflexivity].
      replace (now / day_us * day_us + us_of_day (start_time s) + day_us)
        with (us_of_day (start_time s) + (now / day_us + 1) * day_us) by lia.
      rewrite Z.mod_add by lia. apply Z.mod_small. lia. }
  destruct Hfields as (Hwin & Hmod & Hoff).
  split; [repeat split; [apply Hwin | apply Hwin | exact Hmod | exact Hoff]|].
  split.
  - intros Ho. unfold timestamp. rewrite Ho.
    unfold now, wall_clock in Hwin. lia.
  - intros Ho. unfold wall_clock. rewrite Ho. unfold timestamp.
    replace (naive next - utcoffset next + utcoffset next) with (naive next)
      by lia.
    exact Hmod.
Qed.

(** A zone whose clocks go forward by an hour on the day 19792 (10 March
    2024): UTC-5 until 07:00 UTC of that day, UTC-4 from then on, and what
    its [localize] answers: UTC-5 for local times before 03:00 that day. *)
Definition new_york : tzinfo :=
  fun instant =>
    if instant <? 19792 * day_us + at_hm 7 0 then - at_hm 5 0 else - at_hm 4 0.

Definition localize_new_york (local : Z) : Z :=
  if local <? 19792 * day_us + at_hm 3 0 then - at_hm 5 0 else - at_hm 4 0.

Definition morning_session : MarketSession :=
  mk_session new_york false (time_hm 9 0) (time_hm 17 0).

(** Asked at 10:00 local time on the eve of the change, the session's next
    start has the fields of 09:00 the next day with the offset UTC-5: the
    instant 14:00 UTC, when the clocks of the zone read 10:00. *)
Example next_start_across_clock_change :
  let next :=
    get_next_session_start localize_new_york morning_session 0
      (Some (19791 * day_us + at_hm 15 0)) in
  naive next = 19792 * day_us + at_hm 9 0 /\
  utcoffset next = - at_hm 5 0 /\
  timestamp next = 19792 * day_us + at_hm 14 0 /\
  wall_clock new_york (timestamp next) = 19792 * day_us + at_hm 10 0.
Proof. vm_compute. repeat split; reflexivity. Qed.

Lemma next_session_start_within_a_day_witness :
  let t := 19791 * day_us + at_hm 15 0 in
  let now := wall_clock new_york t in
  let next :=
    get_next_session_start localize_new_york morning_session 0 (Some t) in
  (now < naive next <= now + day_us /\
   naive next mod day_us = us_of_day (start_time morning_session) /\
   utcoffset next
   = localize_new_york (combine (now / day_us) (start_time morning_session)))
  /\
  (utcoffset next = new_york t -> t < timestamp next <= t + day_us) /\
  (new_york (timestamp next) = utcoffset next ->
   wall_clock new_york (timestamp next) mod day_us
   = us_of_day (start_time morning_session)).
Proof.
  apply (@next_session_start_within_a_day localize_new_york morning_session
           0 (Some (19791 * day_us + at_hm 15 0))).
  unfold valid_time; simpl; lia.
Defined.

End Session.

(** ** Python values shared by the components *)

(** [len(l)] *)
Definition len (A : Type) (l : list A) : Z := Z.of_nat (List.length l).

(** A [dict] with string keys and numeric values, as the broker returns them
    ([{}] when the information is unavailable). *)
Definition pydict := list (string * Q).

(** [d.get(k, default)] *)
Fixpoint pydict_get (d : pydict) (k : string) (default : Q) : Q :=
  match d with
  | [] => default
  | (k', v) :: d' => if String.eqb k' k then v else pydict_get d' k default
  end.

(** Truth value of a [dict]: false exactly when empty. *)
Definition pydict_truthy (d : pydict) : bool :=
  match d with [] => false | _ :: _ => true end.

(** A [dict] of objects stored under their own ticket: entries in insertion
    order. *)
Section TicketDict.
Variable V : Type.
Variable key : V -> Z.

(** [d[key v] = v]: an existing key keeps its place. *)
Fixpoint dict_set (d : list V) (v : V) : list V :=
  match d with
  | [] => [v]
  | w :: d' => if (key w =? key v)%Z then v :: d' else w :: dict_set d' v
  end.

(** [del d[k]] (no effect when [k] is absent). *)
Fixpoint dict_del (d : list V) (k : Z) : list V :=
  match d with
  | [] => []
  | w :: d' => if (key w =? k)%Z then d' else w :: dict_del d' k
  end.

(** [d.get(k)] *)
Fixpoint dict_lookup (d : list V) (k : Z) : option V :=
  match d with
  | [] => None
  | w :: d' => if (key w =? k)%Z then Some w else dict_lookup d' k
  end.

(** In-place mutation of the object stored under [k]. *)
Fixpoint dict_mutate (d : list V) (k : Z) (f : V -> V) : list V :=
  match d with
  | [] => []
  | w :: d' =>
      if (key w =? k)%Z then f w :: d' else w :: dict_mutate d' k f
  end.

(** The keys of a dictionary are pairwise distinct. *)
Definition dict_ok (d : list V) : Prop := NoDup (map key d).

Lemma dict_lookup_In (d : list V) (k : Z) (v : V) :
  dict_lookup d k = Some v -> In v d /\ key v = k.
Proof.
  induction d as [|w d IH]; simpl; [discriminate|].
  destruct (key w =? k)%Z eqn:E.
  - intros [= <-]. apply Z.eqb_eq in E. auto.
  - intros H. destruct (IH H). auto.
Qed.

Lemma dict_lookup_None (d : list V) (k : Z) :
  dict_lookup d k = None -> ~ In k (map key d).
Proof.
  induction d as [|w d IH]; simpl; [tauto|].
  destruct (key w =? k)%Z eqn:E; [discriminate|].
  apply Z.eqb_neq in E. intros H [C|C]; [congruence|]. exact (IH H C).
Qed.

Lemma dict_set_keys_incl (d : list V) (v : V) (k : Z) :
  In k (map key (dict_set d v)) -> k = key v \/ In k (map key d).
Proof.
  induction d as [|w d IH]; simpl.
  - intuition.
  - destruct (key w =? key v)%Z eqn:E; simpl.
    + apply Z.eqb_eq in E. rewrite E. intuition.
    + intuition.
Qed.

Lemma dict_set_ok (d : list V) (v : V) : dict_ok d -> dict_ok (dict_set d v).
Proof.
  unfold dict_ok. induction d as [|w d IH]; simpl; intros H.
  - constructor; [simpl; tauto | constructor].
  - inversion H as [|? ? Hn Hd]; subst.
    destruct (key w =? key v)%Z eqn:E; simpl.
    + apply Z.eqb_eq in E. constructor; [congruence | assumption].
    + apply Z.eqb_neq in E. constructor; [|auto].
      intros C. apply dict_set_keys_incl in C. destruct C; congruence.
Qed.

Lemma dict_del_keys_incl (d : list V) (t k : Z) :
  In k (map key (dict_del d t)) -> In k (map key d).
Proof.
  induction d as [|w d IH]; simpl; [tauto|].
  destruct (key w =? t)%Z; simpl; intuition.
Qed.

Lemma dict_del_ok (d : list V) (t : Z) : dict_ok d -> dict_ok (dict_del d t).
Proof.
  unfold dict_ok. induction d as [|w d IH]; simpl; intros H; [assumption|].
  inversion H as [|? ? Hn Hd]; subst.
  destruct (key w =? t)%Z; [assumption|]. simpl.
  constructor; [|auto]. intros C. apply Hn. eapply dict_del_keys_incl; eauto.
Qed.

Lemma dict_del_lookup_same (d : list V) (t : Z) :
  dict_ok d -> dict_lookup (dict_del d t) t = None.
Proof.
  unfold dict_ok. induction d as [|w d IH]; simpl; intros H; [reflexivity|].
  inversion H as [|? ? Hn Hd]; subst.
  destruct (key w =? t)%Z eqn:E.
  - apply Z.eqb_eq in E. subst t.
    destruct (dict_lookup d (key w)) eqn:L; [|reflexivity].
    apply dict_lookup_In in L. destruct L as [L1 L2].
    exfalso. apply Hn. rewrite <- L2. apply in_map. assumption.
  - simpl. rewrite E. auto.
Qed.

Lemma dict_del_lookup_other (d : list V) (t k : Z) :
  k <> t -> dict_lookup (dict_del d t) k = dict_lookup d k.
Proof.
  intros Hk. induction d as [|w d IH]; simpl; [reflexivity|].
  destruct (key w =? t)%Z eqn:E.
  - apply Z.eqb_eq in E.
    destruct (key w =? k)%Z eqn:E2; [|reflexivity].
    apply Z.eqb_eq in E2. congruence.
  - simpl. destruct (key w =? k)%Z; auto.
Qed.

Lemma dict_mutate_keys (d : list V) (k : Z) (f : V -> V) :
  (forall v, key (f v) = key v) ->
  map key (dict_mutate d k f) = map key d.
Proof.
  intros Hf. induction d as [|w d IH]; simpl; [reflexivity|].
  destruct (key w =? k)%Z; simpl; [rewrite Hf|rewrite IH]; reflexivity.
Qed.

Lemma dict_mutate_lookup_same (d : list V) (k : Z) (f : V -> V) (v : V) :
  (forall v, key (f v) = key v) ->
  dict_lookup d k = Some v -> dict_lookup (dict_mutate d k f) k = Some (f v).
Proof.
  intros Hf. induction d as [|w d IH]; simpl; [discriminate|].
  destruct (key w =? k)%Z eqn:E; simpl.
  - intros [= <-]. rewrite Hf, E. reflexivity.
  - rewrite E. auto.
Qed.

Lemma dict_mutate_lookup_other (d : list V) (k k' : Z) (f : V -> V) :
  (forall v, key (f v) = key v) -> k' <> k ->
  dict_lookup (dict_mutate d k f) k' = dict_lookup d k'.
Proof.
  intros Hf Hk. induction d as [|w d IH]; simpl; [reflexivity|].
  destruct (key w =? k)%Z eqn:E; simpl.
  - rewrite Hf. apply Z.eqb_eq in E.
    destruct (key w =? k')%Z eqn:E2; [|reflexivity].
    apply Z.eqb_eq in E2. congruence.
  - destruct (key w =? k')%Z; auto.
Qed.
Lemma dict_In_lookup (d : list V) (v : V) :
  dict_ok d -> In v d -> dict_lookup d (key v) = Some v.
Proof.
  unfold dict_ok. induction d as [|w d IH]; simpl; intros Hok Hin; [tauto|].
  inversion Hok as [|? ? Hn Hd]; subst.
  destruct Hin as [-> | Hin].
  - rewrite Z.eqb_refl. reflexivity.
  - destruct (key w =? key v)%Z eqn:E; [|auto].
    apply Z.eqb_eq in E. exfalso. apply Hn. rewrite E.
    apply in_map. assumption.
Qed.

Lemma dict_set_lookup_other (d : list V) (v : V) (k : Z) :
  key v <> k -> dict_lookup (dict_set d v) k = dict_lookup d k.
Proof.
  intros Hk. induction d as [|w d IH]; simpl.
  - destruct (key v =? k)%Z eqn:E; [|reflexivity].
    apply Z.eqb_eq in E. congruence.
  - destruct (key w =? key v)%Z eqn:E; simpl.
    + apply Z.eqb_eq in E. rewrite E.
      destruct (key v =? k)%Z eqn:E2; [|reflexivity].
      apply Z.eqb_eq in E2. congruence.
    + destruct (key w =? k)%Z; auto.
Qed.

Lemma dict_mutate_ok (d : list V) (k : Z) (f : V -> V) :
  (forall v, key (f v) = key v) -> dict_ok d -> dict_ok (dict_mutate d k f).
Proof.
  intros Hf. unfold dict_ok. rewrite dict_mutate_keys; auto.
Qed.

(** A loop that rewrites every stored object in place, keeping its key. *)
Lemma dict_lookup_Forall2 (R : V -> V -> Prop) (d d' : list V) :
  (forall v v', R v v' -> key v' = key v) ->
  Forall2 R d d' ->
  map key d' = map key d /\
  forall k v, dict_lookup d k = Some v ->
              exists v', dict_lookup d' k = Some v' /\ R v v'.
Proof.
  intros HR HF. induction HF as [|w w' d d' Hw HF [IHk IHl]]; simpl.
  - split; [reflexivity | discriminate].
  - rewrite (HR _ _ Hw). split; [congruence|].
    intros k v. destruct (key w =? k)%Z.
    + intros [= <-]. eauto.
    + apply IHl.
Qed.
End TicketDict.

(** More facts on ticket dictionaries: sizes and fresh keys. *)
Section TicketDictSize.
Variable V : Type.
Variable key : V -> Z.

Lemma dict_set_fresh (d : list V) (v : V) :
  dict_lookup key d (key v) = None -> dict_set key d v = d ++ [v].
Proof.
  induction d as [|w d IH]; simpl; [reflexivity|].
  destruct (key w =? key v)%Z; [discriminate|].
  intros Hn. rewrite (IH Hn). reflexivity.
Qed.

Lemma dict_del_app_fresh (d : list V) (v : V) :
  dict_lookup key d (key v) = None -> dict_del key (d ++ [v]) (key v) = d.
Proof.
  induction d as [|w d IH]; simpl.
  - rewrite Z.eqb_refl. reflexivity.
  - destruct (key w =? key v)%Z; [discriminate|].
    intros Hn. rewrite (IH Hn). reflexivity.
Qed.

Lemma dict_set_lookup_same (d : list V) (v : V) :
  dict_lookup key (dict_set key d v) (key v) = Some v.
Proof.
  induction d as [|w d IH]; simpl.
  - rewrite Z.eqb_refl. reflexivity.
  - destruct (key w =? key v)%Z eqn:E; simpl.
    + rewrite Z.eqb_refl. reflexivity.
    + rewrite E. exact IH.
Qed.

Lemma dict_set_length (d : list V) (v : V) :
  (len (dict_set key d v) <= len d + 1)%Z.
Proof.
  unfold len. induction d as [|w d IH]; cbn [dict_set List.length]; [lia|].
  destruct (key w =? key v)%Z; cbn [List.length]; rewrite ?Nat2Z.inj_succ in *;
    lia.
Qed.

Lemma dict_del_length (d : list V) (k : Z) (v : V) :
  dict_lookup key d k = Some v -> (len (dict_del key d k) = len d - 1)%Z.
Proof.
  unfold len.
  induction d as [|w d IH]; cbn [dict_del dict_lookup List.length];
    [discriminate|].
  destruct (key w =? k)%Z; [intros _; rewrite Nat2Z.inj_succ; lia|].
  intros Hl. specialize (IH Hl). cbn [List.length].
  rewrite !Nat2Z.inj_succ. lia.
Qed.

Lemma dict_set_In (d : list V) (v x : V) :
  In x (dict_set key d v) -> x = v \/ In x d.
Proof.
  induction d as [|w d IH]; simpl; [intuition|].
  destruct (key w =? key v)%Z; simpl; intuition.
Qed.

Lemma dict_del_In (d : list V) (k : Z) (x : V) :
  In x (dict_del key d k) -> In x d.
Proof.
  induction d as [|w d IH]; simpl; [tauto|].
  destruct (key w =? k)%Z; simpl; intuition.
Qed.

Lemma dict_mutate_In (d : list V) (k : Z) (f : V -> V) (x : V) :
  In x (dict_mutate key d k f) -> In x d \/ exists w, In w d /\ x = f w.
Proof.
  induction d as [|w d IH]; simpl; [tauto|].
  destruct (key w =? k)%Z; simpl.
  - intros [<- | Hx]; [right; exists w; auto | auto].
  - intros [<- | Hx]; [auto|].
    destruct (IH Hx) as [Hi | (w' & Hw & ->)]; [auto|].
    right. exists w'. auto.
Qed.
End TicketDictSize.

(** More facts on ticket dictionaries: membership. *)
Section TicketDictMembers.
Variable V : Type.
Variable key : V -> Z.

Lemma dict_ok_In_unique (d : list V) (x y : V) :
  dict_ok key d -> In x d -> In y d -> key x = key y -> x = y.
Proof.
  intros Hok Hx Hy Hk.
  pose proof (@dict_In_lookup _ key d x Hok Hx) as Lx.
  pose proof (@dict_In_lookup _ key d y Hok Hy) as Ly.
  rewrite Hk in Lx. congruence.
Qed.

Lemma dict_mutate_In_key (d : list V) (k : Z) (f : V -> V) (x : V) :
  In x (dict_mutate key d k f) ->
  In x d \/ exists w, In w d /\ key w = k /\ x = f w.
Proof.
  induction d as [|w d IH]; simpl; [tauto|].
  destruct (key w =? k)%Z eqn:E; simpl.
  - apply Z.eqb_eq in E.
    intros [<- | Hx]; [right; exists w; auto | auto].
  - intros [<- | Hx]; [auto|].
    destruct (IH Hx) as [Hi | (w' & Hw & Hk & ->)]; [auto|].
    right. exists w'. auto.
Qed.

Lemma dict_mutate_keeps (d : list V) (k : Z) (f : V -> V) (q : V) :
  In q d -> key q <> k -> In q (dict_mutate key d k f).
Proof.
  intros Hq Hk. induction d as [|w d IH]; simpl in *; [tauto|].
  destruct (key w =? k)%Z eqn:E; simpl.
  - apply Z.eqb_eq in E. destruct Hq as [-> | Hq]; [congruence | auto].
  - destruct Hq as [-> | Hq]; auto.
Qed.

Lemma dict_del_keeps (d : list V) (k : Z) (q : V) :
  In q d -> key q <> k -> In q (dict_del key d k).
Proof.
  intros Hq Hk. induction d as [|w d IH]; simpl in *; [tauto|].
  destruct (key w =? k)%Z eqn:E; simpl.
  - apply Z.eqb_eq in E. destruct Hq as [-> | Hq]; [congruence | auto].
  - destruct Hq as [-> | Hq]; auto.
Qed.

Lemma dict_del_not_key (d : list V) (k : Z) (x : V) :
  dict_ok key d -> In x (dict_del key d k) -> key x <> k.
Proof.
  intros Hok Hx Hk.
  assert (Hok' : dict_ok key (dict_del key d k)) by (apply dict_del_ok; exact Hok).
  pose proof (@dict_In_lookup _ key _ x Hok' Hx) as L.
  rewrite Hk, (@dict_del_lookup_same _ key d k Hok) in L. discriminate.
Qed.

Lemma NoDup_map_filter (g : V -> bool) (d : list V) :
  NoDup (map key d) -> NoDup (map key (filter g d)).
Proof.
  induction d as [|w d IH]; simpl; intros Hn; [constructor|].
  inversion Hn as [|? ? Hw Hd]; subst.
  destruct (g w); simpl; [|auto].
  constructor; [|auto]. intros C. apply Hw.
  apply in_map_iff in C. destruct C as (x & Hx & Hin).
  apply filter_In in Hin. destruct Hin as [Hin _].
  rewrite <- Hx. apply in_map. exact Hin.
Qed.
End TicketDictMembers.

Lemma dict_mutate_absent (V : Type) (key : V -> Z) (d : list V) (k : Z)
    (f : V -> V) :
  dict_lookup key d k = None -> dict_mutate key d k f = d.
Proof.
  induction d as [|w d IH]; simpl; [reflexivity|].
  destruct (key w =? k)%Z; [discriminate|].
  intros Hn. rewrite (IH Hn). reflexivity.
Qed.

(** ** The broker interface ([base_broker.py])

    The calls the risk manager and the profit monitor make.  A call that
    fails inside the broker (not connected, timeout, exception caught by the
    wrapper or by the caller) yields the empty dictionary, [None] or
    [false]. *)
Class BaseBroker (B : Type) := {
  get_account_info : B -> B * pydict;
  get_symbol_info : B -> string -> B * pydict;
  get_current_price : B -> string -> B * pydict;
  get_mid_price : B -> string -> B * option Q;
  close_order_partial : B -> Z -> Q -> B * bool
}.

(** A broker whose answers do not change: fixed account information, fixed
    quotes per symbol, and partial closes that all succeed or all fail. *)
Record StaticBroker := mk_static {
  account : pydict;
  quotes : string -> pydict;
  mid : string -> option Q;
  fills : bool
}.

#[export] Instance StaticBroker_BaseBroker : BaseBroker StaticBroker := {|
  get_account_info b := (b, account b);
  get_symbol_info b s := (b, quotes b s);
  get_current_price b s := (b, quotes b s);
  get_mid_price b s := (b, mid b s);
  close_order_partial b _ _ := (b, fills b)
|}.

(** A demo account of 1000 with EURUSD quoted at [bid]/[ask]. *)
Definition demo_broker (bid ask : Q) : StaticBroker :=
  mk_static [("balance"%string, 1000)]
            (fun _ => [("bid"%string, bid); ("ask"%string, ask)])
            (fun _ => Some ((bid + ask) / 2))
            true.

(** [OrderType] of [config.py]. *)
Inductive OrderType :=
  BUY | SELL | BUY_LIMIT | SELL_LIMIT | BUY_STOP | SELL_STOP.

Definition OrderType_eqb (a b : OrderType) : bool :=
  match a, b with
  | BUY, BUY | SELL, SELL | BUY_LIMIT, BUY_LIMIT | SELL_LIMIT, SELL_LIMIT
  | BUY_STOP, BUY_STOP | SELL_STOP, SELL_STOP => true
  | _, _ => false
  end.

Lemma OrderType_eqb_eq (a b : OrderType) : OrderType_eqb a b = true <-> a = b.
Proof. destruct a, b; simpl; split; intros; congruence. Qed.

(** [SessionType] of [config.py]. *)
Inductive SessionType := ASIAN | LONDON | NEW_YORK | OVERLAP.

Definition SessionType_eqb (a b : SessionType) : bool :=
  match a, b with
  | ASIAN, ASIAN | LONDON, LONDON | NEW_YORK, NEW_YORK | OVERLAP, OVERLAP =>
      true
  | _, _ => false
  end.

(** [f"{x:.2f}"]: two decimals, ties to even. *)
Definition round_half_even (q : Q) : Z :=
  let n := Qnum q in
  let d := Zpos (Qden q) in
  let f := (n / d)%Z in
  match (2 * (n mod d) ?= d)%Z with
  | Lt => f
  | Gt => (f + 1)%Z
  | Eq => if Z.even f then f else (f + 1)%Z
  end.

(** *** Doubles

    A finite double is a rational m * 2^u with |m| < 2^53 and u >= -1074.
    [double q] is the double nearest to [q], ties going to the even
    significand, as the arithmetic of Python floats rounds its results.
    Magnitudes from 2^1024 on, which the program turns into infinities, keep
    their 53 significant bits here. *)

(** floor (log2 a), for a > 0. *)
Definition floor_log2 (a : Q) : Z :=
  let k := (Z.log2 (Qnum a) - Z.log2 (Zpos (Qden a)))%Z in
  if Qle_bool (2 ^ k) a then k else (k - 1)%Z.

(** The exponent of the last bit kept of a > 0. *)
Definition ulp_exponent (a : Q) : Z :=
  Z.max (floor_log2 a - 52) (-1074).

Definition nearest (a : Q) : Q :=
  let u := ulp_exponent a in
  (inject_Z (round_half_even (a * 2 ^ (- u))) * 2 ^ u)%Q.

Definition double (q : Q) : Q :=
  if Qeq_bool q 0 then 0%Q
  else if Qlt_bool q 0 then (- nearest (Qabs q))%Q
  else nearest (Qabs q).

(** [a * b], [a - b] and [a + b] on floats. *)
Definition fmul (a b : Q) : Q := double (a * b).
Definition fsub (a b : Q) : Q := double (a - b).
Definition fadd (a b : Q) : Q := double (a + b).

(** The rationals that are doubles. *)
Definition is_double (q : Q) : Prop := (double q == q)%Q.

Example double_one_hundredth :
  Qred (double (1 # 100)) = (5764607523034235 # 576460752303423488)%Q.
Proof. vm_compute. reflexivity. Qed.

Example double_sum_of_tenths :
  Qred (fadd (double (1 # 10)) (double (2 # 10)))
  = (1351079888211149 # 4503599627370496)%Q.
Proof. vm_compute. reflexivity. Qed.

Example double_tie_to_even :
  Qred (double (9007199254740993 # 1)) = (9007199254740992 # 1)%Q /\
  Qred (double (9007199254740995 # 1)) = (9007199254740996 # 1)%Q.
Proof. split; vm_compute; reflexivity. Qed.

Example double_underflow :
  Qred (fmul (double (1 # 10 ^ 200)) (double (1 # 10 ^ 120)))
  = Qred (2024 * 2 ^ (- 1074))%Q.
Proof. vm_compute. reflexivity. Qed.

Definition Z_to_string (z : Z) : string :=
  DecimalString.NilZero.string_of_uint (N.to_uint (Z.to_N z)).

Definition format_2f (q : Q) : string :=
  let cents := Z.abs (round_half_even (q * 100)) in
  let frac := (cents mod 100)%Z in
  ((if Qlt_bool q 0 then "-" else "")
   ++ Z_to_string (cents / 100) ++ "."
   ++ (if (frac <? 10)%Z then "0" else "") ++ Z_to_string frac)%string.

Example format_2f_20 : format_2f 20 = "20.00"%string.
Proof. reflexivity. Qed.

Example format_2f_frac : format_2f (12346 # 1000) = "12.35"%string.
Proof. reflexivity. Qed.

(** ** Risk manager ([risk_manager.py]) *)

Module Risk.

Local Open Scope Q_scope.

Record Position := mk_position {
  ticket : Z;
  symbol : string;
  order_type : OrderType;
  volume : Q;
  price : Q;
  sl : option Q;
  tp : option Q;
  open_time : Z;
  current_price : Q;
  unrealized_pnl : Q;
  realized_pnl : Q
}.

Definition set_sl (p : Position) (new_sl : Q) : Position :=
  mk_position (ticket p) (symbol p) (order_type p) (volume p) (price p)
    (Some new_sl) (tp p) (open_time p) (current_price p) (unrealized_pnl p)
    (realized_pnl p).

(** [Position.update_price] *)
Definition update_price (p : Position) (cp : Q) : Position :=
  mk_position (ticket p) (symbol p) (order_type p) (volume p) (price p)
    (sl p) (tp p) (open_time p) cp
    (if OrderType_eqb (order_type p) BUY
     then (cp - price p) * volume p
     else (price p - cp) * volume p)
    (realized_pnl p).

(** [RiskConfig] of [config.py]. *)
Record RiskConfig := mk_config {
  max_position_size : Q;
  max_daily_loss : Q;
  max_open_positions : Z;
  stop_loss_pips : Q;
  take_profit_pips : Q;
  trailing_stop : bool;
  trailing_stop_pips : Q
}.

Definition default_config : RiskConfig :=
  mk_config (2 # 100) (5 # 100) 5 50 100 false 20.

Record RiskManager := mk_rm {
  config : RiskConfig;
  positions : list Position;
  daily_pnl : Q;
  daily_trades : Z;
  max_daily_loss_reached : bool;
  last_reset_date : Z;
  total_trades : Z;
  winning_trades : Z;
  losing_trades : Z;
  max_drawdown : Q;
  current_drawdown : Q;
  peak_balance : Q
}.

(** [RiskManager.__init__] on the day [today]. *)
Definition init (cfg : RiskConfig) (today : Z) : RiskManager :=
  mk_rm cfg [] 0 0 false today 0 0 0 0 0 0.

Definition set_positions (rm : RiskManager) (ps : list Position) :=
  mk_rm (config rm) ps (daily_pnl rm) (daily_trades rm)
    (max_daily_loss_reached rm) (last_reset_date rm) (total_trades rm)
    (winning_trades rm) (losing_trades rm) (max_drawdown rm)
    (current_drawdown rm) (peak_balance rm).

Definition set_max_daily_loss_reached (rm : RiskManager) (v : bool) :=
  mk_rm (config rm) (positions rm) (daily_pnl rm) (daily_trades rm)
    v (last_reset_date rm) (total_trades rm)
    (winning_trades rm) (losing_trades rm) (max_drawdown rm)
    (current_drawdown rm) (peak_balance rm).

(** [reset_daily_metrics]; [today] is [datetime.now().date()]. *)
Definition reset_daily_metrics (today : Z) (rm : RiskManager) : RiskManager :=
  if (last_reset_date rm <? today)%Z
  then mk_rm (config rm) (positions rm) 0 0 false today (total_trades rm)
         (winning_trades rm) (losing_trades rm) (max_drawdown rm)
         (current_drawdown rm) (peak_balance rm)
  else rm.

Section WithBroker.
Context {B : Type} `{BaseBroker B}.

(** [can_open_position]: the manager and the broker after the call, and the
    pair it returns. *)
Definition can_open_position (today : Z) (b : B) (rm : RiskManager)
    (sym : string) (vol stop_loss_pips : Q)
  : RiskManager * B * (bool * string) :=
  let rm := reset_daily_metrics today rm in
  if max_daily_loss_reached rm
  then (rm, b, (false, "Daily loss limit reached"%string))
  else if (len (positions rm) >=? max_open_positions (config rm))%Z
  then (rm, b, (false, "Maximum open positions reached"%string))
  else
    let (b, account_info) := get_account_info b in
    if negb (pydict_truthy account_info)
    then (rm, b, (false, "Unable to get account information"%string))
    else
      let balance := pydict_get account_info "balance" 0 in
      let max_position_value := balance * max_position_size (config rm) in
      let (b, symbol_info) := get_symbol_info b sym in
      if negb (pydict_truthy symbol_info)
      then (rm, b, (false, "Unable to get symbol information"%string))
      else
        let position_value := vol * pydict_get symbol_info "ask" 0 in
        if Qlt_bool max_position_value position_value
        then (rm, b,
              (false,
               ("Position size exceeds maximum ("
                ++ format_2f max_position_value ++ ")")%string))
        else if Qle_bool (balance * max_daily_loss (config rm))
                         (Qabs (daily_pnl rm))
        then (set_max_daily_loss_reached rm true, b,
              (false, "Daily loss limit would be exceeded"%string))
        else (rm, b, (true, "Position can be opened"%string)).

(** [update_positions] *)
Fixpoint update_loop (b : B) (ps : list Position) : B * list Position :=
  match ps with
  | [] => (b, [])
  | p :: rest =>
      let (b, cp) := get_current_price b (symbol p) in
      let p' :=
        if pydict_truthy cp
        then update_price p
               (if OrderType_eqb (order_type p) BUY
                then pydict_get cp "bid" (current_price p)
                else pydict_get cp "ask" (current_price p))
        else p in
      let (b, rest') := update_loop b rest in
      (b, p' :: rest')
  end.

Definition update_positions (b : B) (rm : RiskManager) : RiskManager * B :=
  let (b, ps) := update_loop b (positions rm) in (set_positions rm ps, b).

(** [should_close_all_positions] *)
Definition should_close_all_positions (today : Z) (b : B) (rm : RiskManager)
  : RiskManager * B * bool :=
  let rm := reset_daily_metrics today rm in
  let (b, account_info) := get_account_info b in
  if negb (pydict_truthy account_info) then (rm, b, false)
  else
    let balance := pydict_get account_info "balance" 0 in
    if Qle_bool (balance * max_daily_loss (config rm)) (Qabs (daily_pnl rm))
    then (rm, b, true)
    else if Qle_bool (1 # 10) (current_drawdown rm) then (rm, b, true)
    else (rm, b, false).
End WithBroker.

(** [add_position] *)
Definition add_position (rm : RiskManager) (p : Position) : RiskManager :=
  mk_rm (config rm) (dict_set ticket (positions rm) p) (daily_pnl rm)
    (daily_trades rm + 1)%Z (max_daily_loss_reached rm) (last_reset_date rm)
    (total_trades rm + 1)%Z (winning_trades rm) (losing_trades rm)
    (max_drawdown rm) (current_drawdown rm) (peak_balance rm).

(** [remove_position] *)
Definition remove_position (rm : RiskManager) (t : Z) : RiskManager :=
  match dict_lookup ticket (positions rm) t with
  | None => rm
  | Some p =>
      mk_rm (config rm) (dict_del ticket (positions rm) t)
        (daily_pnl rm + realized_pnl p) (daily_trades rm)
        (max_daily_loss_reached rm) (last_reset_date rm) (total_trades rm)
        (if Qlt_bool 0 (realized_pnl p)
         then (winning_trades rm + 1)%Z else winning_trades rm)
        (if Qlt_bool 0 (realized_pnl p) then losing_trades rm
         else if Qlt_bool (realized_pnl p) 0
              then (losing_trades rm + 1)%Z else losing_trades rm)
        (max_drawdown rm) (current_drawdown rm) (peak_balance rm)
  end.

(** [check_stop_losses] *)
Fixpoint check_stop_losses_loop (ps : list Position) : list Z :=
  match ps with
  | [] => []
  | p :: rest =>
      match sl p with
      | None => check_stop_losses_loop rest
      | Some s =>
          if OrderType_eqb (order_type p) BUY && Qle_bool (current_price p) s
          then ticket p :: check_stop_losses_loop rest
          else if OrderType_eqb (order_type p) SELL
                  && Qle_bool s (current_price p)
          then ticket p :: check_stop_losses_loop rest
          else check_stop_losses_loop rest
      end
  end.

Definition check_stop_losses (rm : RiskManager) : list Z :=
  check_stop_losses_loop (positions rm).

(** One iteration of the loop of [apply_trailing_stop]: the position after
    it, and whether its ticket is appended to [tickets_to_modify]. *)
Definition trail_position (cfg : RiskConfig) (p : Position)
  : Position * bool :=
  match sl p with
  | None => (p, false)
  | Some s =>
      if OrderType_eqb (order_type p) BUY
      then
        let new_sl :=
          fsub (current_price p)
               (fmul (trailing_stop_pips cfg) (double (1 # 10000))) in
        if Qlt_bool s new_sl then (set_sl p new_sl, true) else (p, false)
      else
        let new_sl :=
          fadd (current_price p)
               (fmul (trailing_stop_pips cfg) (double (1 # 10000))) in
        if Qlt_bool new_sl s then (set_sl p new_sl, true) else (p, false)
  end.

Fixpoint trail_loop (cfg : RiskConfig) (ps : list Position)
  : list Position * list Z :=
  match ps with
  | [] => ([], [])
  | p :: rest =>
      let (p', modified) := trail_position cfg p in
      let (rest', tickets) := trail_loop cfg rest in
      (p' :: rest', if modified then ticket p :: tickets else tickets)
  end.

(** [apply_trailing_stop] *)
Definition apply_trailing_stop (rm : RiskManager) : RiskManager * list Z :=
  if negb (trailing_stop (config rm)) then (rm, [])
  else
    let (ps, tickets_to_modify) := trail_loop (config rm) (positions rm) in
    (set_positions rm ps, tickets_to_modify).

(** [Position.close] *)
Definition close (p : Position) (close_price : Q) : Position :=
  mk_position (ticket p) (symbol p) (order_type p) (volume p) (price p)
    (sl p) (tp p) (open_time p) (current_price p) (unrealized_pnl p)
    (if OrderType_eqb (order_type p) BUY
     then (close_price - price p) * volume p
     else (price p - close_price) * volume p).

(** *** Sequences of calls

    The calls the trading loop makes on a risk manager.  A call that reads
    the calendar or the broker carries what it reads: the date of the day
    and the state of the broker at that moment. *)
Inductive RiskOp (B : Type) :=
| OpCanOpen (today : Z) (b : B) (sym : string) (vol slp : Q)
| OpShouldCloseAll (today : Z) (b : B)
| OpAddPosition (p : Position)
| OpClosePosition (t : Z) (close_price : Q)
| OpRemovePosition (t : Z)
| OpUpdatePositions (b : B)
| OpApplyTrailingStop.

Arguments OpAddPosition {B} p.
Arguments OpClosePosition {B} t close_price.
Arguments OpRemovePosition {B} t.
Arguments OpApplyTrailingStop {B}.

Inductive RiskOut :=
| OutNone
| OutDecision (d : bool * string)
| OutBool (v : bool)
| OutModified (tickets : list Z).

Section Traces.
Context {B : Type} `{BaseBroker B}.

Definition run_op (rm : RiskManager) (op : RiskOp B) : RiskManager * RiskOut :=
  match op with
  | OpCanOpen today b sym vol slp =>
      let '(rm', _, d) := can_open_position today b rm sym vol slp in
      (rm', OutDecision d)
  | OpShouldCloseAll today b =>
      let '(rm', _, v) := should_close_all_positions today b rm in
      (rm', OutBool v)
  | OpAddPosition p => (add_position rm p, OutNone)
  | OpClosePosition t cp =>
      (set_positions rm
         (dict_mutate ticket (positions rm) t (fun p => close p cp)), OutNone)
  | OpRemovePosition t => (remove_position rm t, OutNone)
  | OpUpdatePositions b => (fst (update_positions b rm), OutNone)
  | OpApplyTrailingStop =>
      let (rm', tickets) := apply_trailing_stop rm in (rm', OutModified tickets)
  end.

Fixpoint run_ops (rm : RiskManager) (ops : list (RiskOp B))
  : RiskManager * list RiskOut :=
  match ops with
  | [] => (rm, [])
  | op :: rest =>
      let (rm', out) := run_op rm op in
      let (rm'', outs) := run_ops rm' rest in
      (rm'', out :: outs)
  end.

(** The answers of the [can_open_position] calls of a run, in order. *)
Fixpoint decisions (outs : list RiskOut) : list (bool * string) :=
  match outs with
  | [] => []
  | OutDecision d :: rest => d :: decisions rest
  | _ :: rest => decisions rest
  end.


(** The call neither retires the position with ticket [t] nor replaces it by
    a new one. *)
Definition keeps_position (t : Z) (op : RiskOp B) : Prop :=
  match op with
  | OpAddPosition p => ticket p <> t
  | OpRemovePosition t' => t' <> t
  | _ => True
  end.

(** The stop of the position tracked under [t]. *)
Definition stop_of (rm : RiskManager) (t : Z) : option Q :=
  match dict_lookup ticket (positions rm) t with
  | Some p => sl p
  | None => None
  end.

Definition option_to_list (A : Type) (o : option A) : list A :=
  match o with Some a => [a] | None => [] end.

(** The stops [apply_trailing_stop] accepted for ticket [t] during a run,
    oldest first. *)
Fixpoint accepted_stops (t : Z) (rm : RiskManager) (ops : list (RiskOp B))
  : list Q :=
  match ops with
  | [] => []
  | op :: rest =>
      let (rm', out) := run_op rm op in
      match out with
      | OutModified tickets =>
          if existsb (Z.eqb t) tickets
          then option_to_list (stop_of rm' t) ++ accepted_stops t rm' rest
          else accepted_stops t rm' rest
      | _ => accepted_stops t rm' rest
      end
  end.

(** No guard before the daily-loss comparison rejects the call. *)
Definition reaches_loss_check (today : Z) (b : B) (rm : RiskManager)
    (sym : string) (vol : Q) : Prop :=
  let rm0 := reset_daily_metrics today rm in
  let (b1, account_info) := get_account_info b in
  let symbol_info := snd (get_symbol_info b1 sym) in
  max_daily_loss_reached rm0 = false /\
  (len (positions rm0) < max_open_positions (config rm0))%Z /\
  pydict_truthy account_info = true /\
  pydict_truthy symbol_info = true /\
  vol * pydict_get symbol_info "ask" 0
    <= pydict_get account_info "balance" 0 * max_position_size (config rm0).

(** The balance [can_open_position] reads (0 when the key is missing). *)
Definition balance_of (b : B) : Q :=
  pydict_get (snd (get_account_info b)) "balance" 0.
End Traces.

(** *** The daily-loss breaker *)

Section Breaker.
Context {B : Type} `{BaseBroker B}.







Lemma should_close_all_positions_state (today : Z) (b : B)
    (rm : RiskManager) :
  fst (fst (should_close_all_positions today b rm))
  = reset_daily_metrics today rm.
Proof.
  unfold should_close_all_positions.
  destruct (get_account_info b) as [b1 ai].
  destruct (negb (pydict_truthy ai)); [reflexivity|].
  destruct (Qle_bool _ _); [reflexivity|].
  destruct (Qle_bool _ _); reflexivity.
Qed.



(** The call that finds the limit reached. *)
Lemma can_open_position_breach (today : Z) (b : B) (rm : RiskManager)
    (sym : string) (vol slp : Q) :
  reaches_loss_check today b rm sym vol ->
  balance_of b * max_daily_loss (config (reset_daily_metrics today rm))
    <= Qabs (daily_pnl (reset_daily_metrics today rm)) ->
  let '(rm1, _, d) := can_open_position today b rm sym vol slp in
  rm1 = set_max_daily_loss_reached (reset_daily_metrics today rm) true /\
  d = (false, "Daily loss limit would be exceeded"%string).
Proof.
  unfold reaches_loss_check, balance_of, can_open_position.
  set (rm0 := reset_daily_metrics today rm).
  destruct (get_account_info b) as [b1 ai]. simpl.
  intros (Hl & Hn & Ha & Hs & Hv) Hloss.
  rewrite Hl.
  destruct (len (positions rm0) >=? max_open_positions (config rm0))%Z eqn:E.
  { apply Z.geb_le in E. lia. }
  rewrite Ha. simpl.
  destruct (get_symbol_info b1 sym) as [b2 si]. simpl in *.
  rewrite Hs. simpl.
  apply Qlt_bool_false_iff in Hv. rewrite Hv.
  apply Qle_bool_iff in Hloss. rewrite Hloss. auto.
Qed.


(** C9 (amended).  The daily-loss comparison takes the absolute value of the
    day's realized P&L, so a realized profit of magnitude at least
    [max_daily_loss * balance] also makes [can_open_position] refuse; and
    when no earlier guard rejects the call (breaker not yet latched, fewer
    open positions than the maximum, account and symbol information
    available, position value within its limit) the call latches the
    daily-loss breaker, although no loss has occurred. *)
Theorem profit_trips_daily_loss_breaker (today : Z) (b : B)
    (rm : RiskManager) (sym : string) (vol slp : Q) :
  0 < daily_pnl (reset_daily_metrics today rm) ->
  balance_of b * max_daily_loss (config (reset_daily_metrics today rm))
    <= daily_pnl (reset_daily_metrics today rm) ->
  let '(rm1, _, (ok, reason)) := can_open_position today b rm sym vol slp in
  ok = false /\
  (reaches_loss_check today b rm sym vol ->
     max_daily_loss_reached rm1 = true /\
     reason = "Daily loss limit would be exceeded"%string).
Proof.
  intros Hpos Hlim.
  assert (Habs : balance_of b
                 * max_daily_loss (config (reset_daily_metrics today rm))
                 <= Qabs (daily_pnl (reset_daily_metrics today rm))).
  { rewrite Qabs_pos; [exact Hlim | apply Qlt_le_weak; exact Hpos]. }
  pose proof (@can_open_position_breach today b rm sym vol slp) as Hbreach.
  revert Hbreach Habs. clear Hlim Hpos.
  unfold can_open_position, balance_of.
  set (rm0 := reset_daily_metrics today rm).
  intros Hbreach Habs.
  destruct (max_daily_loss_reached rm0) eqn:El.
  { split; [reflexivity|]. intros Hr. specialize (Hbreach Hr Habs).
    destruct Hbreach as [_ C]. discriminate C. }
  destruct (len (positions rm0) >=? max_open_positions (config rm0))%Z.
  { split; [reflexivity|]. intros Hr. specialize (Hbreach Hr Habs).
    destruct Hbreach as [_ C]. discriminate C. }
  destruct (get_account_info b) as [b1 ai]. simpl in Habs.
  destruct (negb (pydict_truthy ai)).
  { split; [reflexivity|]. intros Hr. specialize (Hbreach Hr Habs).
    destruct Hbreach as [_ C]. discriminate C. }
  destruct (get_symbol_info b1 sym) as [b2 si].
  destruct (negb (pydict_truthy si)).
  { split; [reflexivity|]. intros Hr. specialize (Hbreach Hr Habs).
    destruct Hbreach as [_ C]. discriminate C. }
  destruct (Qlt_bool _ _).
  { split; [reflexivity|]. intros Hr. specialize (Hbreach Hr Habs).
    destruct Hbreach as [_ C]. inversion C. }
  apply Qle_bool_iff in Habs. rewrite Habs.
  split; [reflexivity|]. intros _. split; reflexivity.
Qed.


End Breaker.

(** *** Trailing stops *)

Lemma trail_position_ticket (cfg : RiskConfig) (p : Position) :
  ticket (fst (trail_position cfg p)) = ticket p /\
  order_type (fst (trail_position cfg p)) = order_type p.
Proof.
  unfold trail_position. destruct (sl p); [|auto].
  destruct (OrderType_eqb (order_type p) BUY);
    destruct (Qlt_bool _ _); simpl; auto.
Qed.

(** The stop moves in the direction that reduces risk: up for a buy, down
    otherwise. *)
Definition tighter (ot : OrderType) (a b : Q) : Prop :=
  if OrderType_eqb ot BUY then a < b else b < a.

Lemma tighter_trans (ot : OrderType) (a b c : Q) :
  tighter ot a b -> tighter ot b c -> tighter ot a c.
Proof.
  unfold tighter. destruct (OrderType_eqb ot BUY); intros H1 H2.
  - exact (Qlt_trans _ _ _ H1 H2).
  - exact (Qlt_trans _ _ _ H2 H1).
Qed.

Lemma trail_position_accepts (cfg : RiskConfig) (p : Position) :
  snd (trail_position cfg p) = true ->
  exists s s', sl p = Some s /\ sl (fst (trail_position cfg p)) = Some s' /\
               tighter (order_type p) s s'.
Proof.
  unfold trail_position, tighter. destruct (sl p) as [s|]; [|discriminate].
  destruct (OrderType_eqb (order_type p) BUY).
  - destruct (Qlt_bool s _) eqn:E; [|discriminate]. intros _.
    apply Qlt_bool_iff in E. simpl. eauto.
  - destruct (Qlt_bool _ s) eqn:E; [|discriminate]. intros _.
    apply Qlt_bool_iff in E. simpl. eauto.
Qed.

Lemma trail_position_rejects (cfg : RiskConfig) (p : Position) :
  snd (trail_position cfg p) = false -> fst (trail_position cfg p) = p.
Proof.
  unfold trail_position. destruct (sl p); [|reflexivity].
  destruct (OrderType_eqb (order_type p) BUY);
    destruct (Qlt_bool _ _); simpl; intros; congruence.
Qed.

Lemma trail_loop_Forall2 (cfg : RiskConfig) (ps : list Position) :
  Forall2 (fun p p' => p' = fst (trail_position cfg p))
          ps (fst (trail_loop cfg ps)).
Proof.
  induction ps as [|p ps IH]; simpl; [constructor|].
  destruct (trail_position cfg p) as [p' m] eqn:Ep.
  destruct (trail_loop cfg ps) as [ps' ts]. simpl in *.
  constructor; [rewrite Ep; reflexivity | exact IH].
Qed.

Lemma trail_loop_tickets (cfg : RiskConfig) (ps : list Position) (t : Z) :
  In t (snd (trail_loop cfg ps)) <->
  exists p, In p ps /\ ticket p = t /\ snd (trail_position cfg p) = true.
Proof.
  induction ps as [|p ps IH]; simpl.
  - split; [tauto | intros (p & [] & _)].
  - destruct (trail_position cfg p) as [p' m] eqn:Ep.
    destruct (trail_loop cfg ps) as [ps' ts]. simpl in *.
    destruct m; simpl; rewrite ?IH; split.
    + intros [<- | (q & Hq & Ht & Hm)].
      * exists p. rewrite Ep. auto.
      * exists q. auto.
    + intros (q & [<- | Hq] & Ht & Hm); [auto|]. right. exists q. auto.
    + intros (q & Hq & Ht & Hm). exists q. auto.
    + intros (q & [<- | Hq] & Ht & Hm).
      * rewrite Ep in Hm. discriminate.
      * exists q. auto.
Qed.

Lemma update_loop_Forall2 {B : Type} `{BaseBroker B} (ps : list Position)
    (b : B) :
  Forall2 (fun p p' => ticket p' = ticket p /\ order_type p' = order_type p
                       /\ sl p' = sl p)
          ps (snd (update_loop b ps)).
Proof.
  revert b. induction ps as [|p ps IH]; intros b; simpl; [constructor|].
  destruct (get_current_price b (symbol p)) as [b1 cp].
  specialize (IH b1). destruct (update_loop b1 ps) as [b2 ps']. simpl in *.
  constructor; [|exact IH].
  destruct (pydict_truthy cp); simpl; auto.
Qed.

Lemma can_open_position_positions {B : Type} `{BaseBroker B} (today : Z)
    (b : B) (rm : RiskManager) (sym : string) (vol slp : Q) :
  positions (fst (fst (can_open_position today b rm sym vol slp)))
  = positions rm.
Proof.
  assert (E : positions (reset_daily_metrics today rm) = positions rm).
  { unfold reset_daily_metrics. destruct (_ <? _)%Z; reflexivity. }
  unfold can_open_position.
  set (rm0 := reset_daily_metrics today rm) in *.
  destruct (max_daily_loss_reached rm0); [exact E|].
  destruct (len (positions rm0) >=? _)%Z; [exact E|].
  destruct (get_account_info b) as [b1 ai].
  destruct (negb (pydict_truthy ai)); [exact E|].
  destruct (get_symbol_info b1 sym) as [b2 si].
  destruct (negb (pydict_truthy si)); [exact E|].
  destruct (Qlt_bool _ _); [exact E|].
  destruct (Qle_bool _ _); exact E.
Qed.

Section Trailing.
Context {B : Type} `{BaseBroker B}.

(** What one call does to the position tracked under [t]: either
    [apply_trailing_stop] accepted a tighter stop for it, or its stop is
    untouched. *)
Lemma run_op_stop (rm : RiskManager) (op : RiskOp B) (t : Z) (p : Position) :
  dict_ok ticket (positions rm) ->
  dict_lookup ticket (positions rm) t = Some p ->
  keeps_position t op ->
  dict_ok ticket (positions (fst (run_op rm op))) /\
  exists p',
    dict_lookup ticket (positions (fst (run_op rm op))) t = Some p' /\
    order_type p' = order_type p /\
    ((exists ts s s', snd (run_op rm op) = OutModified ts /\
                      existsb (Z.eqb t) ts = true /\
                      sl p = Some s /\ sl p' = Some s' /\
                      tighter (order_type p) s s')
     \/
     ((forall ts, snd (run_op rm op) = OutModified ts ->
                  existsb (Z.eqb t) ts = false) /\
      sl p' = sl p)).
Proof.
  intros Hok Hl Hk.
  destruct op as [today b sym vol slp | today b | p0 | t' cp | t' | b |];
    simpl in *.
  - pose proof (can_open_position_positions today b rm sym vol slp) as E.
    destruct (can_open_position today b rm sym vol slp) as [[rm' b'] d].
    simpl in *. rewrite E. split; [exact Hok|].
    exists p. repeat split; auto. right. split; [discriminate | reflexivity].
  - pose proof (should_close_all_positions_state today b rm) as E.
    destruct (should_close_all_positions today b rm) as [[rm' b'] v].
    simpl in *. subst rm'.
    assert (E : positions (reset_daily_metrics today rm) = positions rm).
    { unfold reset_daily_metrics. destruct (_ <? _)%Z; reflexivity. }
    rewrite E. split; [exact Hok|].
    exists p. repeat split; auto. right. split; [discriminate | reflexivity].
  - split; [apply dict_set_ok; exact Hok|].
    exists p. rewrite dict_set_lookup_other by exact Hk.
    repeat split; auto. right. split; [discriminate | reflexivity].
  - assert (Hf : forall q, ticket (close q cp) = ticket q) by reflexivity.
    split; [apply dict_mutate_ok; assumption|].
    destruct (Z.eq_dec t t') as [<- | Hne].
    + exists (close p cp).
      rewrite (@dict_mutate_lookup_same _ ticket (positions rm) t
                 (fun q => close q cp) p Hf Hl).
      repeat split; auto. right. split; [discriminate | reflexivity].
    + exists p. rewrite dict_mutate_lookup_other by auto.
      repeat split; auto. right. split; [discriminate | reflexivity].
  - unfold remove_position.
    destruct (dict_lookup ticket (positions rm) t') as [q|]; simpl.
    + split; [apply dict_del_ok; exact Hok|].
      exists p. rewrite dict_del_lookup_other by auto.
      repeat split; auto. right. split; [discriminate | reflexivity].
    + split; [exact Hok|].
      exists p. repeat split; auto. right.
      split; [discriminate | reflexivity].
  - unfold update_positions.
    pose proof (update_loop_Forall2 (positions rm) b) as HF.
    destruct (update_loop b (positions rm)) as [b' ps']. simpl in *.
    apply (dict_lookup_Forall2 ticket) in HF; [|tauto].
    destruct HF as [Hkeys Hlook].
    split; [unfold dict_ok; rewrite Hkeys; exact Hok|].
    destruct (Hlook _ _ Hl) as (p' & Hl' & _ & Ho & Hs).
    exists p'. repeat split; auto. right.
    split; [discriminate | exact Hs].
  - unfold apply_trailing_stop.
    destruct (trailing_stop (config rm)); simpl.
    + pose proof (trail_loop_Forall2 (config rm) (positions rm)) as HF.
      pose proof (trail_loop_tickets (config rm) (positions rm) t) as HT.
      destruct (trail_loop (config rm) (positions rm)) as [ps' ts].
      simpl in *.
      apply (dict_lookup_Forall2 ticket) in HF;
        [|intros v v' ->; apply trail_position_ticket].
      destruct HF as [Hkeys Hlook].
      split; [unfold dict_ok; rewrite Hkeys; exact Hok|].
      destruct (Hlook _ _ Hl) as (p' & Hl' & ->).
      exists (fst (trail_position (config rm) p)).
      split; [exact Hl'|]. split; [apply trail_position_ticket|].
      destruct (snd (trail_position (config rm) p)) eqn:Em.
      * left.
        destruct (@trail_position_accepts (config rm) p Em)
          as (s & s' & Hs).
        exists ts, s, s'. split; [reflexivity|]. split; [|exact Hs].
        apply existsb_exists. exists t. split; [|apply Z.eqb_refl].
        apply HT. exists p. apply dict_lookup_In in Hl. tauto.
      * right. split.
        -- intros ts0 [= <-].
           destruct (existsb (Z.eqb t) ts) eqn:Ex; [|reflexivity].
           apply existsb_exists in Ex. destruct Ex as (x & Hx & Ext).
           apply Z.eqb_eq in Ext. subst x.
           apply HT in Hx. destruct Hx as (q & Hq & Htq & Hm).
           apply (@dict_In_lookup _ ticket (positions rm) q Hok) in Hq.
           rewrite Htq in Hq.
           assert (q = p) by congruence. subst q. congruence.
        -- rewrite (@trail_position_rejects (config rm) p Em). reflexivity.
    + split; [exact Hok|]. exists p. repeat split; auto. right.
      split; [intros ts [= <-]; reflexivity | reflexivity].
Qed.

Lemma accepted_stops_chain (t : Z) (ops : list (RiskOp B)) :
  forall (rm : RiskManager) (p : Position),
  dict_ok ticket (positions rm) ->
  dict_lookup ticket (positions rm) t = Some p ->
  Forall (keeps_position t) ops ->
  match sl p with
  | Some s => Sorted (tighter (order_type p)) (s :: accepted_stops t rm ops)
  | None => accepted_stops t rm ops = []
  end.
Proof.
  induction ops as [|op ops IH]; intros rm p Hok Hl Hops; simpl.
  - destruct (sl p); [repeat constructor | reflexivity].
  - inversion Hops as [|? ? Hop Hrest]; subst.
    destruct (@run_op_stop rm op t p Hok Hl Hop)
      as (Hok' & p' & Hl' & Ho & Hcase).
    destruct (run_op rm op) as [rm' out]. simpl in *.
    specialize (IH rm' p' Hok' Hl' Hrest). rewrite Ho in IH.
    destruct Hcase as [(ts & s & s' & -> & Hin & Hs & Hs' & Ht) | [Hno Hs]].
    + rewrite Hin, Hs. unfold stop_of. rewrite Hl', Hs'. simpl.
      rewrite Hs' in IH. constructor; [exact IH | constructor; exact Ht].
    + rewrite Hs in IH.
      assert (E : match out with
                  | OutModified tickets =>
                      if existsb (Z.eqb t) tickets
                      then option_to_list (stop_of rm' t)
                           ++ accepted_stops t rm' ops
                      else accepted_stops t rm' ops
                  | _ => accepted_stops t rm' ops
                  end = accepted_stops t rm' ops).
      { destruct out; try reflexivity. rewrite (Hno _ eq_refl). reflexivity. }
      rewrite E. exact IH.
Qed.

(** C3.  For a tracked position and any sequence of calls that keeps it in
    the book, the stops accepted by [apply_trailing_stop], preceded by the
    stop the position started with, strictly increase for a long position
    and strictly decrease for a short one: every accepted update tightens
    the stop, none loosens it. *)
Theorem trailing_stop_never_loosens (t : Z) (rm : RiskManager) (p : Position)
    (ops : list (RiskOp B)) :
  dict_ok ticket (positions rm) ->
  dict_lookup ticket (positions rm) t = Some p ->
  Forall (keeps_position t) ops ->
  let stops := option_to_list (sl p) ++ accepted_stops t rm ops in
  (order_type p = BUY -> StronglySorted Qlt stops) /\
  (order_type p = SELL -> StronglySorted (fun a b => b < a) stops).
Proof.
  intros Hok Hl Hops stops.
  pose proof (@accepted_stops_chain t ops rm p Hok Hl Hops) as Hc.
  assert (Hs : StronglySorted (tighter (order_type p)) stops).
  { unfold stops. destruct (sl p) as [s|]; simpl.
    - apply Sorted_StronglySorted; [|exact Hc].
      intros a b c. apply tighter_trans.
    - rewrite Hc. constructor. }
  split; intros Ho; rewrite Ho in Hs; exact Hs.
Qed.

(** C10.  [apply_trailing_stop] never initialises a stop: a tracked position
    without stop-loss is left exactly as it was, and its ticket is not in
    the returned list. *)
Theorem apply_trailing_stop_skips_unset (rm : RiskManager) (p : Position) :
  dict_ok ticket (positions rm) ->
  In p (positions rm) ->
  sl p = None ->
  dict_lookup ticket (positions (fst (apply_trailing_stop rm))) (ticket p)
  = Some p /\
  ~ In (ticket p) (snd (apply_trailing_stop rm)).
Proof.
  intros Hok Hin Hsl.
  pose proof (@dict_In_lookup _ ticket (positions rm) p Hok Hin) as Hl.
  unfold apply_trailing_stop.
  destruct (trailing_stop (config rm)); simpl; [|auto].
  pose proof (trail_loop_Forall2 (config rm) (positions rm)) as HF.
  pose proof (trail_loop_tickets (config rm) (positions rm) (ticket p)) as HT.
  destruct (trail_loop (config rm) (positions rm)) as [ps' ts]. simpl in *.
  assert (Hp : trail_position (config rm) p = (p, false)).
  { unfold trail_position. rewrite Hsl. reflexivity. }
  split.
  - apply (dict_lookup_Forall2 ticket) in HF;
      [|intros v v' ->; apply trail_position_ticket].
    destruct HF as [_ Hlook].
    destruct (Hlook _ _ Hl) as (p' & Hl' & ->).
    rewrite Hp in Hl'. exact Hl'.
  - intros C. apply HT in C. destruct C as (q & Hq & Htq & Hm).
    apply (@dict_In_lookup _ ticket (positions rm) q Hok) in Hq.
    rewrite Htq in Hq.
    assert (q = p) by congruence. subst q. rewrite Hp in Hm. discriminate.
Qed.
End Trailing.

(** *** Concrete books *)

Definition eurusd (t : Z) (ot : OrderType) (stop : option Q) (pnl : Q)
  : Position :=
  mk_position t "EURUSD" ot (1 # 10) (11 # 10) stop None 0 (11 # 10) 0 pnl.

(** A manager whose only trade of the day was closed with a loss of 60
    (limit: 5% of 1000). *)
Definition rm_loss : RiskManager :=
  remove_position (add_position (init default_config 0)
                                (eurusd 1 BUY None (-60))) 1.

(** Five open positions (the configured maximum) and a realized profit of 60
    on the day. *)
Definition rm_profit_full : RiskManager :=
  remove_position
    (fold_left add_position
       [eurusd 1 BUY None 0; eurusd 2 BUY None 0; eurusd 3 SELL None 0;
        eurusd 4 BUY None 0; eurusd 5 SELL None 0; eurusd 6 BUY None 60]
       (init default_config 0))
    6.

(** A long and a short position with stops, and one without, trailing
    enabled at 20 pips. *)
Definition rm_trailing : RiskManager :=
  fold_left add_position
    [eurusd 1 BUY (Some (1095 # 1000)) 0;
     eurusd 2 SELL (Some (1105 # 1000)) 0;
     eurusd 3 BUY None 0]
    (init (mk_config (2 # 100) (5 # 100) 5 50 100 true 20) 0).

Definition trailing_run : list (RiskOp StaticBroker) :=
  [OpApplyTrailingStop;
   OpUpdatePositions (demo_broker (1105 # 1000) (1106 # 1000));
   OpApplyTrailingStop;
   OpUpdatePositions (demo_broker (1090 # 1000) (1091 # 1000));
   OpApplyTrailingStop].

Example trailing_run_long :
  map Qred (accepted_stops 1 rm_trailing trailing_run)
  = map Qred [fsub (11 # 10) (fmul 20 (double (1 # 10000)));
              fsub (1105 # 1000) (fmul 20 (double (1 # 10000)))].
Proof. vm_compute. reflexivity. Qed.

Example trailing_run_short :
  map Qred (accepted_stops 2 rm_trailing trailing_run)
  = map Qred [fadd (11 # 10) (fmul 20 (double (1 # 10000)));
              fadd (1091 # 1000) (fmul 20 (double (1 # 10000)))].
Proof. vm_compute. reflexivity. Qed.



Lemma profit_trips_daily_loss_breaker_witness :
  let '(rm1, _, (ok, reason)) :=
    can_open_position 0 (demo_broker (11 # 10) (11 # 10))
      (remove_position (add_position (init default_config 0)
                                     (eurusd 1 BUY None 60)) 1)
      "EURUSD" (1 # 100) 50 in
  ok = false /\
  (reaches_loss_check 0 (demo_broker (11 # 10) (11 # 10))
     (remove_position (add_position (init default_config 0)
                                    (eurusd 1 BUY None 60)) 1)
     "EURUSD" (1 # 100) ->
   max_daily_loss_reached rm1 = true /\
   reason = "Daily loss limit would be exceeded"%string).
Proof.
  apply (@profit_trips_daily_loss_breaker StaticBroker _ 0
           (demo_broker (11 # 10) (11 # 10))
           (remove_position (add_position (init default_config 0)
                                          (eurusd 1 BUY None 60)) 1)
           "EURUSD" (1 # 100) 50).
  - unfold Qlt; simpl; lia.
  - unfold Qle; simpl; lia.
Defined.

(** C9, as stated, fails: with the book at its maximum, a profit beyond the
    limit is refused by the position-count guard and the breaker is not
    latched. *)
Lemma profit_at_position_cap_does_not_latch :
  ~ (forall (today : Z) (b : StaticBroker) (rm : RiskManager) (sym : string)
            (vol slp : Q),
       0 < daily_pnl (reset_daily_metrics today rm) ->
       balance_of b * max_daily_loss (config (reset_daily_metrics today rm))
         <= daily_pnl (reset_daily_metrics today rm) ->
       let '(rm1, _, (ok, _)) := can_open_position today b rm sym vol slp in
       ok = false /\ max_daily_loss_reached rm1 = true).
Proof.
  intros C.
  specialize (C 0%Z (demo_broker (11 # 10) (11 # 10)) rm_profit_full
                "GBPUSD"%string (1 # 100) 50).
  assert (E : can_open_position 0 (demo_broker (11 # 10) (11 # 10))
                rm_profit_full "GBPUSD" (1 # 100) 50
              = (rm_profit_full, demo_broker (11 # 10) (11 # 10),
                 (false, "Maximum open positions reached"%string)))
    by reflexivity.
  rewrite E in C.
  assert (F : false = false /\ max_daily_loss_reached rm_profit_full = true).
  { apply C.
    - unfold Qlt; simpl; lia.
    - unfold Qle; simpl; lia. }
  destruct F as [_ F]. discriminate F.
Qed.

Lemma trailing_stop_never_loosens_witness :
  StronglySorted Qlt
    (option_to_list (sl (eurusd 1 BUY (Some (1095 # 1000)) 0))
     ++ accepted_stops 1 rm_trailing trailing_run).
Proof.
  refine (proj1 (@trailing_stop_never_loosens StaticBroker _ 1 rm_trailing
                   (eurusd 1 BUY (Some (1095 # 1000)) 0) trailing_run
                   _ _ _) _).
  - unfold dict_ok; simpl.
    repeat constructor; simpl; intuition discriminate.
  - reflexivity.
  - repeat constructor.
  - reflexivity.
Defined.

Lemma apply_trailing_stop_skips_unset_witness :
  dict_lookup ticket (positions (fst (apply_trailing_stop rm_trailing))) 3
  = Some (eurusd 3 BUY None 0) /\
  ~ In 3%Z (snd (apply_trailing_stop rm_trailing)).
Proof.
  apply (@apply_trailing_stop_skips_unset rm_trailing (eurusd 3 BUY None 0)).
  - unfold dict_ok; simpl.
    repeat constructor; simpl; intuition discriminate.
  - simpl. auto.
  - reflexivity.
Defined.

(** *** Position sizing *)

(** [max(a, b)] and [min(a, b)] of Python: the first argument unless the
    second is strictly larger (smaller). *)
Definition py_max (a b : Q) : Q := if Qlt_bool a b then b else a.
Definition py_min (a b : Q) : Q := if Qlt_bool b a then b else a.

Section Sizing.
Context {B : Type} `{BaseBroker B}.

(** [calculate_position_size].  [None] is the [ZeroDivisionError] raised by
    [position_size / volume_step] when the broker reports a zero step. *)
Definition calculate_position_size (b : B) (sym : string)
    (risk_amount stop_loss_pips : Q) : B * option Q :=
  let (b, symbol_info) := get_symbol_info b sym in
  if negb (pydict_truthy symbol_info) then (b, Some 0)
  else
    let pip_value := pydict_get symbol_info "pip_value" (1 # 10000) in
    if Qle_bool stop_loss_pips 0 || Qle_bool pip_value 0 then (b, Some 0)
    else
      let risk_per_lot := stop_loss_pips * pip_value in
      if Qle_bool risk_per_lot 0 then (b, Some 0)
      else
        let position_size := risk_amount / risk_per_lot in
        let min_volume := pydict_get symbol_info "volume_min" (1 # 100) in
        let max_volume := pydict_get symbol_info "volume_max" 100 in
        let volume_step := pydict_get symbol_info "volume_step" (1 # 100) in
        let position_size :=
          py_max min_volume (py_min max_volume position_size) in
        if Qeq_bool volume_step 0 then (b, None)
        else
          (b, Some (inject_Z (round_half_even (position_size / volume_step))
                    * volume_step)).
End Sizing.

Lemma py_max_bounds (a b : Q) : a <= py_max a b /\ b <= py_max a b.
Proof.
  unfold py_max. destruct (Qlt_bool a b) eqn:E.
  - apply Qlt_bool_iff in E. split; [apply Qlt_le_weak; exact E|apply Qle_refl].
  - apply Qlt_bool_false_iff in E. split; [apply Qle_refl | exact E].
Qed.

Lemma py_clamp_bounds (lo hi x : Q) :
  lo <= hi -> lo <= py_max lo (py_min hi x) /\ py_max lo (py_min hi x) <= hi.
Proof.
  intros Hlh. split; [apply py_max_bounds|].
  unfold py_max, py_min.
  destruct (Qlt_bool x hi) eqn:E1.
  - apply Qlt_bool_iff in E1.
    destruct (Qlt_bool lo x); [apply Qlt_le_weak; exact E1 | exact Hlh].
  - destruct (Qlt_bool lo hi); [apply Qle_refl | exact Hlh].
Qed.

(** Rounding to the nearest integer stays between the integers that bound
    the argument. *)
Lemma round_half_even_between (q : Q) (a c : Z) :
  inject_Z a <= q -> q <= inject_Z c ->
  (a <= round_half_even q <= c)%Z.
Proof.
  destruct q as [n d]. unfold Qle, round_half_even, inject_Z.
  cbn [Qnum Qden]. rewrite !Z.mul_1_r. intros Ha Hc.
  pose proof (Z.div_mod n (Zpos d) ltac:(lia)) as E.
  pose proof (Z.mod_pos_bound n (Zpos d) ltac:(lia)) as Bm.
  remember (n / Zpos d)%Z as f eqn:Ef. remember (n mod Zpos d)%Z as r eqn:Er.
  clear Ef Er.
  assert (Hf : (a <= f)%Z) by nia.
  assert (Hf' : (r = 0 -> f <= c)%Z) by nia.
  assert (Hf'' : (0 < r -> f + 1 <= c)%Z) by nia.
  destruct (Z.compare_spec (2 * r) (Zpos d)) as [E2 | E2 | E2].
  - destruct (Z.even f); lia.
  - destruct (Z.eq_dec r 0); lia.
  - lia.
Qed.

(** The rounded value is within half a unit of the argument. *)
Lemma round_half_even_close (q : Q) :
  Qabs (inject_Z (round_half_even q) - q) <= 1 # 2.
Proof.
  apply Qabs_Qle_condition.
  destruct q as [n d].
  unfold Qle, Qminus, Qplus, Qopp, round_half_even, inject_Z.
  cbn [Qnum Qden].
  pose proof (Z.div_mod n (Zpos d) ltac:(lia)) as E.
  pose proof (Z.mod_pos_bound n (Zpos d) ltac:(lia)) as Bm.
  remember (n / Zpos d)%Z as f eqn:Ef. remember (n mod Zpos d)%Z as r eqn:Er.
  clear Ef Er.
  destruct (Z.compare_spec (2 * r) (Zpos d)) as [E2 | E2 | E2];
    [destruct (Z.even f)| |]; split; nia.
Qed.

(** *** Rounding to a double keeps the order

    [double] never carries a number across a double: what is at most a
    double [p] is rounded to at most [p], and what is at least [p] to at
    least [p]. *)

Lemma pow2_pos (k : Z) : 0 < 2 ^ k.
Proof. apply Qpower_0_lt. reflexivity. Qed.

Lemma pow2_le (k k' : Z) : (k <= k')%Z -> 2 ^ k <= 2 ^ k'.
Proof. intros H. apply Qpower_le_compat_l; [exact H | discriminate]. Qed.

Lemma pow2_lt_inv (k k' : Z) : 2 ^ k < 2 ^ k' -> (k < k')%Z.
Proof. intros H. apply (Qpower_lt_compat_l_inv 2); [exact H | reflexivity]. Qed.

Lemma pow2_plus (a b : Z) : 2 ^ (a + b) == 2 ^ a * 2 ^ b.
Proof. apply Qpower_plus. discriminate. Qed.

Lemma pow2_cancel (u : Z) : 2 ^ (- u) * 2 ^ u == 1.
Proof. rewrite <- pow2_plus. replace (- u + u)%Z with 0%Z by lia. reflexivity. Qed.

Lemma pow2_Z (n : Z) : (0 <= n)%Z -> inject_Z (2 ^ n) == 2 ^ n.
Proof. intros H. apply (Zpower_Qpower 2 n H). Qed.

Lemma floor_log2_spec (a : Q) :
  0 < a -> 2 ^ floor_log2 a <= a /\ a < 2 ^ (floor_log2 a + 1).
Proof.
  intros Ha. unfold floor_log2.
  destruct a as [n d]. cbn [Qnum Qden].
  assert (Hn : (0 < n)%Z) by (unfold Qlt in Ha; simpl in Ha; lia).
  pose proof (Z.log2_spec n Hn) as [Ln Un].
  pose proof (Z.log2_spec (Zpos d) ltac:(lia)) as [Ld Ud].
  pose proof (Z.log2_nonneg n) as Nn.
  pose proof (Z.log2_nonneg (Zpos d)) as Nd.
  set (ln := Z.log2 n) in *. set (ld := Z.log2 (Zpos d)) in *.
  assert (En : n # d == inject_Z n / inject_Z (Zpos d)) by apply Qmake_Qdiv.
  assert (Dpos : 0 < inject_Z (Zpos d)) by reflexivity.
  assert (Qn1 : 2 ^ ln <= inject_Z n).
  { rewrite <- pow2_Z by lia. rewrite <- Zle_Qle. exact Ln. }
  assert (Qn2 : inject_Z n < 2 ^ (ln + 1)).
  { rewrite <- pow2_Z by lia. rewrite <- Zlt_Qlt.
    replace (ln + 1)%Z with (Z.succ ln) by lia. exact Un. }
  assert (Qd1 : 2 ^ ld <= inject_Z (Zpos d)).
  { rewrite <- pow2_Z by lia. rewrite <- Zle_Qle. exact Ld. }
  assert (Qd2 : inject_Z (Zpos d) < 2 ^ (ld + 1)).
  { rewrite <- pow2_Z by lia. rewrite <- Zlt_Qlt.
    replace (ld + 1)%Z with (Z.succ ld) by lia. exact Ud. }
  assert (Ea : (n # d) * inject_Z (Zpos d) == inject_Z n).
  { rewrite En. field. intros C. rewrite C in Dpos. discriminate. }
    assert (Up : (n # d) < 2 ^ (ln - ld + 1)).
  { apply (Qmult_lt_r _ _ (inject_Z (Zpos d)) Dpos). rewrite Ea.
    apply (Qlt_le_trans _ _ _ Qn2).
    replace (ln + 1)%Z with ((ln - ld + 1) + ld)%Z by lia.
    rewrite pow2_plus.
    apply Qmult_le_l; [apply pow2_pos | exact Qd1]. }
  assert (Lo : 2 ^ (ln - ld - 1) < (n # d)).
  { apply (Qmult_lt_r _ _ (inject_Z (Zpos d)) Dpos). rewrite Ea.
    apply (Qlt_le_trans _ (2 ^ (ln - ld - 1) * 2 ^ (ld + 1))).
    - apply Qmult_lt_l; [apply pow2_pos | exact Qd2].
    - rewrite <- pow2_plus.
      replace (ln - ld - 1 + (ld + 1))%Z with ln by lia. exact Qn1. }
  destruct (Qle_bool (2 ^ (ln - ld)) (n # d)) eqn:E.
  - apply Qle_bool_iff in E. split; [exact E | exact Up].
  - split; [apply Qlt_le_weak; exact Lo|].
    replace (ln - ld - 1 + 1)%Z with (ln - ld)%Z by lia.
    apply Qnot_le_lt. intros C. apply Qle_bool_iff in C. congruence.
Qed.

Lemma floor_log2_mono (x y : Q) :
  0 < x -> x <= y -> (floor_log2 x <= floor_log2 y)%Z.
Proof.
  intros Hx Hxy.
  assert (Hy : 0 < y) by (apply (Qlt_le_trans _ x); assumption).
  destruct (floor_log2_spec Hx) as [Lx _].
  destruct (floor_log2_spec Hy) as [_ Uy].
  assert (H : 2 ^ floor_log2 x < 2 ^ (floor_log2 y + 1)).
  { apply (Qle_lt_trans _ x); [exact Lx|].
    apply (Qle_lt_trans _ y); assumption. }
  apply pow2_lt_inv in H. lia.
Qed.

(** The scaled argument of [nearest]: below 2^53, and at least 2^52 unless
    the number is subnormal. *)
Lemma scaled_bounds (a : Q) :
  0 < a ->
  let u := ulp_exponent a in
  a * 2 ^ (- u) <= inject_Z (2 ^ 53) /\
  ((-1074 < u)%Z -> inject_Z (2 ^ 52) <= a * 2 ^ (- u)).
Proof.
  intros Ha u. destruct (floor_log2_spec Ha) as [L U].
  assert (Hu : (floor_log2 a - 52 <= u)%Z) by (unfold u, ulp_exponent; lia).
  split.
  - rewrite pow2_Z by lia.
    apply (Qle_trans _ (2 ^ (floor_log2 a + 1) * 2 ^ (- u))).
    + apply Qmult_le_compat_r; [apply Qlt_le_weak; exact U|].
      apply Qlt_le_weak, pow2_pos.
    + rewrite <- pow2_plus. apply pow2_le. lia.
  - intros Hn. assert (Eu : u = (floor_log2 a - 52)%Z)
      by (unfold u, ulp_exponent in *; lia).
    rewrite pow2_Z by lia.
    apply (Qle_trans _ (2 ^ floor_log2 a * 2 ^ (- u))).
    + rewrite <- pow2_plus. apply pow2_le. lia.
    + apply Qmult_le_compat_r; [exact L|]. apply Qlt_le_weak, pow2_pos.
Qed.

Lemma round_half_even_ge (q : Q) (a : Z) :
  inject_Z a <= q -> (a <= round_half_even q)%Z.
Proof.
  intros H.
  apply (@round_half_even_between q a (Qceiling q) H (Qle_ceiling q)).
Qed.

Lemma round_half_even_le (q : Q) (c : Z) :
  q <= inject_Z c -> (round_half_even q <= c)%Z.
Proof.
  intros H.
  apply (@round_half_even_between q (Qfloor q) c (Qfloor_le q) H).
Qed.

Lemma nearest_bounds (a : Q) :
  0 < a ->
  let u := ulp_exponent a in
  0 <= nearest a /\ nearest a <= 2 ^ (u + 53) /\
  ((-1074 < u)%Z -> 2 ^ (u + 52) <= nearest a).
Proof.
  intros Ha u. destruct (scaled_bounds Ha) as [S1 S2]. fold u in S1, S2.
  unfold nearest. fold u.
  set (m := round_half_even (a * 2 ^ (- u))).
  assert (M0 : (0 <= m)%Z).
  { apply round_half_even_ge. change (inject_Z 0) with 0.
    apply Qmult_le_0_compat; [apply Qlt_le_weak; exact Ha|].
    apply Qlt_le_weak, pow2_pos. }
  assert (M1 : (m <= 2 ^ 53)%Z) by (apply round_half_even_le; exact S1).
  split; [|split].
  - apply Qmult_le_0_compat; [|apply Qlt_le_weak, pow2_pos].
    change 0 with (inject_Z 0). rewrite <- Zle_Qle. exact M0.
  - rewrite Z.add_comm, pow2_plus.
    apply Qmult_le_compat_r; [|apply Qlt_le_weak, pow2_pos].
    rewrite <- pow2_Z by lia. rewrite <- Zle_Qle. exact M1.
  - intros Hn. rewrite Z.add_comm, pow2_plus.
    apply Qmult_le_compat_r; [|apply Qlt_le_weak, pow2_pos].
    rewrite <- pow2_Z by lia. rewrite <- Zle_Qle.
    apply round_half_even_ge. apply S2. exact Hn.
Qed.

Lemma ulp_exponent_mono (x y : Q) :
  0 < x -> x <= y -> (ulp_exponent x <= ulp_exponent y)%Z.
Proof.
  intros Hx Hxy. pose proof (floor_log2_mono Hx Hxy).
  unfold ulp_exponent. lia.
Qed.

Lemma on_grid (m : Z) (u : Z) (p : Q) :
  inject_Z m * 2 ^ u == p -> inject_Z m == p * 2 ^ (- u).
Proof.
  intros E. rewrite <- E. rewrite <- Qmult_assoc.
  setoid_replace (2 ^ u * 2 ^ (- u)) with 1
    by (rewrite Qmult_comm; apply pow2_cancel).
  rewrite Qmult_1_r. reflexivity.
Qed.

(** A positive double [p] stays on its side of [nearest]. *)
Lemma nearest_ge (p x : Q) :
  0 < p -> p <= x -> nearest p == p -> p <= nearest x.
Proof.
  intros Hp Hpx Ep.
  assert (Hx : 0 < x) by (apply (Qlt_le_trans _ p); assumption).
  pose proof (ulp_exponent_mono Hp Hpx) as Hu.
  destruct (Z.eq_dec (ulp_exponent p) (ulp_exponent x)) as [E | N].
  - unfold nearest in *. rewrite E in Ep.
    remember (ulp_exponent x) as u eqn:Eu.
    remember (round_half_even (p * 2 ^ (- u))) as mp eqn:Emp.
    clear Emp. pose proof (@on_grid mp u p Ep) as Em.
    apply (Qle_trans _ (inject_Z mp * 2 ^ u)).
    + rewrite Ep. apply Qle_refl.
    + apply Qmult_le_compat_r; [|apply Qlt_le_weak, pow2_pos].
      rewrite <- Zle_Qle. apply round_half_even_ge. rewrite Em.
      apply Qmult_le_compat_r; [exact Hpx|]. apply Qlt_le_weak, pow2_pos.
  - destruct (nearest_bounds Hx) as (_ & _ & Lx).
    assert (Hn : (-1074 < ulp_exponent x)%Z)
      by (unfold ulp_exponent in *; lia).
    apply (Qle_trans _ (2 ^ (ulp_exponent x + 52))); [|apply Lx; exact Hn].
    destruct (floor_log2_spec Hp) as [_ Up].
    apply Qlt_le_weak. apply (Qlt_le_trans _ _ _ Up).
    apply pow2_le. unfold ulp_exponent in *. lia.
Qed.

Lemma nearest_le (p x : Q) :
  0 < x -> x <= p -> nearest p == p -> nearest x <= p.
Proof.
  intros Hx Hxp Ep.
  assert (Hp : 0 < p) by (apply (Qlt_le_trans _ x); assumption).
  pose proof (ulp_exponent_mono Hx Hxp) as Hu.
  destruct (Z.eq_dec (ulp_exponent x) (ulp_exponent p)) as [E | N].
  - unfold nearest in *. rewrite E.
    remember (ulp_exponent p) as u eqn:Eu.
    remember (round_half_even (p * 2 ^ (- u))) as mp eqn:Emp.
    clear Emp. pose proof (@on_grid mp u p Ep) as Em.
    apply (Qle_trans _ (inject_Z mp * 2 ^ u)).
    + apply Qmult_le_compat_r; [|apply Qlt_le_weak, pow2_pos].
      rewrite <- Zle_Qle. apply round_half_even_le. rewrite Em.
      apply Qmult_le_compat_r; [exact Hxp|]. apply Qlt_le_weak, pow2_pos.
    + rewrite Ep. apply Qle_refl.
  - destruct (nearest_bounds Hx) as (_ & Ux & _).
    apply (Qle_trans _ _ _ Ux).
    destruct (floor_log2_spec Hp) as [Lp _].
    apply (Qle_trans _ (2 ^ floor_log2 p)); [|exact Lp].
    apply pow2_le. unfold ulp_exponent in *. lia.
Qed.

(** Rounding keeps a number on its side of every double. *)
Lemma double_sign (x : Q) :
  (0 <= x -> 0 <= double x) /\ (x <= 0 -> double x <= 0).
Proof.
  unfold double. destruct (Qeq_bool x 0) eqn:E0.
  - split; intros _; apply Qle_refl.
  - assert (N0 : ~ x == 0)
      by (intros C; apply Qeq_bool_iff in C; congruence).
    assert (Ha : 0 < Qabs x).
    { destruct (Qlt_le_dec 0 (Qabs x)) as [L | L]; [exact L|].
      exfalso. apply N0. apply Qabs_Qle_condition in L. lra. }
    destruct (nearest_bounds Ha) as (P & _ & _).
    destruct (Qlt_bool x 0) eqn:E1.
    + apply Qlt_bool_iff in E1. split; intros H; lra.
    + assert (L : 0 <= x).
      { apply Qnot_lt_le. intros C. apply Qlt_bool_iff in C. congruence. }
      split; intros H; [exact P|]. exfalso. apply N0. lra.
Qed.

Lemma double_abs (p : Q) :
  double p == p -> ~ p == 0 -> nearest (Qabs p) == Qabs p.
Proof.
  unfold double. intros Ep N0.
  destruct (Qeq_bool p 0) eqn:E0;
    [apply Qeq_bool_iff in E0; contradiction|].
  destruct (Qlt_bool p 0) eqn:E1.
  - apply Qlt_bool_iff in E1.
    rewrite (Qabs_neg p) at 2 by lra. lra.
  - assert (L : 0 <= p).
    { apply Qnot_lt_le. intros C. apply Qlt_bool_iff in C. congruence. }
    rewrite (Qabs_pos p) at 2 by exact L. exact Ep.
Qed.

Lemma double_ge (p x : Q) : double p == p -> p <= x -> p <= double x.
Proof.
  intros Ep Hpx. destruct (double_sign x) as [Sx1 Sx2].
  destruct (Qlt_le_dec 0 p) as [Pp | Pn].
  - (* 0 < p <= x *)
    assert (Hx : 0 < x) by lra.
    assert (N0 : ~ p == 0) by lra.
    pose proof (double_abs Ep N0) as Ea.
    unfold double.
    destruct (Qeq_bool x 0) eqn:E0; [apply Qeq_bool_iff in E0; lra|].
    destruct (Qlt_bool x 0) eqn:E1; [apply Qlt_bool_iff in E1; lra|].
    assert (Ap : Qabs p == p) by (apply Qabs_pos; lra).
    assert (Ax : Qabs x == x) by (apply Qabs_pos; lra).
    rewrite <- Ap. apply nearest_ge; [lra | lra | exact Ea].
  - destruct (Qlt_le_dec x 0) as [Xn | Xp]; [|specialize (Sx1 Xp); lra].
    (* p <= x < 0 *)
    assert (N0 : ~ p == 0) by lra.
    pose proof (double_abs Ep N0) as Ea.
    unfold double.
    destruct (Qeq_bool x 0) eqn:E0; [apply Qeq_bool_iff in E0; lra|].
    destruct (Qlt_bool x 0) eqn:E1.
    + assert (Ap : Qabs p == - p) by (apply Qabs_neg; lra).
      assert (Ax : Qabs x == - x) by (apply Qabs_neg; lra).
      assert (H : nearest (Qabs x) <= Qabs p)
        by (apply nearest_le; [lra | lra | exact Ea]).
      lra.
    + exfalso. assert (C : Qlt_bool x 0 = true)
        by (apply Qlt_bool_iff; exact Xn). congruence.
Qed.

Lemma double_le (p x : Q) : double p == p -> x <= p -> double x <= p.
Proof.
  intros Ep Hxp. destruct (double_sign x) as [Sx1 Sx2].
  destruct (Qlt_le_dec p 0) as [Pn | Pp].
  - (* x <= p < 0 *)
    assert (N0 : ~ p == 0) by lra.
    pose proof (double_abs Ep N0) as Ea.
    unfold double.
    destruct (Qeq_bool x 0) eqn:E0; [apply Qeq_bool_iff in E0; lra|].
    destruct (Qlt_bool x 0) eqn:E1.
    + assert (Ap : Qabs p == - p) by (apply Qabs_neg; lra).
      assert (Ax : Qabs x == - x) by (apply Qabs_neg; lra).
      assert (H : Qabs p <= nearest (Qabs x))
        by (apply nearest_ge; [lra | lra | exact Ea]).
      lra.
    + exfalso. assert (C : Qlt_bool x 0 = true)
        by (apply Qlt_bool_iff; lra). congruence.
  - destruct (Qlt_le_dec 0 x) as [Xp | Xn]; [|specialize (Sx2 Xn); lra].
    (* 0 < x <= p *)
    assert (N0 : ~ p == 0) by lra.
    pose proof (double_abs Ep N0) as Ea.
    unfold double.
    destruct (Qeq_bool x 0) eqn:E0; [apply Qeq_bool_iff in E0; lra|].
    destruct (Qlt_bool x 0) eqn:E1; [apply Qlt_bool_iff in E1; lra|].
    assert (Ap : Qabs p == p) by (apply Qabs_pos; lra).
    assert (Ax : Qabs x == x) by (apply Qabs_pos; lra).
    rewrite <- Ap. apply nearest_le; [lra | lra | exact Ea].
Qed.

Section SizingFacts.
Context {B : Type} `{BaseBroker B}.

(** What the broker reports for a symbol. *)
Definition symbol_info_of (b : B) (sym : string) : pydict :=
  snd (get_symbol_info b sym).

(** The size before rounding: the risk-based size clamped between the
    broker's minimum and maximum volume. *)
Definition clamped_size (b : B) (sym : string)
    (risk_amount stop_loss_pips : Q) : Q :=
  let info := symbol_info_of b sym in
  py_max (pydict_get info "volume_min" (1 # 100))
    (py_min (pydict_get info "volume_max" 100)
       (risk_amount
        / (stop_loss_pips * pydict_get info "pip_value" (1 # 10000)))).

(** [calculate_position_size] answers 0 ("do not trade") when the symbol is
    unknown to the broker, when the stop distance is not positive, or when
    the pip value is not positive. *)
Theorem position_size_zero_when_unusable (b : B) (sym : string)
    (risk_amount stop_loss_pips : Q) :
  pydict_truthy (symbol_info_of b sym) = false \/
  stop_loss_pips <= 0 \/
  pydict_get (symbol_info_of b sym) "pip_value" (1 # 10000) <= 0 ->
  snd (calculate_position_size b sym risk_amount stop_loss_pips) = Some 0.
Proof.
  unfold symbol_info_of, calculate_position_size.
  destruct (get_symbol_info b sym) as [b1 info]. simpl.
  intros [Hi | [Hs | Hp]].
  - rewrite Hi. reflexivity.
  - destruct (pydict_truthy info); [|reflexivity]. simpl.
    apply Qle_bool_iff in Hs. rewrite Hs. reflexivity.
  - destruct (pydict_truthy info); [|reflexivity]. simpl.
    apply Qle_bool_iff in Hp. rewrite Hp, orb_true_r. reflexivity.
Qed.

(** With usable inputs and a broker that reports a volume step of zero, the
    call fails (division by zero) instead of returning a size. *)
Theorem position_size_fails_on_zero_step (b : B) (sym : string)
    (risk_amount stop_loss_pips : Q) :
  pydict_truthy (symbol_info_of b sym) = true ->
  0 < stop_loss_pips ->
  0 < pydict_get (symbol_info_of b sym) "pip_value" (1 # 10000) ->
  pydict_get (symbol_info_of b sym) "volume_step" (1 # 100) == 0 ->
  snd (calculate_position_size b sym risk_amount stop_loss_pips) = None.
Proof.
  unfold symbol_info_of, calculate_position_size.
  destruct (get_symbol_info b sym) as [b1 info]. simpl.
  intros Hi Hs Hp Hz. rewrite Hi. simpl.
  apply Qle_bool_false_iff in Hs. apply Qle_bool_false_iff in Hp.
  rewrite Hs, Hp. simpl.
  apply Qle_bool_false_iff in Hs. apply Qle_bool_false_iff in Hp.
  assert (Hr : Qle_bool (stop_loss_pips
                         * pydict_get info "pip_value" (1 # 10000)) 0 = false).
  { apply Qle_bool_false_iff. apply Qmult_lt_0_compat; assumption. }
  rewrite Hr. apply Qeq_bool_iff in Hz. rewrite Hz. reflexivity.
Qed.

(** With usable inputs and a positive volume step, the size returned is a
    whole number of steps, within half a step of the clamped risk-based
    size; and when the broker's minimum and maximum volumes are themselves
    whole numbers of steps, it lies between them. *)
Theorem position_size_on_the_step_grid (b : B) (sym : string)
    (risk_amount stop_loss_pips : Q) :
  let info := symbol_info_of b sym in
  let step := pydict_get info "volume_step" (1 # 100) in
  pydict_truthy info = true ->
  0 < stop_loss_pips ->
  0 < pydict_get info "pip_value" (1 # 10000) ->
  0 < step ->
  exists k : Z,
    snd (calculate_position_size b sym risk_amount stop_loss_pips)
    = Some (inject_Z k * step) /\
    Qabs (inject_Z k * step
          - clamped_size b sym risk_amount stop_loss_pips)
    <= (1 # 2) * step /\
    (forall a c : Z,
       pydict_get info "volume_min" (1 # 100) == inject_Z a * step ->
       pydict_get info "volume_max" 100 == inject_Z c * step ->
       (a <= c)%Z ->
       (a <= k <= c)%Z).
Proof.
  unfold clamped_size, symbol_info_of, calculate_position_size.
  destruct (get_symbol_info b sym) as [b1 info]. cbn [snd].
  intros Hi Hs Hp Hstep. rewrite Hi. cbn [negb].
  apply Qle_bool_false_iff in Hs. apply Qle_bool_false_iff in Hp.
  rewrite Hs, Hp. cbn [orb].
  apply Qle_bool_false_iff in Hs. apply Qle_bool_false_iff in Hp.
  assert (Hr : Qle_bool (stop_loss_pips
                         * pydict_get info "pip_value" (1 # 10000)) 0 = false).
  { apply Qle_bool_false_iff. apply Qmult_lt_0_compat; assumption. }
  rewrite Hr.
  set (step := pydict_get info "volume_step" (1 # 100)) in *.
  set (lo := pydict_get info "volume_min" (1 # 100)).
  set (hi := pydict_get info "volume_max" 100).
  set (x := py_max lo (py_min hi (risk_amount
             / (stop_loss_pips * pydict_get info "pip_value" (1 # 10000))))).
  assert (Hnz : ~ step == 0).
  { intros C. rewrite C in Hstep. exact (Qlt_irrefl _ Hstep). }
  assert (Hz : Qeq_bool step 0 = false).
  { destruct (Qeq_bool step 0) eqn:E; [|reflexivity].
    apply Qeq_bool_iff in E. contradiction. }
  rewrite Hz. cbn [snd].
  exists (round_half_even (x / step)). split; [reflexivity|]. split.
  - assert (E : inject_Z (round_half_even (x / step)) * step - x
                == (inject_Z (round_half_even (x / step)) - x / step) * step)
      by (field; exact Hnz).
    rewrite E, Qabs_Qmult, (Qabs_pos step) by (apply Qlt_le_weak; exact Hstep).
    apply Qmult_le_compat_r; [|apply Qlt_le_weak; exact Hstep].
    apply round_half_even_close.
  - intros a c Ha Hc Hac.
    assert (Hlh : lo <= hi).
    { rewrite Ha, Hc. apply Qmult_le_compat_r;
        [|apply Qlt_le_weak; exact Hstep].
      rewrite <- Zle_Qle. exact Hac. }
    destruct (py_clamp_bounds
                (risk_amount
                 / (stop_loss_pips * pydict_get info "pip_value" (1 # 10000)))
                Hlh) as [Hlo Hhi].
    fold x in Hlo, Hhi.
    apply round_half_even_between.
    + apply Qle_shift_div_l; [exact Hstep|]. rewrite <- Ha. exact Hlo.
    + apply Qle_shift_div_r; [exact Hstep|]. rewrite <- Hc. exact Hhi.
Qed.
End SizingFacts.

(** A broker quoting EURUSD with the usual lot grid, and one with a zero
    step. *)
Definition lot_broker (step : Q) : StaticBroker :=
  mk_static [("balance"%string, 1000)]
            (fun _ => [("ask"%string, 11 # 10);
                       ("pip_value"%string, 1 # 10000);
                       ("volume_min"%string, 1 # 100);
                       ("volume_max"%string, 100);
                       ("volume_step"%string, step)])
            (fun _ => Some (11 # 10))
            true.

(** 0.001234 at risk over 50 pips: 0.2468 lot, rounded to 0.25. *)
Example position_size_rounds_to_step :
  option_map Qred
    (snd (calculate_position_size (lot_broker (1 # 100)) "EURUSD"
            (1234 # 1000000) 50))
  = Some (1 # 4).
Proof. vm_compute. reflexivity. Qed.

Lemma position_size_zero_when_unusable_witness :
  snd (calculate_position_size (lot_broker (1 # 100)) "EURUSD" 20 0)
  = Some 0.
Proof.
  apply (@position_size_zero_when_unusable StaticBroker _
           (lot_broker (1 # 100)) "EURUSD" 20 0).
  right. left. unfold Qle; simpl; lia.
Defined.

Lemma position_size_fails_on_zero_step_witness :
  snd (calculate_position_size (lot_broker 0) "EURUSD" 20 50) = None.
Proof.
  apply (@position_size_fails_on_zero_step StaticBroker _
           (lot_broker 0) "EURUSD" 20 50).
  - reflexivity.
  - unfold Qlt; simpl; lia.
  - unfold Qlt; simpl; lia.
  - reflexivity.
Defined.

Lemma position_size_on_the_step_grid_witness :
  exists k : Z,
    snd (calculate_position_size (lot_broker (1 # 100)) "EURUSD" 20 50)
    = Some (inject_Z k * (1 # 100)) /\
    Qabs (inject_Z k * (1 # 100)
          - clamped_size (lot_broker (1 # 100)) "EURUSD" 20 50)
    <= (1 # 2) * (1 # 100) /\
    (forall a c : Z,
       (1 # 100) == inject_Z a * (1 # 100) ->
       100 == inject_Z c * (1 # 100) ->
       (a <= c)%Z ->
       (a <= k <= c)%Z).
Proof.
  assert (H1 : 0 < 50) by (unfold Qlt; simpl; lia).
  assert (H2 : 0 < 1 # 10000) by (unfold Qlt; simpl; lia).
  assert (H3 : 0 < 1 # 100) by (unfold Qlt; simpl; lia).
  exact (@position_size_on_the_step_grid StaticBroker _
           (lot_broker (1 # 100)) "EURUSD" 20 50 eq_refl H1 H2 H3).
Defined.

(** *** Metrics and alerts *)

(** [Position.__init__]; [clock] is what [datetime.now()] reads when no open
    time is supplied. *)
Definition new_position (clock : Z) (t : Z) (sym : string) (ot : OrderType)
    (vol entry : Q) (stop target : option Q) (opened : option Z) : Position :=
  mk_position t sym ot vol entry stop target
    (match opened with Some o => o | None => clock end) entry 0 0.

(** [check_take_profits] *)
Fixpoint check_take_profits_loop (ps : list Position) : list Z :=
  match ps with
  | [] => []
  | p :: rest =>
      match tp p with
      | None => check_take_profits_loop rest
      | Some target =>
          if OrderType_eqb (order_type p) BUY
             && Qle_bool target (current_price p)
          then ticket p :: check_take_profits_loop rest
          else if OrderType_eqb (order_type p) SELL
                  && Qle_bool (current_price p) target
          then ticket p :: check_take_profits_loop rest
          else check_take_profits_loop rest
      end
  end.

Definition check_take_profits (rm : RiskManager) : list Z :=
  check_take_profits_loop (positions rm).

(** The dictionary returned by [get_risk_metrics]. *)
Record RiskMetrics := mk_metrics {
  m_total_positions : Z;
  m_daily_pnl : Q;
  m_daily_trades : Z;
  m_total_trades : Z;
  m_winning_trades : Z;
  m_losing_trades : Z;
  m_win_rate : Q;
  m_total_unrealized_pnl : Q;
  m_current_drawdown : Q;
  m_max_drawdown : Q;
  m_max_daily_loss_reached : bool;
  m_balance : Q;
  m_equity : Q
}.

(** [sum(pos.unrealized_pnl for pos in self.positions.values())] *)
Definition total_unrealized (ps : list Position) : Q :=
  fold_left (fun acc p => acc + unrealized_pnl p) ps 0.

Section Reports.
Context {B : Type} `{BaseBroker B}.

(** The equity [get_risk_metrics] computes from a broker state. *)
Definition equity_of (b : B) (rm : RiskManager) : Q :=
  (let account_info := snd (get_account_info b) in
   if pydict_truthy account_info
   then pydict_get account_info "balance" 0 else 0)
  + daily_pnl rm + total_unrealized (positions rm).

(** [get_risk_metrics] *)
Definition get_risk_metrics (b : B) (rm : RiskManager)
  : RiskManager * B * RiskMetrics :=
  let (b, account_info) := get_account_info b in
  let balance := if pydict_truthy account_info
                 then pydict_get account_info "balance" 0 else 0 in
  let total_unrealized := total_unrealized (positions rm) in
  let current_equity := balance + daily_pnl rm + total_unrealized in
  let peak_balance := if Qlt_bool (peak_balance rm) current_equity
                      then current_equity else peak_balance rm in
  let current_drawdown :=
    if Qlt_bool 0 peak_balance
    then (peak_balance - current_equity) / peak_balance else 0 in
  let max_drawdown := py_max (max_drawdown rm) current_drawdown in
  (mk_rm (config rm) (positions rm) (daily_pnl rm) (daily_trades rm)
     (max_daily_loss_reached rm) (last_reset_date rm) (total_trades rm)
     (winning_trades rm) (losing_trades rm) max_drawdown current_drawdown
     peak_balance,
   b,
   mk_metrics (len (positions rm)) (daily_pnl rm) (daily_trades rm)
     (total_trades rm) (winning_trades rm) (losing_trades rm)
     (if (total_trades rm >? 0)%Z
      then inject_Z (winning_trades rm) / inject_Z (total_trades rm) else 0)
     total_unrealized current_drawdown max_drawdown
     (max_daily_loss_reached rm) balance current_equity).

(** [f"{x:.2%}"] *)
Definition format_2pct (x : Q) : string := (format_2f (x * 100) ++ "%")%string.

(** [get_risk_alerts] *)
Definition get_risk_alerts (b : B) (rm : RiskManager) : B * list string :=
  let alerts := [] in
  let alerts := if max_daily_loss_reached rm
                then alerts ++ ["Daily loss limit reached"%string]
                else alerts in
  let alerts :=
    if (len (positions rm) >=? max_open_positions (config rm))%Z
    then alerts ++ ["Maximum open positions reached"%string] else alerts in
  let alerts :=
    if Qle_bool (5 # 100) (current_drawdown rm)
    then alerts ++ [("High drawdown: "
                     ++ format_2pct (current_drawdown rm))%string]
    else alerts in
  let (b, account_info) := get_account_info b in
  if pydict_truthy account_info then
    let balance := pydict_get account_info "balance" 0 in
    if Qle_bool (balance * max_daily_loss (config rm) * (8 # 10))
                (Qabs (daily_pnl rm))
    then (b, alerts ++ ["Approaching daily loss limit"%string])
    else (b, alerts)
  else (b, alerts).

Lemma get_risk_metrics_bounds (b : B) (rm : RiskManager) :
  let rm' := fst (fst (get_risk_metrics b rm)) in
  peak_balance rm <= peak_balance rm' /\
  equity_of b rm <= peak_balance rm' /\
  0 <= current_drawdown rm' /\
  (0 <= equity_of b rm -> current_drawdown rm' <= 1) /\
  current_drawdown rm' <= max_drawdown rm' /\
  max_drawdown rm <= max_drawdown rm' /\
  m_current_drawdown (snd (get_risk_metrics b rm)) = current_drawdown rm' /\
  m_equity (snd (get_risk_metrics b rm)) = equity_of b rm.
Proof.
  unfold get_risk_metrics, equity_of.
  destruct (get_account_info b) as [b1 ai]. cbn [fst snd].
  set (eq := (if pydict_truthy ai then pydict_get ai "balance" 0 else 0)
             + daily_pnl rm + total_unrealized (positions rm)).
  cbn [peak_balance current_drawdown max_drawdown m_current_drawdown
       m_equity].
  set (pk := if Qlt_bool (peak_balance rm) eq then eq else peak_balance rm).
  assert (Hpk : peak_balance rm <= pk /\ eq <= pk).
  { unfold pk. destruct (Qlt_bool (peak_balance rm) eq) eqn:E.
    - apply Qlt_bool_iff in E.
      split; [apply Qlt_le_weak; exact E | apply Qle_refl].
    - apply Qlt_bool_false_iff in E. split; [apply Qle_refl | exact E]. }
  destruct Hpk as [Hpk1 Hpk2].
  set (dd := if Qlt_bool 0 pk then (pk - eq) / pk else 0).
  assert (Hdd : 0 <= dd /\ (0 <= eq -> dd <= 1)).
  { unfold dd. destruct (Qlt_bool 0 pk) eqn:E.
    - apply Qlt_bool_iff in E. split.
      + apply Qle_shift_div_l; [exact E|]. rewrite Qmult_0_l.
        rewrite <- (Qplus_opp_r eq). apply Qplus_le_compat;
          [exact Hpk2 | apply Qle_refl].
      + intros Heq. apply Qle_shift_div_r; [exact E|]. rewrite Qmult_1_l.
        rewrite <- (Qplus_0_r pk) at 2. apply Qplus_le_compat;
          [apply Qle_refl|].
        rewrite <- (Qopp_involutive 0). apply Qopp_le_compat. exact Heq.
    - split; [apply Qle_refl | intros _; unfold Qle; simpl; lia]. }
  destruct Hdd as [Hdd1 Hdd2].
  destruct (py_max_bounds (max_drawdown rm) dd) as [Hm1 Hm2].
  repeat split; assumption || reflexivity.
Qed.

(** After [get_risk_metrics]: the peak never decreases and is at least the
    equity just computed; the current drawdown is never negative, is at most
    1 when the equity is not negative, and never exceeds the maximum
    drawdown, which never decreases. *)
Theorem risk_metrics_drawdown_bounds (b : B) (rm : RiskManager) :
  let rm' := fst (fst (get_risk_metrics b rm)) in
  peak_balance rm <= peak_balance rm' /\
  equity_of b rm <= peak_balance rm' /\
  0 <= current_drawdown rm' /\
  (0 <= equity_of b rm -> current_drawdown rm' <= 1) /\
  current_drawdown rm' <= max_drawdown rm' /\
  max_drawdown rm <= max_drawdown rm' /\
  m_current_drawdown (snd (get_risk_metrics b rm)) = current_drawdown rm' /\
  m_equity (snd (get_risk_metrics b rm)) = equity_of b rm.
Proof. exact (get_risk_metrics_bounds b rm). Qed.

(** [get_risk_alerts] reports the daily-loss breaker exactly when it is
    latched; it reads the flag without rolling the day over. *)
Theorem risk_alerts_show_breaker (b : B) (rm : RiskManager) :
  In "Daily loss limit reached"%string (snd (get_risk_alerts b rm))
  <-> max_daily_loss_reached rm = true.
Proof.
  unfold get_risk_alerts.
  destruct (get_account_info b) as [b1 ai]. cbv zeta.
  set (a1 := if max_daily_loss_reached rm
             then [] ++ ["Daily loss limit reached"%string] else []).
  set (a2 := if (len (positions rm) >=? max_open_positions (config rm))%Z
             then a1 ++ ["Maximum open positions reached"%string] else a1).
  set (a3 := if Qle_bool (5 # 100) (current_drawdown rm)
             then a2 ++ [("High drawdown: "
                          ++ format_2pct (current_drawdown rm))%string]
             else a2).
  assert (H1 : In "Daily loss limit reached"%string a1
               <-> max_daily_loss_reached rm = true).
  { unfold a1. destruct (max_daily_loss_reached rm); simpl;
      intuition discriminate. }
  assert (H2 : In "Daily loss limit reached"%string a2
               <-> In "Daily loss limit reached"%string a1).
  { unfold a2. destruct (_ >=? _)%Z; [|tauto].
    rewrite in_app_iff. simpl. intuition discriminate. }
  assert (H3 : In "Daily loss limit reached"%string a3
               <-> In "Daily loss limit reached"%string a2).
  { unfold a3. destruct (Qle_bool _ _); [|tauto].
    rewrite in_app_iff. simpl. intuition discriminate. }
  assert (H4 : In "Daily loss limit reached"%string
                 (a3 ++ ["Approaching daily loss limit"%string])
               <-> In "Daily loss limit reached"%string a3).
  { rewrite in_app_iff. simpl. intuition discriminate. }
  assert (H123 : In "Daily loss limit reached"%string a3
                 <-> max_daily_loss_reached rm = true).
  { etransitivity; [exact H3|]. etransitivity; [exact H2 | exact H1]. }
  destruct (pydict_truthy ai);
    [destruct (Qle_bool (pydict_get ai "balance" 0
                         * max_daily_loss (config rm) * (8 # 10))
                        (Qabs (daily_pnl rm)))|]; cbn [snd].
  - etransitivity; [exact H4 | exact H123].
  - exact H123.
  - exact H123.
Qed.

(** Whenever [should_close_all_positions] answers true because of the day's
    P&L (the drawdown being below its 10% ceiling), [get_risk_alerts],
    reading the same account balance, includes the early warning
    "Approaching daily loss limit". *)
Theorem risk_alerts_warn_before_close_all (today : Z) (b : B)
    (rm : RiskManager) :
  snd (should_close_all_positions today b rm) = true ->
  current_drawdown rm < 1 # 10 ->
  In "Approaching daily loss limit"%string
     (snd (get_risk_alerts b
             (fst (fst (should_close_all_positions today b rm))))).
Proof.
  rewrite should_close_all_positions_state.
  unfold should_close_all_positions, get_risk_alerts.
  set (rm0 := reset_daily_metrics today rm).
  assert (Ed : current_drawdown rm0 = current_drawdown rm).
  { unfold rm0, reset_daily_metrics. destruct (_ <? _)%Z; reflexivity. }
  destruct (get_account_info b) as [b1 ai].
  destruct (pydict_truthy ai); cbn [negb snd]; [|discriminate].
  destruct (Qle_bool (pydict_get ai "balance" 0 * max_daily_loss (config rm0))
                     (Qabs (daily_pnl rm0))) eqn:E.
  - intros _ _. apply Qle_bool_iff in E.
    assert (E8 : Qle_bool (pydict_get ai "balance" 0
                           * max_daily_loss (config rm0) * (8 # 10))
                          (Qabs (daily_pnl rm0)) = true).
    { apply Qle_bool_iff.
      set (L := pydict_get ai "balance" 0 * max_daily_loss (config rm0)) in *.
      destruct (Qlt_le_dec L 0) as [Hneg | Hpos].
      - apply Qle_trans with 0; [|apply Qabs_nonneg].
        setoid_replace 0 with (0 * (8 # 10)) by reflexivity.
        apply Qmult_le_compat_r; [apply Qlt_le_weak; exact Hneg|].
        unfold Qle; simpl; lia.
      - apply Qle_trans with L; [|exact E].
        setoid_replace L with (L * 1) at 2 by (symmetry; apply Qmult_1_r).
        rewrite (Qmult_comm L (8 # 10)), (Qmult_comm L 1).
        apply Qmult_le_compat_r; [unfold Qle; simpl; lia | exact Hpos]. }
    rewrite E8. cbn [snd]. rewrite in_app_iff. right. simpl. auto.
  - rewrite Ed. intros Hv Hd.
    destruct (Qle_bool (1 # 10) (current_drawdown rm)) eqn:E2;
      [|discriminate].
    apply Qle_bool_iff in E2. exfalso. exact (Qlt_not_le _ _ Hd E2).
Qed.
End Reports.

Lemma risk_alerts_warn_before_close_all_witness :
  In "Approaching daily loss limit"%string
     (snd (get_risk_alerts (demo_broker (11 # 10) (11 # 10))
             (fst (fst (should_close_all_positions 0
                          (demo_broker (11 # 10) (11 # 10)) rm_loss))))).
Proof.
  apply (@risk_alerts_warn_before_close_all StaticBroker _ 0
           (demo_broker (11 # 10) (11 # 10)) rm_loss).
  - reflexivity.
  - unfold Qlt; simpl; lia.
Defined.

(** *** What any sequence of calls preserves *)

(** Every state-changing call on a risk manager: the calls of [RiskOp] and
    [get_risk_metrics] (which records peak and drawdown). *)
Inductive RiskCall (B : Type) :=
| CallOp (op : RiskOp B)
| CallMetrics (b : B).

Arguments CallOp {B} op.
Arguments CallMetrics {B} b.

(** The counters agree with the book: every position opened and still open,
    won or lost is counted among the trades; the drawdown figures are
    ordered. *)
Definition books_balance (rm : RiskManager) : Prop :=
  dict_ok ticket (positions rm) /\
  (0 <= winning_trades rm)%Z /\ (0 <= losing_trades rm)%Z /\
  (winning_trades rm + losing_trades rm + len (positions rm)
   <= total_trades rm)%Z /\
  (0 <= daily_trades rm <= total_trades rm)%Z /\
  0 <= current_drawdown rm /\ current_drawdown rm <= max_drawdown rm.

Lemma len_nonneg (A : Type) (l : list A) : (0 <= len l)%Z.
Proof. unfold len. lia. Qed.

Lemma reset_daily_metrics_balance (today : Z) (rm : RiskManager) :
  books_balance rm -> books_balance (reset_daily_metrics today rm).
Proof.
  unfold reset_daily_metrics. destruct (_ <? _)%Z; [|auto].
  unfold books_balance; simpl. pose proof (len_nonneg (positions rm)).
  intuition lia.
Qed.

Section Reachable.
Context {B : Type} `{BaseBroker B}.

Definition run_call (rm : RiskManager) (c : RiskCall B) : RiskManager :=
  match c with
  | CallOp op => fst (run_op rm op)
  | CallMetrics b => fst (fst (get_risk_metrics b rm))
  end.

Definition run_calls (rm : RiskManager) (cs : list (RiskCall B))
  : RiskManager :=
  fold_left run_call cs rm.

Lemma can_open_position_state (today : Z) (b : B) (rm : RiskManager)
    (sym : string) (vol slp : Q) :
  fst (fst (can_open_position today b rm sym vol slp))
  = reset_daily_metrics today rm \/
  fst (fst (can_open_position today b rm sym vol slp))
  = set_max_daily_loss_reached (reset_daily_metrics today rm) true.
Proof.
  unfold can_open_position.
  set (rm0 := reset_daily_metrics today rm).
  destruct (max_daily_loss_reached rm0); [auto|].
  destruct (len (positions rm0) >=? _)%Z; [auto|].
  destruct (get_account_info b) as [b1 ai].
  destruct (negb (pydict_truthy ai)); [auto|].
  destruct (get_symbol_info b1 sym) as [b2 si].
  destruct (negb (pydict_truthy si)); [auto|].
  destruct (Qlt_bool _ _); [auto|].
  destruct (Qle_bool _ _); auto.
Qed.

Lemma run_call_balance (rm : RiskManager) (c : RiskCall B) :
  books_balance rm -> books_balance (run_call rm c).
Proof.
  intros Hb.
  destruct c as [[today b sym vol slp | today b | p | t cp | t | b |] | b];
    cbn [run_call run_op].
  - pose proof (can_open_position_state today b rm sym vol slp) as E.
    destruct (can_open_position today b rm sym vol slp) as [[rm' b'] d].
    cbn [fst] in *. destruct E as [-> | ->].
    + apply reset_daily_metrics_balance. exact Hb.
    + apply (reset_daily_metrics_balance today) in Hb. exact Hb.
  - pose proof (should_close_all_positions_state today b rm) as E.
    destruct (should_close_all_positions today b rm) as [[rm' b'] v].
    cbn [fst] in *. subst rm'. apply reset_daily_metrics_balance. exact Hb.
  - destruct Hb as (Hok & Hw & Hl & Hsum & Hd & Hdd).
    unfold books_balance, add_position; cbn [fst positions winning_trades
      losing_trades total_trades daily_trades current_drawdown max_drawdown].
    pose proof (dict_set_length ticket (positions rm) p).
    split; [apply dict_set_ok; exact Hok|]. repeat split; try lia; tauto.
  - destruct Hb as (Hok & Hw & Hl & Hsum & Hd & Hdd).
    assert (Hf : forall q, ticket (close q cp) = ticket q) by reflexivity.
    unfold books_balance; cbn [fst set_positions positions winning_trades
      losing_trades total_trades daily_trades current_drawdown max_drawdown].
    assert (El : len (dict_mutate ticket (positions rm) t
                        (fun q => close q cp)) = len (positions rm)).
    { unfold len. rewrite <- (length_map ticket),
        (dict_mutate_keys ticket _ _ _ Hf), length_map. reflexivity. }
    rewrite El.
    split; [apply dict_mutate_ok; assumption|]. repeat split; try lia; tauto.
  - cbn [fst]. unfold remove_position.
    destruct (dict_lookup ticket (positions rm) t) as [q|] eqn:El;
      [|exact Hb].
    destruct Hb as (Hok & Hw & Hl & Hsum & Hd & Hdd).
    pose proof (@dict_del_length _ ticket (positions rm) t q El) as Elen.
    unfold books_balance; cbn [positions winning_trades losing_trades
      total_trades daily_trades current_drawdown max_drawdown].
    rewrite Elen.
    split; [apply dict_del_ok; exact Hok|].
    destruct (Qlt_bool 0 (realized_pnl q));
      [|destruct (Qlt_bool (realized_pnl q) 0)];
      repeat split; try lia; tauto.
  - cbn [fst]. unfold update_positions.
    pose proof (update_loop_Forall2 (positions rm) b) as HF.
    destruct (update_loop b (positions rm)) as [b' ps']. cbn [fst snd] in *.
    pose proof (Forall2_length HF) as Elen.
    apply (dict_lookup_Forall2 ticket) in HF; [|tauto].
    destruct HF as [Hkeys _].
    destruct Hb as (Hok & Hw & Hl & Hsum & Hd & Hdd).
    unfold books_balance, dict_ok, len;
      cbn [set_positions positions winning_trades losing_trades
           total_trades daily_trades current_drawdown max_drawdown].
    rewrite Hkeys, <- Elen. unfold len in Hsum.
    split; [exact Hok|]. repeat split; try lia; tauto.
  - unfold apply_trailing_stop.
    destruct (trailing_stop (config rm)); cbn [negb]; [|exact Hb].
    pose proof (trail_loop_Forall2 (config rm) (positions rm)) as HF.
    destruct (trail_loop (config rm) (positions rm)) as [ps' ts].
    cbn [fst snd] in *.
    pose proof (Forall2_length HF) as Elen.
    apply (dict_lookup_Forall2 ticket) in HF;
      [|intros v v' ->; apply trail_position_ticket].
    destruct HF as [Hkeys _].
    destruct Hb as (Hok & Hw & Hl & Hsum & Hd & Hdd).
    unfold books_balance, dict_ok, len;
      cbn [set_positions positions winning_trades losing_trades
           total_trades daily_trades current_drawdown max_drawdown].
    rewrite Hkeys, <- Elen. unfold len in Hsum.
    split; [exact Hok|]. repeat split; try lia; tauto.
  - pose proof (get_risk_metrics_bounds b rm) as (_ & _ & H0 & _ & Hm & _).
    destruct Hb as (Hok & Hw & Hl & Hsum & Hd & Hdd).
    revert H0 Hm. unfold get_risk_metrics.
    destruct (get_account_info b) as [b1 ai]. cbn [fst snd].
    unfold books_balance;
      cbn [positions winning_trades losing_trades total_trades daily_trades
           current_drawdown max_drawdown].
    intros H0 Hm. repeat split; try lia; tauto.
Qed.

Lemma run_calls_balance (cs : list (RiskCall B)) (rm : RiskManager) :
  books_balance rm -> books_balance (run_calls rm cs).
Proof.
  revert rm. induction cs as [|c cs IH]; intros rm Hb; [exact Hb|].
  apply IH. apply run_call_balance. exact Hb.
Qed.

(** Whatever is called on a risk manager after its creation, the counters
    stay consistent with the book (tickets are unique; winning, losing and
    open positions together never exceed the trades counted; the day's
    trades never exceed the total; the current drawdown lies between 0 and
    the maximum drawdown), and the win rate that [get_risk_metrics] reports
    lies between 0 and 1. *)
Theorem reachable_manager_is_consistent (cfg : RiskConfig) (today : Z)
    (cs : list (RiskCall B)) (b : B) :
  let rm := run_calls (init cfg today) cs in
  books_balance rm /\
  0 <= m_win_rate (snd (get_risk_metrics b rm)) <= 1.
Proof.
  intros rm.
  assert (Hb : books_balance rm).
  { apply run_calls_balance. unfold books_balance, init, dict_ok; simpl.
    split; [constructor|].
    repeat split; try lia; unfold Qle, len; simpl; lia. }
  split; [exact Hb|].
  destruct Hb as (_ & Hw & Hl & Hsum & _).
  pose proof (len_nonneg (positions rm)) as Hlen.
  unfold get_risk_metrics. destruct (get_account_info b) as [b1 ai].
  cbn [snd m_win_rate].
  destruct (total_trades rm >? 0)%Z eqn:E;
    [|split; unfold Qle; simpl; lia].
  rewrite Z.gtb_ltb in E. apply Z.ltb_lt in E.
  assert (Ht : inject_Z 0 < inject_Z (total_trades rm))
    by (rewrite <- Zlt_Qlt; exact E).
  split.
  - apply Qle_shift_div_l; [exact Ht|]. rewrite Qmult_0_l.
    change (inject_Z 0 <= inject_Z (winning_trades rm)).
    rewrite <- Zle_Qle. exact Hw.
  - apply Qle_shift_div_r; [exact Ht|]. rewrite Qmult_1_l.
    rewrite <- Zle_Qle. lia.
Qed.
End Reachable.

Lemma update_loop_realized {B : Type} `{BaseBroker B} (ps : list Position)
    (b : B) :
  Forall (fun p => realized_pnl p == 0) ps ->
  Forall (fun p => realized_pnl p == 0) (snd (update_loop b ps)).
Proof.
  revert b. induction ps as [|p ps IH]; intros b Hr; cbn [update_loop];
    [constructor|].
  inversion Hr as [|? ? Hp Hrest]; subst.
  destruct (get_current_price b (symbol p)) as [b1 cp].
  specialize (IH b1 Hrest). destruct (update_loop b1 ps) as [b2 ps'].
  cbn [snd] in *. constructor; [|exact IH].
  destruct (pydict_truthy cp); [exact Hp | exact Hp].
Qed.

Lemma trail_loop_realized (cfg : RiskConfig) (ps : list Position) :
  Forall (fun p => realized_pnl p == 0) ps ->
  Forall (fun p => realized_pnl p == 0) (fst (trail_loop cfg ps)).
Proof.
  induction ps as [|p ps IH]; intros Hr; cbn [trail_loop]; [constructor|].
  inversion Hr as [|? ? Hp Hrest]; subst.
  destruct (trail_position cfg p) as [p' m] eqn:Ep.
  specialize (IH Hrest). destruct (trail_loop cfg ps) as [ps' ts].
  cbn [fst] in *. constructor; [|exact IH].
  assert (E : realized_pnl p' = realized_pnl p).
  { revert Ep. unfold trail_position. destruct (sl p); [|intros [= <- _]; auto].
    destruct (OrderType_eqb (order_type p) BUY);
      destruct (Qlt_bool _ _); intros [= <- _]; reflexivity. }
  rewrite E. exact Hp.
Qed.

(** *** The breaker and positions that are never closed through
    [Position.close] *)

Section NeverClosed.
Context {B : Type} `{BaseBroker B}.

(** A call of a run in which positions are tracked as built by the
    constructor (realized P&L 0) and retired without [Position.close], and
    in which every admission request sees a positive daily-loss limit. *)
Definition no_realized_pnl (cfg : RiskConfig) (op : RiskOp B) : Prop :=
  match op with
  | OpAddPosition p => realized_pnl p == 0
  | OpClosePosition _ _ => False
  | OpCanOpen _ b _ _ _ => 0 < balance_of b * max_daily_loss cfg
  | _ => True
  end.

Definition is_daily_loss_refusal (d : bool * string) : Prop :=
  snd d = "Daily loss limit reached"%string \/
  snd d = "Daily loss limit would be exceeded"%string.

(** The state such a run keeps: configuration in place, breaker open, no
    realized P&L anywhere. *)
Definition nothing_realized (cfg : RiskConfig) (rm : RiskManager) : Prop :=
  config rm = cfg /\ max_daily_loss_reached rm = false /\
  daily_pnl rm == 0 /\
  Forall (fun p => realized_pnl p == 0) (positions rm).

Lemma reset_daily_metrics_nothing_realized (cfg : RiskConfig) (today : Z)
    (rm : RiskManager) :
  nothing_realized cfg rm -> nothing_realized cfg (reset_daily_metrics today rm).
Proof.
  unfold reset_daily_metrics. destruct (_ <? _)%Z; [|auto].
  unfold nothing_realized; simpl. intros (Hc & _ & _ & Hr).
  repeat split; auto.
Qed.

Lemma can_open_position_nothing_realized (cfg : RiskConfig) (today : Z)
    (b : B) (rm : RiskManager) (sym : string) (vol slp : Q) :
  nothing_realized cfg rm ->
  0 < balance_of b * max_daily_loss cfg ->
  nothing_realized cfg (fst (fst (can_open_position today b rm sym vol slp)))
  /\ ~ is_daily_loss_refusal (snd (can_open_position today b rm sym vol slp)).
Proof.
  intros Hn Hlim.
  apply (reset_daily_metrics_nothing_realized today) in Hn.
  revert Hlim. unfold can_open_position, balance_of, is_daily_loss_refusal.
  set (rm0 := reset_daily_metrics today rm) in *.
  destruct Hn as (Hc & Hl & Hp & Hr). rewrite Hl. intros Hlim.
  assert (Hn : nothing_realized cfg rm0) by (unfold nothing_realized; auto).
  destruct (len (positions rm0) >=? _)%Z;
    [split; [exact Hn | cbn [snd]; intros [C | C]; discriminate C]|].
  destruct (get_account_info b) as [b1 ai]. cbn [snd] in Hlim.
  destruct (negb (pydict_truthy ai));
    [split; [exact Hn | cbn [snd]; intros [C | C]; discriminate C]|].
  destruct (get_symbol_info b1 sym) as [b2 si].
  destruct (negb (pydict_truthy si));
    [split; [exact Hn | cbn [snd]; intros [C | C]; discriminate C]|].
  destruct (Qlt_bool _ _);
    [split; [exact Hn | cbn [snd]; intros [C | C]; inversion C]|].
  assert (E : Qle_bool (pydict_get ai "balance" 0 * max_daily_loss (config rm0))
                       (Qabs (daily_pnl rm0)) = false).
  { apply Qle_bool_false_iff. rewrite Hc, Hp. exact Hlim. }
  rewrite E. split; [exact Hn | cbn [snd]; intros [C | C]; discriminate C].
Qed.

Lemma run_op_nothing_realized (cfg : RiskConfig) (rm : RiskManager)
    (op : RiskOp B) :
  nothing_realized cfg rm ->
  no_realized_pnl cfg op ->
  nothing_realized cfg (fst (run_op rm op)) /\
  (forall d, snd (run_op rm op) = OutDecision d -> ~ is_daily_loss_refusal d).
Proof.
  intros Hn Hop.
  destruct op as [today b sym vol slp | today b | p | t cp | t | b |];
    cbn [run_op no_realized_pnl] in *.
  - destruct (@can_open_position_nothing_realized cfg today b rm sym vol slp
                Hn Hop) as [H1 H2].
    destruct (can_open_position today b rm sym vol slp) as [[rm' b'] d].
    cbn [fst snd] in *. split; [exact H1|]. intros d' [= <-]. exact H2.
  - pose proof (should_close_all_positions_state today b rm) as E.
    destruct (should_close_all_positions today b rm) as [[rm' b'] v].
    cbn [fst snd] in *. subst rm'.
    split; [apply reset_daily_metrics_nothing_realized; exact Hn|discriminate].
  - cbn [fst snd]. split; [|discriminate].
    destruct Hn as (Hc & Hl & Hp & Hr).
    unfold nothing_realized, add_position;
      cbn [config max_daily_loss_reached daily_pnl positions].
    repeat split; auto.
    apply Forall_forall. intros x Hx. apply dict_set_In in Hx.
    destruct Hx as [-> | Hx]; [exact Hop|].
    rewrite Forall_forall in Hr. auto.
  - contradiction.
  - cbn [fst snd]. split; [|discriminate]. unfold remove_position.
    destruct (dict_lookup ticket (positions rm) t) as [q|] eqn:El;
      [|exact Hn].
    destruct Hn as (Hc & Hl & Hp & Hr).
    unfold nothing_realized;
      cbn [config max_daily_loss_reached daily_pnl positions].
    rewrite Forall_forall in Hr.
    repeat split; auto.
    + apply dict_lookup_In in El. destruct El as [Hq _].
      rewrite Hp, (Hr q Hq). reflexivity.
    + apply Forall_forall. intros x Hx. apply dict_del_In in Hx. auto.
  - cbn [fst snd]. split; [|discriminate]. unfold update_positions.
    pose proof (@update_loop_realized B _ (positions rm) b) as HF.
    destruct (update_loop b (positions rm)) as [b' ps']. cbn [fst snd] in *.
    destruct Hn as (Hc & Hl & Hp & Hr).
    unfold nothing_realized;
      cbn [set_positions config max_daily_loss_reached daily_pnl positions].
    repeat split; auto.
  - unfold apply_trailing_stop.
    destruct (trailing_stop (config rm)); cbn [negb];
      [|split; [exact Hn | discriminate]].
    pose proof (@trail_loop_realized (config rm) (positions rm)) as HF.
    destruct (trail_loop (config rm) (positions rm)) as [ps' ts].
    cbn [fst snd] in *. split; [|discriminate].
    destruct Hn as (Hc & Hl & Hp & Hr).
    unfold nothing_realized;
      cbn [set_positions config max_daily_loss_reached daily_pnl positions].
    repeat split; auto.
Qed.

Lemma run_ops_nothing_realized (cfg : RiskConfig) (ops : list (RiskOp B)) :
  forall rm,
  nothing_realized cfg rm ->
  Forall (no_realized_pnl cfg) ops ->
  nothing_realized cfg (fst (run_ops rm ops)) /\
  Forall (fun d => ~ is_daily_loss_refusal d)
         (decisions (snd (run_ops rm ops))).
Proof.
  induction ops as [|op ops IH]; intros rm Hn Hops; cbn [run_ops].
  - split; [exact Hn | constructor].
  - inversion Hops as [|? ? Hop Hrest]; subst.
    destruct (@run_op_nothing_realized cfg rm op Hn Hop) as [Hn' Hd].
    destruct (run_op rm op) as [rm' out]. cbn [fst snd] in *.
    destruct (IH rm' Hn' Hrest) as [Hn'' Hds].
    destruct (run_ops rm' ops) as [rm'' outs]. cbn [fst snd] in *.
    split; [exact Hn''|].
    destruct out; cbn [decisions]; try exact Hds.
    constructor; [apply Hd; reflexivity | exact Hds].
Qed.

(** The daily loss only ever comes from [Position.close]: in any run that
    starts from a new manager, tracks positions as the constructor builds
    them and never calls [Position.close] before retiring them, the day's
    realized P&L stays 0; so, with a positive daily-loss limit at every
    admission request, the breaker is never latched and no request is
    refused for the daily loss. *)
Theorem breaker_needs_position_close (cfg : RiskConfig) (today : Z)
    (ops : list (RiskOp B)) :
  Forall (no_realized_pnl cfg) ops ->
  let result := run_ops (init cfg today) ops in
  daily_pnl (fst result) == 0 /\
  max_daily_loss_reached (fst result) = false /\
  Forall (fun d => ~ is_daily_loss_refusal d) (decisions (snd result)).
Proof.
  intros Hops result.
  assert (Hn : nothing_realized cfg (init cfg today)).
  { unfold nothing_realized, init; simpl. repeat split; auto. }
  destruct (@run_ops_nothing_realized cfg ops (init cfg today) Hn Hops)
    as [(_ & Hl & Hp & _) Hd].
  auto.
Qed.
End NeverClosed.

(** A stopped-out long, retired the way the trading loop does it. *)
Lemma breaker_needs_position_close_witness :
  let result :=
    run_ops (init default_config 0)
      [OpAddPosition (new_position 0 1 "EURUSD" BUY 100 (11 # 10)
                        (Some (1095 # 1000)) None None);
       OpUpdatePositions (demo_broker (1 # 2) (1 # 2));
       OpRemovePosition 1;
       OpCanOpen 0 (demo_broker (1 # 2) (1 # 2)) "EURUSD" (1 # 100) 50] in
  daily_pnl (fst result) == 0 /\
  max_daily_loss_reached (fst result) = false /\
  Forall (fun d => ~ is_daily_loss_refusal d) (decisions (snd result)).
Proof.
  apply (@breaker_needs_position_close StaticBroker _ default_config 0).
  repeat constructor; simpl; reflexivity.
Defined.

(** *** Tracking and retiring *)

(** Tracking a position under a ticket not yet in the book and retiring it
    right away restores the book, folds the position's realized P&L into the
    day's P&L, and leaves the trade counted. *)
Theorem add_then_remove_position (rm : RiskManager) (p : Position) :
  dict_lookup ticket (positions rm) (ticket p) = None ->
  let rm' := remove_position (add_position rm p) (ticket p) in
  positions rm' = positions rm /\
  daily_pnl rm' = daily_pnl rm + realized_pnl p /\
  daily_trades rm' = (daily_trades rm + 1)%Z /\
  total_trades rm' = (total_trades rm + 1)%Z.
Proof.
  intros Hn rm'. unfold rm', remove_position.
  cbn [add_position positions].
  rewrite dict_set_lookup_same.
  cbn [positions daily_pnl daily_trades total_trades].
  rewrite (@dict_set_fresh _ ticket (positions rm) p Hn),
    (@dict_del_app_fresh _ ticket (positions rm) p Hn).
  auto.
Qed.

Lemma add_then_remove_position_witness :
  let rm' := remove_position (add_position rm_trailing
                                (eurusd 9 SELL None (-12))) 9 in
  positions rm' = positions rm_trailing /\
  daily_pnl rm' = daily_pnl rm_trailing + (-12) /\
  daily_trades rm' = (daily_trades rm_trailing + 1)%Z /\
  total_trades rm' = (total_trades rm_trailing + 1)%Z.
Proof.
  apply (@add_then_remove_position rm_trailing (eurusd 9 SELL None (-12))).
  reflexivity.
Defined.

(** *** Trailing stops and stop checks *)

Lemma check_stop_losses_loop_In (ps : list Position) (t : Z) :
  In t (check_stop_losses_loop ps) ->
  exists p s, In p ps /\ ticket p = t /\ sl p = Some s /\
    ((order_type p = BUY /\ current_price p <= s) \/
     (order_type p = SELL /\ s <= current_price p)).
Proof.
  induction ps as [|p ps IH]; cbn [check_stop_losses_loop]; [intros []|].
  assert (Hrest : In t (check_stop_losses_loop ps) ->
                  exists q s, In q (p :: ps) /\ ticket q = t /\
                    sl q = Some s /\
                    ((order_type q = BUY /\ current_price q <= s) \/
                     (order_type q = SELL /\ s <= current_price q))).
  { intros Hin. destruct (IH Hin) as (q & s & Hq & Hrest).
    exists q, s. split; [right; exact Hq | exact Hrest]. }
  destruct (sl p) as [s|] eqn:Es; [|exact Hrest].
  destruct (OrderType_eqb (order_type p) BUY && Qle_bool (current_price p) s)
    eqn:E1.
  - intros [<- | Hin]; [|auto].
    apply andb_true_iff in E1. destruct E1 as [Eo Ep].
    apply OrderType_eqb_eq in Eo. apply Qle_bool_iff in Ep.
    exists p, s. split; [left; reflexivity|]. auto.
  - destruct (OrderType_eqb (order_type p) SELL
              && Qle_bool s (current_price p)) eqn:E2; [|exact Hrest].
    intros [<- | Hin]; [|auto].
    apply andb_true_iff in E2. destruct E2 as [Eo Ep].
    apply OrderType_eqb_eq in Eo. apply Qle_bool_iff in Ep.
    exists p, s. split; [left; reflexivity|]. auto.
Qed.

(** 0.0001 as a float. *)
Lemma pip_size_positive : 0 < double (1 # 10000).
Proof. vm_compute. reflexivity. Qed.

(** With a trailing distance that is not negative and current prices that
    are doubles, a stop that [apply_trailing_stop] has just moved never lies
    beyond the current price (at most the price for a BUY, at least the
    price otherwise); so [check_stop_losses] reports its ticket on the
    resulting book only when the new stop equals the price, the distance
    having been absorbed by the rounding of the difference. *)
Theorem trailed_stop_hit_only_at_price (rm : RiskManager) (t : Z) :
  dict_ok ticket (positions rm) ->
  0 <= trailing_stop_pips (config rm) ->
  Forall (fun p => is_double (current_price p)) (positions rm) ->
  In t (snd (apply_trailing_stop rm)) ->
  exists p s,
    dict_lookup ticket (positions (fst (apply_trailing_stop rm))) t = Some p /\
    sl p = Some s /\
    (order_type p = BUY -> s <= current_price p) /\
    (order_type p <> BUY -> current_price p <= s) /\
    (In t (check_stop_losses (fst (apply_trailing_stop rm))) ->
     s == current_price p).
Proof.
  intros Hok Hd Hdbl. unfold apply_trailing_stop, check_stop_losses.
  destruct (trailing_stop (config rm)); cbn [negb]; [|intros []].
  pose proof (trail_loop_Forall2 (config rm) (positions rm)) as HF.
  pose proof (trail_loop_tickets (config rm) (positions rm) t) as HT.
  destruct (trail_loop (config rm) (positions rm)) as [ps' ts].
  cbn [fst snd set_positions positions] in *.
  intros Hin.
  apply HT in Hin. destruct Hin as (p & Hp & Htp & Hm).
  pose proof (@dict_In_lookup _ ticket (positions rm) p Hok Hp) as Hl.
  apply (dict_lookup_Forall2 ticket) in HF;
    [|intros v v' ->; apply trail_position_ticket].
  destruct HF as [Hkeys Hlook].
  destruct (Hlook _ _ Hl) as (p' & Hl' & Ep').
  assert (Hok' : dict_ok ticket ps')
    by (unfold dict_ok; rewrite Hkeys; exact Hok).
  assert (Hprice : is_double (current_price p))
    by (rewrite Forall_forall in Hdbl; apply Hdbl; exact Hp).
  set (step := fmul (trailing_stop_pips (config rm)) (double (1 # 10000))).
  assert (Hstep : 0 <= step).
  { apply (proj1 (double_sign _)).
    apply Qmult_le_0_compat; [exact Hd|].
    apply Qlt_le_weak, pip_size_positive. }
  assert (Hbelow : fsub (current_price p) step <= current_price p)
    by (apply (@double_le (current_price p) _ Hprice); lra).
  assert (Habove : current_price p <= fadd (current_price p) step)
    by (apply (@double_ge (current_price p) _ Hprice); lra).
  assert (Hshape :
            exists s, sl p' = Some s /\ current_price p' = current_price p /\
                      order_type p' = order_type p /\
                      (order_type p = BUY -> s <= current_price p) /\
                      (order_type p <> BUY -> current_price p <= s)).
  { subst p'. revert Hm. unfold trail_position. fold step.
    destruct (sl p) as [s0|]; [|discriminate].
    destruct (OrderType_eqb (order_type p) BUY) eqn:Eo.
    - apply OrderType_eqb_eq in Eo.
      destruct (Qlt_bool s0 _); [|discriminate]. intros _.
      exists (fsub (current_price p) step).
      cbn [fst set_sl sl order_type current_price].
      repeat split; [intros _; exact Hbelow | intros C; contradiction].
    - assert (No : order_type p <> BUY).
      { intros C. apply OrderType_eqb_eq in C. congruence. }
      destruct (Qlt_bool _ s0); [|discriminate]. intros _.
      exists (fadd (current_price p) step).
      cbn [fst set_sl sl order_type current_price].
      repeat split; [intros C; contradiction | intros _; exact Habove]. }
  destruct Hshape as (s & Hs & Hcp & Hot & Hbuy & Hother).
  exists p', s. rewrite <- Htp.
  split; [exact Hl'|]. split; [exact Hs|].
  rewrite Hcp, Hot. split; [exact Hbuy|]. split; [exact Hother|].
  intros Hstop. rewrite Htp in Hstop.
  apply check_stop_losses_loop_In in Hstop.
  destruct Hstop as (q & s' & Hq & Htq & Hs' & Hhit).
  apply (@dict_In_lookup _ ticket ps' q Hok') in Hq.
  rewrite Htq, <- Htp, Hl' in Hq. injection Hq as <-.
  rewrite Hs in Hs'. injection Hs' as <-. rewrite Hcp, Hot in Hhit.
  destruct Hhit as [[Ho Hle] | [Ho Hle]].
  - apply Qle_antisym; [apply Hbuy; exact Ho | exact Hle].
  - apply Qle_antisym; [exact Hle | apply Hother; congruence].
Qed.

(** A long position at 1.1 with its stop at 1.0, trailing enabled at the
    distance 1e-13 pips. *)
Definition rm_absorbed : RiskManager :=
  add_position
    (init (mk_config (2 # 100) (5 # 100) 5 50 100 true
                     (double (1 # 10 ^ 13))) 0)
    (mk_position 1 "EURUSD" BUY (1 # 10) (double (11 # 10))
                 (Some 1) None 0 (double (11 # 10)) 0 0).

(** The distance is lost in the subtraction: the stop is moved onto the
    price and reported as hit at once. *)
Example trailed_stop_absorbed :
  snd (apply_trailing_stop rm_absorbed) = [1%Z] /\
  check_stop_losses (fst (apply_trailing_stop rm_absorbed)) = [1%Z].
Proof. vm_compute. split; reflexivity. Qed.

Lemma trailed_stop_hit_only_at_price_witness :
  exists p s,
    dict_lookup ticket (positions (fst (apply_trailing_stop rm_absorbed))) 1
    = Some p /\
    sl p = Some s /\
    (order_type p = BUY -> s <= current_price p) /\
    (order_type p <> BUY -> current_price p <= s) /\
    (In 1%Z (check_stop_losses (fst (apply_trailing_stop rm_absorbed))) ->
     s == current_price p).
Proof.
  apply (@trailed_stop_hit_only_at_price rm_absorbed 1).
  - unfold dict_ok; simpl.
    repeat constructor; simpl; intuition discriminate.
  - vm_compute. discriminate.
  - apply Forall_cons; [|apply Forall_nil]. vm_compute. reflexivity.
  - vm_compute. left. reflexivity.
Defined.

End Risk.

(** ** Profit-taking rule engine ([profit_monitor.py]) *)

Module Profit.

Local Open Scope Q_scope.

Record ProfitTakingRule := mk_rule {
  name : string;
  enabled : bool;
  time_interval_minutes : Z;
  min_profit_pips : Q;
  profit_percentage : Q;
  max_trades_per_interval : Z;
  session_filter : option SessionType;
  symbol_filter : option string;
  last_execution : option Z
}.

Record ActivePosition := mk_active {
  ticket : Z;
  symbol : string;
  order_type : string;
  volume : Q;
  open_price : Q;
  open_time : Z;
  current_profit : Q;
  current_profit_pips : Q;
  session : SessionType;
  strategy : string
}.

Definition set_enabled (r : ProfitTakingRule) (v : bool) : ProfitTakingRule :=
  mk_rule (name r) v (time_interval_minutes r) (min_profit_pips r)
    (profit_percentage r) (max_trades_per_interval r) (session_filter r)
    (symbol_filter r) (last_execution r).

Definition set_last_execution (r : ProfitTakingRule) (t : Z)
  : ProfitTakingRule :=
  mk_rule (name r) (enabled r) (time_interval_minutes r) (min_profit_pips r)
    (profit_percentage r) (max_trades_per_interval r) (session_filter r)
    (symbol_filter r) (Some t).

Definition set_volume (p : ActivePosition) (v : Q) : ActivePosition :=
  mk_active (ticket p) (symbol p) (order_type p) v (open_price p)
    (open_time p) (current_profit p) (current_profit_pips p) (session p)
    (strategy p).

(** The rule engine of [ProfitMonitor]: its rule list, the positions it
    tracks (a [dict] keyed by ticket) and the broker reference, [None] until
    [set_broker].  The rules of the list are distinct objects (every caller
    in the repository adds freshly built rules), so the list holds them by
    value. *)
Record ProfitMonitor (B : Type) := mk_monitor {
  profit_taking_rules : list ProfitTakingRule;
  active_positions : list ActivePosition;
  broker : option B
}.

Arguments mk_monitor {B} _ _ _.
Arguments profit_taking_rules {B} _.
Arguments active_positions {B} _.
Arguments broker {B} _.

(** [_initialize_default_profit_taking_rules] *)
Definition default_rules : list ProfitTakingRule :=
  [mk_rule "Scalping Quick Profit" true 15 10 (5 # 10) 3 None None None;
   mk_rule "Medium Term Profit" true 60 20 (7 # 10) 5 None None None;
   mk_rule "Session End Profit" true 240 30 (8 # 10) 10 None None None;
   mk_rule "Asian Session Profit" true 120 15 (6 # 10) 3 (Some ASIAN) None
           None;
   mk_rule "London Session Profit" true 90 25 (7 # 10) 5 (Some LONDON) None
           None].

(** [ProfitMonitor.__init__], rule-engine part. *)
Definition init (B : Type) : ProfitMonitor B :=
  mk_monitor default_rules [] None.

Section Engine.
Context {B : Type} `{BaseBroker B}.

Definition set_broker (m : ProfitMonitor B) (b : B) : ProfitMonitor B :=
  mk_monitor (profit_taking_rules m) (active_positions m) (Some b).

(** [add_profit_taking_rule] *)
Definition add_profit_taking_rule (m : ProfitMonitor B)
    (rule : ProfitTakingRule) : ProfitMonitor B :=
  mk_monitor (profit_taking_rules m ++ [rule]) (active_positions m) (broker m).

(** [remove_profit_taking_rule] *)
Definition remove_profit_taking_rule (m : ProfitMonitor B) (rule_name : string)
  : ProfitMonitor B :=
  mk_monitor
    (filter (fun r => negb (String.eqb (name r) rule_name))
            (profit_taking_rules m))
    (active_positions m) (broker m).

(** The loop of [enable_profit_taking_rule] and [disable_profit_taking_rule]:
    the first rule of that name is updated, then [break]. *)
Fixpoint set_first_enabled (rules : list ProfitTakingRule)
    (rule_name : string) (v : bool) : list ProfitTakingRule :=
  match rules with
  | [] => []
  | r :: rest =>
      if String.eqb (name r) rule_name then set_enabled r v :: rest
      else r :: set_first_enabled rest rule_name v
  end.

Definition enable_profit_taking_rule (m : ProfitMonitor B)
    (rule_name : string) : ProfitMonitor B :=
  mk_monitor (set_first_enabled (profit_taking_rules m) rule_name true)
             (active_positions m) (broker m).

Definition disable_profit_taking_rule (m : ProfitMonitor B)
    (rule_name : string) : ProfitMonitor B :=
  mk_monitor (set_first_enabled (profit_taking_rules m) rule_name false)
             (active_positions m) (broker m).

(** [add_active_position] *)
Definition add_active_position (m : ProfitMonitor B) (p : ActivePosition)
  : ProfitMonitor B :=
  mk_monitor (profit_taking_rules m) (dict_set ticket (active_positions m) p)
             (broker m).

(** [remove_active_position], on the dictionary. *)
Definition remove_active (book : list ActivePosition) (t : Z)
  : list ActivePosition :=
  dict_del ticket book t.

Definition remove_active_position (m : ProfitMonitor B) (t : Z)
  : ProfitMonitor B :=
  mk_monitor (profit_taking_rules m) (remove_active (active_positions m) t)
             (broker m).

(** [update_position_profit] *)
Definition update_position_profit (m : ProfitMonitor B) (t : Z)
    (current_price profit_pips : Q) : ProfitMonitor B :=
  mk_monitor (profit_taking_rules m)
    (dict_mutate ticket (active_positions m) t
       (fun p =>
          mk_active (ticket p) (symbol p) (order_type p) (volume p)
            (open_price p) (open_time p)
            (if String.eqb (order_type p) "BUY"
             then (current_price - open_price p) * volume p
             else (open_price p - current_price) * volume p)
            profit_pips (session p) (strategy p)))
    (broker m).

(** [if rule.last_execution: ... total_seconds() < interval * 60: continue]
    (instants and differences in microseconds). *)
Definition rule_due (rule : ProfitTakingRule) (now : Z) : bool :=
  match last_execution rule with
  | Some last =>
      negb (now - last <? time_interval_minutes rule * 60 * 1000000)%Z
  | None => true
  end.

(** Truth value of [rule.symbol_filter]: [None] and the empty string are
    false.  (A [SessionType] is a non-empty string: [rule.session_filter] is
    false only when it is [None].) *)
Definition symbol_filter_set (rule : ProfitTakingRule) : option string :=
  match symbol_filter rule with
  | Some s => if String.eqb s "" then None else Some s
  | None => None
  end.

(** The three tests of the loop body of [_get_matching_positions]. *)
Definition rule_matches (rule : ProfitTakingRule) (p : ActivePosition)
  : bool :=
  match session_filter rule with
  | Some s => SessionType_eqb (session p) s
  | None => true
  end
  && match symbol_filter_set rule with
     | Some s => String.eqb (symbol p) s
     | None => true
     end
  && Qlt_bool 0 (current_profit_pips p).

(** [_get_matching_positions]: the matching positions, in the order of the
    dictionary. *)
Definition _get_matching_positions (book : list ActivePosition)
    (rule : ProfitTakingRule) : list ActivePosition :=
  filter (rule_matches rule) book.

(** [list.sort(key=lambda p: p.current_profit_pips, reverse=True)]: the
    stable sort into descending key order (elements with equal keys keep
    their relative order). *)
Fixpoint insert_desc (p : ActivePosition) (l : list ActivePosition)
  : list ActivePosition :=
  match l with
  | [] => [p]
  | q :: l' =>
      if Qlt_bool (current_profit_pips p) (current_profit_pips q)
      then q :: insert_desc p l'
      else p :: q :: l'
  end.

Fixpoint sort_by_profit (l : list ActivePosition) : list ActivePosition :=
  match l with
  | [] => []
  | p :: l' => insert_desc p (sort_by_profit l')
  end.

(** The ordered candidate list of a rule. *)
Definition candidates (book : list ActivePosition) (rule : ProfitTakingRule)
  : list ActivePosition :=
  sort_by_profit (_get_matching_positions book rule).

(** [_execute_profit_taking]: the book and the broker after the call, and
    the boolean returned.  [position] is the tracked object itself: its
    mutation is the mutation of the entry of the book. *)
Definition _execute_profit_taking (book : list ActivePosition) (b : B)
    (position : ActivePosition) (rule : ProfitTakingRule)
  : list ActivePosition * B * bool :=
  let close_volume := fmul (volume position) (profit_percentage rule) in
  let (b, current_price) := get_mid_price b (symbol position) in
  match current_price with
  | None => (book, b, false)
  | Some current_price =>
      if Qeq_bool current_price 0 then (book, b, false)
      else
        let (b, closed) :=
          close_order_partial b (ticket position) close_volume in
        if closed then
          let book :=
            dict_mutate ticket book (ticket position)
              (fun p => set_volume p (fsub (volume p) close_volume)) in
          if Qle_bool (fsub (volume position) close_volume)
                      (double (1 # 100))
          then (remove_active book (ticket position), b, true)
          else (book, b, true)
        else (book, b, false)
  end.

(** The loop over the sorted candidates of one rule: the book, the broker,
    the tickets closed and [closed_count] when it ends. *)
Fixpoint take_profits (rule : ProfitTakingRule)
    (matching_positions : list ActivePosition) (closed_count : Z)
    (book : list ActivePosition) (b : B)
  : list ActivePosition * B * list Z * Z :=
  match matching_positions with
  | [] => (book, b, [], closed_count)
  | position :: rest =>
      if (closed_count >=? max_trades_per_interval rule)%Z
      then (book, b, [], closed_count)
      else if Qle_bool (min_profit_pips rule) (current_profit_pips position)
      then
        let '(book, b, ok) := _execute_profit_taking book b position rule in
        if ok then
          let '(book, b, closed, n) :=
            take_profits rule rest (closed_count + 1) book b in
          (book, b, ticket position :: closed, n)
        else take_profits rule rest closed_count book b
      else take_profits rule rest closed_count book b
  end.

(** The body of the loop over the rules in [check_profit_taking]: the rule,
    the book and the broker after it, and the tickets it closed. *)
Definition run_rule (now : Z) (rule : ProfitTakingRule)
    (book : list ActivePosition) (b : B)
  : ProfitTakingRule * list ActivePosition * B * list Z :=
  if negb (enabled rule) then (rule, book, b, [])
  else if negb (rule_due rule now) then (rule, book, b, [])
  else
    match _get_matching_positions book rule with
    | [] => (rule, book, b, [])
    | matching_positions =>
        let '(book, b, closed, closed_count) :=
          take_profits rule (sort_by_profit matching_positions) 0 book b in
        (if (closed_count >? 0)%Z then set_last_execution rule now else rule,
         book, b, closed)
    end.

Fixpoint check_rules (now : Z) (rules : list ProfitTakingRule)
    (book : list ActivePosition) (b : B)
  : list ProfitTakingRule * list ActivePosition * B * list (list Z) :=
  match rules with
  | [] => ([], book, b, [])
  | rule :: rest =>
      let '(rule', book, b, closed) := run_rule now rule book b in
      let '(rest', book, b, closed_rest) := check_rules now rest book b in
      (rule' :: rest', book, b, closed :: closed_rest)
  end.

(** [check_profit_taking], keeping apart the tickets closed by each rule
    (one list per rule, in the order of the rule list).  [clock] is what
    [datetime.now()] reads when no time is supplied. *)
Definition check_profit_taking_by_rule (clock : Z) (m : ProfitMonitor B)
    (current_time : option Z) : ProfitMonitor B * list (list Z) :=
  match broker m, active_positions m with
  | None, _ | _, [] => (m, map (fun _ => []) (profit_taking_rules m))
  | Some b, _ :: _ =>
      let current_time := match current_time with
                          | None => clock
                          | Some t => t
                          end in
      let '(rules, book, b, closed) :=
        check_rules current_time (profit_taking_rules m)
                    (active_positions m) b in
      (mk_monitor rules book (Some b), closed)
  end.

(** [check_profit_taking]: the monitor after the call and [closed_tickets]. *)
Definition check_profit_taking (clock : Z) (m : ProfitMonitor B)
    (current_time : option Z) : ProfitMonitor B * list Z :=
  let (m', closed) := check_profit_taking_by_rule clock m current_time in
  (m', List.concat closed).

End Engine.

(** *** Candidate order *)

(** Descending profit: [p] may stand before [q]. *)
Definition desc (p q : ActivePosition) : Prop :=
  current_profit_pips q <= current_profit_pips p.

(** The positions whose profit in pips equals [k]. *)
Definition tie (k : Q) (p : ActivePosition) : bool :=
  Qeq_bool (current_profit_pips p) k.

Lemma insert_desc_perm (p : ActivePosition) (l : list ActivePosition) :
  Permutation (p :: l) (insert_desc p l).
Proof.
  induction l as [|q l IH]; simpl; [reflexivity|].
  destruct (Qlt_bool _ _); [|reflexivity].
  rewrite perm_swap. constructor. exact IH.
Qed.

Lemma sort_by_profit_perm (l : list ActivePosition) :
  Permutation l (sort_by_profit l).
Proof.
  induction l as [|p l IH]; simpl; [constructor|].
  rewrite <- insert_desc_perm. constructor. exact IH.
Qed.

Lemma insert_desc_sorted (p : ActivePosition) (l : list ActivePosition) :
  StronglySorted desc l -> StronglySorted desc (insert_desc p l).
Proof.
  induction l as [|q l IH]; simpl; intros Hs.
  - repeat constructor.
  - inversion Hs as [|? ? Hl Hq]; subst.
    destruct (Qlt_bool _ _) eqn:E.
    + apply Qlt_bool_iff in E. constructor; [auto|].
      apply (Permutation_Forall (insert_desc_perm p l)).
      constructor; [|exact Hq]. unfold desc. apply Qlt_le_weak. exact E.
    + apply Qlt_bool_false_iff in E. constructor; [exact Hs|].
      constructor; [exact E|].
      eapply Forall_impl; [|exact Hq].
      intros x Hx. unfold desc in *. eapply Qle_trans; eauto.
Qed.

Lemma sort_by_profit_sorted (l : list ActivePosition) :
  StronglySorted desc (sort_by_profit l).
Proof.
  induction l as [|p l IH]; simpl; [constructor|].
  apply insert_desc_sorted. exact IH.
Qed.

Lemma insert_desc_stable (k : Q) (p : ActivePosition)
    (l : list ActivePosition) :
  filter (tie k) (insert_desc p l) = filter (tie k) (p :: l).
Proof.
  induction l as [|q l IH]; simpl; [reflexivity|].
  destruct (Qlt_bool _ _) eqn:E; [|reflexivity].
  simpl. rewrite IH. simpl.
  destruct (tie k q) eqn:Tq; [|reflexivity].
  destruct (tie k p) eqn:Tp; [|reflexivity].
  exfalso. unfold tie in *.
  apply Qeq_bool_iff in Tq, Tp. apply Qlt_bool_iff in E.
  rewrite Tq, Tp in E. exact (Qlt_irrefl _ E).
Qed.

Lemma sort_by_profit_stable (k : Q) (l : list ActivePosition) :
  filter (tie k) (sort_by_profit l) = filter (tie k) l.
Proof.
  induction l as [|p l IH]; simpl; [reflexivity|].
  rewrite insert_desc_stable. simpl. rewrite IH. reflexivity.
Qed.

(** C5 (amended).  The candidate list of a rule is a function of the tracked
    positions and the rule: it holds exactly the matching positions, in
    descending order of profit in pips, and positions with equal profit keep
    the order in which the book tracks them (the sort is stable; the ticket
    plays no part). *)
Theorem candidates_order (book : list ActivePosition)
    (rule : ProfitTakingRule) :
  Permutation (filter (rule_matches rule) book) (candidates book rule) /\
  StronglySorted desc (candidates book rule) /\
  (forall k, filter (tie k) (candidates book rule)
             = filter (tie k) (filter (rule_matches rule) book)).
Proof.
  unfold candidates, _get_matching_positions. split; [|split].
  - apply sort_by_profit_perm.
  - apply sort_by_profit_sorted.
  - intros k. apply sort_by_profit_stable.
Qed.

(** The order the specification describes: profit descending, ticket
    ascending among equal profits. *)
Definition profit_then_ticket (p q : ActivePosition) : Prop :=
  current_profit_pips q < current_profit_pips p \/
  (current_profit_pips p == current_profit_pips q /\ (ticket p < ticket q)%Z).

Definition tracked (t : Z) (sym : string) (vol pips : Q) : ActivePosition :=
  mk_active t sym "BUY" vol (11 # 10) 0 (pips * vol) pips LONDON "breakout".

(** C5, as stated, fails: two positions with the same profit, tracked in the
    order 2, 1, are candidates in that order. *)
Lemma candidates_ties_keep_tracking_order :
  ~ (forall (book : list ActivePosition) (rule : ProfitTakingRule),
       dict_ok ticket book ->
       StronglySorted profit_then_ticket (candidates book rule)).
Proof.
  intros C.
  specialize (C [tracked 2 "EURUSD" (1 # 10) 20; tracked 1 "GBPUSD" (1 # 10) 20]
                (mk_rule "Scalping Quick Profit" true 15 10 (5 # 10) 3
                         None None None)).
  assert (Hok : dict_ok ticket
                  [tracked 2 "EURUSD" (1 # 10) 20;
                   tracked 1 "GBPUSD" (1 # 10) 20]).
  { unfold dict_ok; simpl. repeat constructor; simpl; intuition discriminate. }
  specialize (C Hok). vm_compute in C.
  inversion C as [|? ? _ Hall]; subst.
  inversion Hall as [|? ? Hhead _]; subst.
  destruct Hhead as [Hlt | [_ Hlt]]; vm_compute in Hlt; discriminate Hlt.
Qed.

(** *** Adding rules *)

Lemma add_profit_taking_rule_appends {B : Type} (m : ProfitMonitor B)
    (rule : ProfitTakingRule) :
  profit_taking_rules (add_profit_taking_rule m rule)
  = profit_taking_rules m ++ [rule].
Proof. reflexivity. Qed.

(** The rule [test_rule_validation] expects to be refused: a re-arm interval
    of zero minutes. *)
Definition invalid_rule : ProfitTakingRule :=
  mk_rule "Invalid Rule" true 0 15 (5 # 10) 2 None None None.

(** C6 (the code at the failing input).  Added to a fresh monitor, the rule
    with interval zero is inserted after the default rules: nothing is
    validated, nothing is refused. *)
Theorem add_invalid_rule_is_inserted :
  profit_taking_rules
    (add_profit_taking_rule (init StaticBroker) invalid_rule)
  = default_rules ++ [invalid_rule].
Proof. reflexivity. Qed.

(** *** Partial closes *)

Section PartialClose.
Context {B : Type} `{BaseBroker B}.

Lemma set_volume_ticket (v : Q) (p : ActivePosition) :
  ticket (set_volume p v) = ticket p.
Proof. reflexivity. Qed.

(** The lot below which [_execute_profit_taking] stops tracking a position:
    the literal [0.01]. *)
Definition minimum_lot_size : Q := double (1 # 100).

(** The float 0.01 is not below the number 0.01. *)
Lemma minimum_lot_size_above : (1 # 100) <= minimum_lot_size.
Proof. vm_compute. discriminate. Qed.

(** When [_execute_profit_taking] succeeds on a tracked position, the
    volume closed is previous volume * the rule's fraction and the volume
    kept is the difference, both as floats compute them; if what is kept
    exceeds the float 0.01 the position stays tracked with that volume,
    otherwise it is removed from tracking.  No other tracked position
    changes, and a failed call changes nothing. *)
Lemma partial_close_remainder (book : list ActivePosition) (b : B)
    (position : ActivePosition) (rule : ProfitTakingRule) :
  dict_ok ticket book ->
  In position book ->
  let remaining :=
    fsub (volume position)
         (fmul (volume position) (profit_percentage rule)) in
  let '(book', _, ok) := _execute_profit_taking book b position rule in
  (ok = true ->
     (minimum_lot_size < remaining ->
        dict_lookup ticket book' (ticket position)
        = Some (set_volume position remaining)) /\
     (remaining <= minimum_lot_size ->
        dict_lookup ticket book' (ticket position) = None) /\
     (forall t, t <> ticket position ->
        dict_lookup ticket book' t = dict_lookup ticket book t)) /\
  (ok = false -> book' = book).
Proof.
  intros Hok Hin remaining.
  pose proof (@dict_In_lookup _ ticket book position Hok Hin) as Hl.
  unfold _execute_profit_taking.
  destruct (get_mid_price b (symbol position)) as [b1 [cp|]];
    [|split; [discriminate | reflexivity]].
  destruct (Qeq_bool cp 0); [split; [discriminate | reflexivity]|].
  destruct (close_order_partial b1 (ticket position) _) as [b2 [|]];
    [|split; [discriminate | reflexivity]].
  fold remaining. fold minimum_lot_size.
  set (f := fun p => set_volume p
                       (fsub (volume p)
                          (fmul (volume position) (profit_percentage rule)))).
  assert (Hf : forall p, ticket (f p) = ticket p) by reflexivity.
  assert (Hm : dict_lookup ticket (dict_mutate ticket book (ticket position) f)
                 (ticket position) = Some (set_volume position remaining)).
  { rewrite (@dict_mutate_lookup_same _ ticket book (ticket position) f
               position Hf Hl). reflexivity. }
  destruct (Qle_bool remaining minimum_lot_size) eqn:E.
  - apply Qle_bool_iff in E. split; [|discriminate]. intros _.
    split; [|split].
    + intros C. exfalso. exact (Qlt_not_le _ _ C E).
    + intros _. unfold remove_active. apply dict_del_lookup_same.
      apply dict_mutate_ok; assumption.
    + intros t Ht. unfold remove_active.
      rewrite dict_del_lookup_other by exact Ht.
      apply dict_mutate_lookup_other; assumption.
  - apply Qle_bool_false_iff in E. split; [|discriminate]. intros _.
    split; [|split].
    + intros _. exact Hm.
    + intros C. exfalso. exact (Qlt_not_le _ _ E C).
    + intros t Ht. apply dict_mutate_lookup_other; assumption.
Qed.

(** The minimum lot of an instrument, as the broker reports it
    ([symbol_info.get('volume_min', 0.01)]). *)
Definition min_lot (b : B) (sym : string) : Q :=
  pydict_get (snd (get_symbol_info b sym)) "volume_min" (double (1 # 100)).
End PartialClose.

(** An instrument whose minimum lot is 0.1. *)
Definition index_broker : StaticBroker :=
  mk_static [("balance"%string, 1000)]
            (fun _ => [("bid"%string, 15000); ("ask"%string, 15001);
                       ("volume_min"%string, double (1 # 10))])
            (fun _ => Some 15000)
            true.

(** Half of 0.2 lot is closed and 0.1 lot stays tracked. *)
Example partial_close_keeps_a_tenth :
  let position := tracked 7 "EURUSD" (double (2 # 10)) 20 in
  let '(book', _, ok) :=
    _execute_profit_taking [position] (demo_broker (11 # 10) (11 # 10))
      position
      (mk_rule "Scalping Quick Profit" true 15 10 (5 # 10) 3 None None None)
  in
  ok = true /\
  option_map (fun p => Qred (volume p)) (dict_lookup ticket book' 7)
  = Some (Qred (double (1 # 10))).
Proof. vm_compute. split; reflexivity. Qed.

(** At the threshold the floats decide: three quarters of 0.04 lot closed
    leave 0.010000000000000002 lot, which stays tracked; half of 0.02 lot
    closed leaves the float 0.01, which does not. *)
Example partial_close_at_the_threshold :
  let rule f :=
    mk_rule "Scalping Quick Profit" true 15 10 f 3 None None None in
  let kept v f :=
    let position := tracked 7 "EURUSD" (double v) 20 in
    option_map (fun p => Qred (volume p))
      (dict_lookup ticket
         (fst (fst (_execute_profit_taking [position]
                      (demo_broker (11 # 10) (11 # 10)) position (rule f))))
         7) in
  kept (4 # 100) (double (75 # 100))
  = Some (1441151880758559 # 144115188075855872) /\
  kept (2 # 100) (double (5 # 10)) = None.
Proof. vm_compute. split; reflexivity. Qed.

(** C7 (the code at the failing input).  The threshold below which a
    position is untracked is the literal 0.01, not the minimum lot of the
    instrument.  On an instrument whose minimum lot is 0.1, a rule that
    closes 80% of a 0.25 lot position succeeds (0.2 lot is closed) and what
    remains, about 0.05 lot, is below the instrument's minimum and above
    0.01: the position stays tracked. *)
Theorem remainder_below_instrument_minimum_stays_tracked :
  let position := tracked 7 "GER40" (double (25 # 100)) 40 in
  let rule :=
    mk_rule "Session End Profit" true 240 30 (double (8 # 10)) 10
            None None None in
  let '(book', _, ok) :=
    _execute_profit_taking [position] index_broker position rule in
  ok = true /\
  exists p,
    dict_lookup ticket book' 7 = Some p /\
    volume p == fsub (volume position)
                  (fmul (volume position) (profit_percentage rule)) /\
    minimum_lot_size < volume p /\
    volume p < min_lot index_broker "GER40".
Proof.
  cbv zeta.
  destruct (_execute_profit_taking _ _ _ _) as [[book' b'] ok] eqn:E.
  vm_compute in E. injection E as <- _ <-.
  split; [reflexivity|].
  eexists. split; [reflexivity|].
  split; [|split]; vm_compute; reflexivity.
Qed.

(** *** Rule timing *)


Section Timing.
Context {B : Type} `{BaseBroker B}.

Definition rule_after (now : Z) (rule : ProfitTakingRule)
    (book : list ActivePosition) (b : B) : ProfitTakingRule :=
  fst (fst (fst (run_rule now rule book b))).

Definition rule_closed (now : Z) (rule : ProfitTakingRule)
    (book : list ActivePosition) (b : B) : list Z :=
  snd (run_rule now rule book b).

Lemma take_profits_count (rule : ProfitTakingRule)
    (cands : list ActivePosition) :
  forall (c : Z) (book : list ActivePosition) (b : B),
  snd (take_profits rule cands c book b)
  = (c + len (snd (fst (take_profits rule cands c book b))))%Z.
Proof.
  unfold len.
  induction cands as [|p cands IH]; intros c book b; simpl.
  - lia.
  - destruct (c >=? max_trades_per_interval rule)%Z; [simpl; lia|].
    destruct (Qle_bool _ _); [|apply IH].
    destruct (_execute_profit_taking book b p rule) as [[book1 b1] ok].
    destruct ok; [|apply IH].
    specialize (IH (c + 1)%Z book1 b1).
    destruct (take_profits rule cands (c + 1) book1 b1)
      as [[[book2 b2] closed] n].
    simpl in *. lia.
Qed.

(** A rule fires on a tick (closes at least one position) only if it is
    enabled and due; firing stamps it with the time of the tick, and a rule
    that closes nothing is left as it was. *)
Lemma run_rule_spec (now : Z) (rule : ProfitTakingRule)
    (book : list ActivePosition) (b : B) :
  (rule_closed now rule book b <> [] ->
     enabled rule = true /\ rule_due rule now = true /\
     rule_after now rule book b = set_last_execution rule now) /\
  (rule_closed now rule book b = [] -> rule_after now rule book b = rule).
Proof.
  unfold rule_closed, rule_after, run_rule.
  destruct (enabled rule); cbn [negb];
    [|split; [simpl; congruence | reflexivity]].
  destruct (rule_due rule now); cbn [negb];
    [|split; [simpl; congruence | reflexivity]].
  destruct (_get_matching_positions book rule) as [|p ps];
    [split; [simpl; congruence | reflexivity]|].
  set (cs := sort_by_profit (p :: ps)).
  pose proof (take_profits_count rule cs 0 book b) as Hc.
  destruct (take_profits rule cs 0 book b) as [[[book' b'] closed] n].
  simpl in *. subst n. unfold len. destruct closed as [|t closed]; simpl.
  - split; [congruence | reflexivity].
  - split; [|discriminate]. intros _. auto.
Qed.

Lemma check_rules_nth (now : Z) (rules : list ProfitTakingRule) :
  forall (i : nat) (rule : ProfitTakingRule) (book : list ActivePosition)
         (b : B),
  nth_error rules i = Some rule ->
  exists book_i b_i,
    nth_error (fst (fst (fst (check_rules now rules book b)))) i
    = Some (rule_after now rule book_i b_i) /\
    nth_error (snd (check_rules now rules book b)) i
    = Some (rule_closed now rule book_i b_i).
Proof.
  unfold rule_after, rule_closed.
  induction rules as [|r rules IH]; intros i rule book b Hn.
  - destruct i; discriminate.
  - simpl.
    destruct (run_rule now r book b) as [[[r' book1] b1] closed] eqn:Er.
    destruct i as [|i]; simpl in Hn.
    + injection Hn as ->. exists book, b. rewrite Er.
      destruct (check_rules now rules book1 b1) as [[[rs bk] bb] cl].
      simpl. auto.
    + destruct (IH i rule book1 b1 Hn) as (book_i & b_i & H1 & H2).
      exists book_i, b_i.
      destruct (check_rules now rules book1 b1) as [[[rs bk] bb] cl].
      simpl in *. auto.
Qed.

Lemma rule_due_later (rule : ProfitTakingRule) (now now' : Z) :
  rule_due rule now = true -> (now <= now')%Z -> rule_due rule now' = true.
Proof.
  unfold rule_due. destruct (last_execution rule) as [last|]; [|reflexivity].
  rewrite !negb_true_iff. intros Hd Hle.
  apply Z.ltb_ge in Hd. apply Z.ltb_ge. lia.
Qed.

(** C8.  On every evaluation tick, for every enabled rule that is due: if
    the rule closed at least one position on that tick its [last_execution]
    is the time of the tick; if it closed none the rule is unchanged, and so
    is still due at any later time. *)
Theorem last_execution_follows_closes (clock : Z) (m : ProfitMonitor B)
    (current_time : option Z) (i : nat) (rule : ProfitTakingRule) :
  let now := match current_time with None => clock | Some t => t end in
  nth_error (profit_taking_rules m) i = Some rule ->
  enabled rule = true ->
  rule_due rule now = true ->
  exists rule' closed,
    nth_error (profit_taking_rules
                 (fst (check_profit_taking_by_rule clock m current_time))) i
    = Some rule' /\
    nth_error (snd (check_profit_taking_by_rule clock m current_time)) i
    = Some closed /\
    (closed <> [] -> last_execution rule' = Some now) /\
    (closed = [] ->
       rule' = rule /\
       forall now', (now <= now')%Z -> rule_due rule' now' = true).
Proof.
  intros now Hn He Hd.
  assert (Hquiet : exists rule' closed,
            nth_error (profit_taking_rules m) i = Some rule' /\
            nth_error (map (fun _ => @nil Z) (profit_taking_rules m)) i
            = Some closed /\
            (closed <> [] -> last_execution rule' = Some now) /\
            (closed = [] ->
               rule' = rule /\
               forall now', (now <= now')%Z -> rule_due rule' now' = true)).
  { exists rule, []. split; [exact Hn|]. split.
    - rewrite nth_error_map, Hn. reflexivity.
    - split; [congruence|]. intros _. split; [reflexivity|].
      intros now' Hle. exact (rule_due_later rule Hd Hle). }
  unfold check_profit_taking_by_rule.
  destruct (broker m) as [b|]; [|exact Hquiet].
  destruct (active_positions m) as [|p book] eqn:Eb; [exact Hquiet|].
  fold now.
  destruct (@check_rules_nth now (profit_taking_rules m) i rule
              (p :: book) b Hn)
    as (book_i & b_i & H1 & H2).
  destruct (check_rules now (profit_taking_rules m) (p :: book) b)
    as [[[rs bk] bb] cl].
  simpl in *.
  exists (rule_after now rule book_i b_i), (rule_closed now rule book_i b_i).
  destruct (run_rule_spec now rule book_i b_i) as [Hfire Hidle].
  split; [exact H1|]. split; [exact H2|]. split.
  - intros Hc. destruct (Hfire Hc) as (_ & _ & ->). reflexivity.
  - intros Hc. rewrite (Hidle Hc). split; [reflexivity|].
    intros now' Hle. exact (rule_due_later rule Hd Hle).
Qed.

(** *** Sequences of calls on the monitor *)

Inductive MonitorOp :=
| OpSetBroker (b : B)
| OpAddRule (rule : ProfitTakingRule)
| OpRemoveRule (rule_name : string)
| OpEnableRule (rule_name : string)
| OpDisableRule (rule_name : string)
| OpAddActive (p : ActivePosition)
| OpRemoveActive (t : Z)
| OpUpdateProfit (t : Z) (current_price profit_pips : Q)
| OpTick (clock : Z) (current_time : option Z).

(** What a call reports: for a tick, its time and the tickets closed by each
    rule. *)
Inductive MonitorOut :=
| OutQuiet
| OutChecked (now : Z) (closed : list (list Z)).

Definition run_op (m : ProfitMonitor B) (op : MonitorOp)
  : ProfitMonitor B * MonitorOut :=
  match op with
  | OpSetBroker b => (set_broker m b, OutQuiet)
  | OpAddRule rule => (add_profit_taking_rule m rule, OutQuiet)
  | OpRemoveRule n => (remove_profit_taking_rule m n, OutQuiet)
  | OpEnableRule n => (enable_profit_taking_rule m n, OutQuiet)
  | OpDisableRule n => (disable_profit_taking_rule m n, OutQuiet)
  | OpAddActive p => (add_active_position m p, OutQuiet)
  | OpRemoveActive t => (remove_active_position m t, OutQuiet)
  | OpUpdateProfit t cp pips =>
      (update_position_profit m t cp pips, OutQuiet)
  | OpTick clock current_time =>
      let (m', closed) := check_profit_taking_by_rule clock m current_time in
      (m', OutChecked (match current_time with
                       | None => clock
                       | Some t => t
                       end) closed)
  end.


(** The time of the tick if the [i]-th rule closed a position on it. *)
Definition fired_at (i : nat) (out : MonitorOut) : list Z :=
  match out with
  | OutChecked now closed =>
      match nth_error closed i with
      | Some (_ :: _) => [now]
      | _ => []
      end
  | OutQuiet => []
  end.

(** The times at which the [i]-th rule fired during a run, in the order of
    the calls. *)
Fixpoint firings (i : nat) (m : ProfitMonitor B) (ops : list MonitorOp)
  : list Z :=
  match ops with
  | [] => []
  | op :: rest =>
      let (m', out) := run_op m op in fired_at i out ++ firings i m' rest
  end.







End Timing.

(** *** What a tick does to the book *)

(** [p'] is the tracked position [p], either untouched or partially closed
    with more than 0.01 lot remaining. *)
Definition touched (p p' : ActivePosition) : Prop :=
  p' = p \/ (p' = set_volume p (volume p') /\ (1 # 100) < volume p').

(** Every position of [book'] comes from one of [book]. *)
Definition thinned (book book' : list ActivePosition) : Prop :=
  forall p', In p' book' -> exists p, In p book /\ touched p p'.

Lemma touched_trans (p q r : ActivePosition) :
  touched p q -> touched q r -> touched p r.
Proof.
  intros [-> | [Hq Hv]] [-> | [Hr Hw]].
  - left; reflexivity.
  - right; auto.
  - right; auto.
  - right. split; [|exact Hw]. rewrite Hr, Hq. reflexivity.
Qed.

Lemma thinned_refl (book : list ActivePosition) : thinned book book.
Proof. intros p Hp. exists p. split; [exact Hp | left; reflexivity]. Qed.

Lemma thinned_trans (a b c : list ActivePosition) :
  thinned a b -> thinned b c -> thinned a c.
Proof.
  intros Hab Hbc r Hr. destruct (Hbc r Hr) as (q & Hq & Hqr).
  destruct (Hab q Hq) as (p & Hp & Hpq).
  exists p. split; [exact Hp | exact (touched_trans Hpq Hqr)].
Qed.

Lemma touched_same (p p' : ActivePosition) :
  touched p p' ->
  ticket p' = ticket p /\ symbol p' = symbol p /\ session p' = session p /\
  current_profit_pips p' = current_profit_pips p.
Proof. intros [-> | [-> _]]; auto. Qed.

Lemma touched_rule_matches (rule : ProfitTakingRule) (p p' : ActivePosition) :
  touched p p' -> rule_matches rule p' = rule_matches rule p.
Proof.
  intros Ht. destruct (touched_same Ht) as (_ & Hs & He & Hp).
  unfold rule_matches. rewrite Hs, He, Hp. reflexivity.
Qed.

Section Book.
Context {B : Type} `{BaseBroker B}.

Definition book_after_execute (book : list ActivePosition) (b : B)
    (position : ActivePosition) (rule : ProfitTakingRule)
  : list ActivePosition :=
  fst (fst (_execute_profit_taking book b position rule)).

(** One execution on a tracked position: tickets stay unique, the book is
    thinned, and the other positions are left in place. *)
Lemma _execute_profit_taking_book (book : list ActivePosition) (b : B)
    (position : ActivePosition) (rule : ProfitTakingRule) :
  dict_ok ticket book ->
  In position book ->
  dict_ok ticket (book_after_execute book b position rule) /\
  thinned book (book_after_execute book b position rule) /\
  (forall q, In q book -> ticket q <> ticket position ->
             In q (book_after_execute book b position rule)).
Proof.
  intros Hok Hin. unfold book_after_execute, _execute_profit_taking.
  assert (Hsame : dict_ok ticket book /\ thinned book book /\
                  (forall q, In q book -> ticket q <> ticket position ->
                             In q book))
    by (split; [exact Hok | split; [apply thinned_refl | auto]]).
  destruct (get_mid_price b (symbol position)) as [b1 [cp|]];
    [|exact Hsame].
  destruct (Qeq_bool cp 0); [exact Hsame|].
  destruct (close_order_partial b1 (ticket position) _) as [b2 [|]];
    [|exact Hsame].
  set (cv := fmul (volume position) (profit_percentage rule)).
  set (f := fun p => set_volume p (fsub (volume p) cv)).
  assert (Hf : forall p, ticket (f p) = ticket p) by reflexivity.
  assert (Hok1 : dict_ok ticket (dict_mutate ticket book (ticket position) f))
    by (apply dict_mutate_ok; assumption).
  assert (Hmut : forall x,
            In x (dict_mutate ticket book (ticket position) f) ->
            In x book \/ x = f position).
  { intros x Hx. apply dict_mutate_In_key in Hx.
    destruct Hx as [Hx | (w & Hw & Hk & ->)]; [auto|]. right.
    rewrite (@dict_ok_In_unique _ ticket book w position Hok Hw Hin Hk).
    reflexivity. }
  destruct (Qle_bool (fsub (volume position) cv) (double (1 # 100))) eqn:E;
    cbn [fst].
  - unfold remove_active. split; [apply dict_del_ok; exact Hok1|]. split.
    + intros x Hx.
      pose proof (@dict_del_not_key _ ticket _ _ x Hok1 Hx) as Hk.
      apply dict_del_In in Hx. destruct (Hmut x Hx) as [Hb | ->].
      * exists x. split; [exact Hb | left; reflexivity].
      * exfalso. apply Hk. reflexivity.
    + intros q Hq Hk. apply dict_del_keeps; [|exact Hk].
      apply dict_mutate_keeps; assumption.
  - apply Qle_bool_false_iff in E. split; [exact Hok1|]. split.
    + intros x Hx. destruct (Hmut x Hx) as [Hb | ->].
      * exists x. split; [exact Hb | left; reflexivity].
      * exists position. split; [exact Hin|]. right.
        split; [reflexivity|].
        apply (Qle_lt_trans _ _ _ minimum_lot_size_above). exact E.
    + intros q Hq Hk. apply dict_mutate_keeps; assumption.
Qed.

Definition book_after_take (rule : ProfitTakingRule)
    (cands : list ActivePosition) (c : Z) (book : list ActivePosition)
    (b : B) : list ActivePosition :=
  fst (fst (fst (take_profits rule cands c book b))).

Definition closed_by_take (rule : ProfitTakingRule)
    (cands : list ActivePosition) (c : Z) (book : list ActivePosition)
    (b : B) : list Z :=
  snd (fst (take_profits rule cands c book b)).

(** The loop over the candidates of a rule. *)
Lemma take_profits_book (rule : ProfitTakingRule)
    (cands : list ActivePosition) :
  forall (c : Z) (book : list ActivePosition) (b : B),
  dict_ok ticket book ->
  (forall p, In p cands -> In p book) ->
  NoDup (map ticket cands) ->
  dict_ok ticket (book_after_take rule cands c book b) /\
  thinned book (book_after_take rule cands c book b).
Proof.
  unfold book_after_take.
  induction cands as [|p cands IH]; intros c book b Hok Hin Hnd;
    cbn [take_profits].
  - split; [exact Hok | apply thinned_refl].
  - inversion Hnd as [|? ? Hp Hnd']; subst.
    assert (Hrest : forall q, In q cands -> In q book)
      by (intros q Hq; apply Hin; right; exact Hq).
    destruct (c >=? max_trades_per_interval rule)%Z;
      [split; [exact Hok | apply thinned_refl]|].
    destruct (Qle_bool _ _); [|apply IH; assumption].
    destruct (@_execute_profit_taking_book book b p rule Hok
                (Hin p (or_introl eq_refl))) as (Hok1 & Hth1 & Hkeep).
    unfold book_after_execute in *.
    destruct (_execute_profit_taking book b p rule) as [[book1 b1] ok].
    cbn [fst] in *.
    assert (Hrest1 : forall q, In q cands -> In q book1).
    { intros q Hq. apply Hkeep; [apply Hrest; exact Hq|].
      intros C. apply Hp. rewrite <- C. apply in_map. exact Hq. }
    destruct ok.
    + destruct (IH (c + 1)%Z book1 b1 Hok1 Hrest1 Hnd') as [Hok2 Hth2].
      destruct (take_profits rule cands (c + 1) book1 b1)
        as [[[book2 b2] closed] n].
      cbn [fst] in *. split; [exact Hok2|].
      exact (thinned_trans Hth1 Hth2).
    + destruct (IH c book1 b1 Hok1 Hrest1 Hnd') as [Hok2 Hth2].
      split; [exact Hok2 | exact (thinned_trans Hth1 Hth2)].
Qed.

(** The tickets a rule closes are tickets of candidates that reach the
    rule's minimum profit, and they are no more than the rule's cap. *)
Lemma take_profits_closed (rule : ProfitTakingRule)
    (cands : list ActivePosition) :
  forall (c : Z) (book : list ActivePosition) (b : B),
  (forall t, In t (closed_by_take rule cands c book b) ->
     exists p, In p cands /\ ticket p = t /\
               min_profit_pips rule <= current_profit_pips p) /\
  (len (closed_by_take rule cands c book b)
   <= Z.max 0 (max_trades_per_interval rule - c))%Z.
Proof.
  unfold closed_by_take, len.
  induction cands as [|p cands IH]; intros c book b; cbn [take_profits].
  - cbn [fst snd List.length]. split; [intros t []|lia].
  - destruct (c >=? max_trades_per_interval rule)%Z eqn:Ec;
      [cbn [fst snd List.length]; split; [intros t []|lia]|].
    assert (Hc : (c < max_trades_per_interval rule)%Z).
    { destruct (Z_lt_ge_dec c (max_trades_per_interval rule)) as [L | G];
        [exact L|].
      assert (C : (c >=? max_trades_per_interval rule)%Z = true)
        by (apply Z.geb_le; lia).
      congruence. }
    assert (Hlift : forall c' book' b',
              (forall t, In t (snd (fst (take_profits rule cands c' book' b')))
                 -> exists q, In q (p :: cands) /\ ticket q = t /\
                      min_profit_pips rule <= current_profit_pips q)).
    { intros c' book' b' t Ht.
      destruct (proj1 (IH c' book' b') t Ht) as (q & Hq & Hrest).
      exists q. split; [right; exact Hq | exact Hrest]. }
    destruct (Qle_bool (min_profit_pips rule) (current_profit_pips p)) eqn:Em.
    + apply Qle_bool_iff in Em.
      destruct (_execute_profit_taking book b p rule) as [[book1 b1] ok].
      destruct ok.
      * pose proof (Hlift (c + 1)%Z book1 b1) as Hl.
        pose proof (proj2 (IH (c + 1)%Z book1 b1)) as Hn.
        destruct (take_profits rule cands (c + 1) book1 b1)
          as [[[book2 b2] closed] n].
        cbn [fst snd List.length] in *. split.
        -- intros t [<- | Ht]; [|auto].
           exists p. split; [left; reflexivity | auto].
        -- rewrite Nat2Z.inj_succ. lia.
      * split; [apply Hlift|].
        pose proof (proj2 (IH c book1 b1)). lia.
    + split; [apply Hlift|].
      pose proof (proj2 (IH c book b)). lia.
Qed.

(** One rule on the book, in terms of the book it started from. *)
Lemma run_rule_book (now : Z) (rule : ProfitTakingRule)
    (book : list ActivePosition) (b : B) :
  dict_ok ticket book ->
  let book' := snd (fst (fst (run_rule now rule book b))) in
  dict_ok ticket book' /\ thinned book book'.
Proof.
  intros Hok. unfold run_rule.
  assert (Hsame : dict_ok ticket book /\ thinned book book)
    by (split; [exact Hok | apply thinned_refl]).
  destruct (negb (enabled rule)); [exact Hsame|].
  destruct (negb (rule_due rule now)); [exact Hsame|].
  destruct (_get_matching_positions book rule) as [|p ps] eqn:Em;
    [exact Hsame|].
  set (cs := sort_by_profit (p :: ps)).
  assert (Hperm : Permutation (filter (rule_matches rule) book) cs).
  { unfold cs. rewrite <- Em. apply sort_by_profit_perm. }
  assert (Hin : forall q, In q cs -> In q book).
  { intros q Hq. apply (Permutation_in _ (Permutation_sym Hperm)) in Hq.
    apply filter_In in Hq. tauto. }
  assert (Hnd : NoDup (map ticket cs)).
  { apply (Permutation_NoDup (Permutation_map ticket Hperm)).
    apply NoDup_map_filter. exact Hok. }
  destruct (@take_profits_book rule cs 0 book b Hok Hin Hnd) as [H1 H2].
  unfold book_after_take in *.
  destruct (take_profits rule cs 0 book b) as [[[book' b'] closed] n].
  cbn [fst snd] in *. auto.
Qed.

Lemma run_rule_closed (now : Z) (rule : ProfitTakingRule)
    (book : list ActivePosition) (b : B) :
  (forall t, In t (rule_closed now rule book b) ->
     enabled rule = true /\ rule_due rule now = true /\
     exists p, In p book /\ ticket p = t /\ rule_matches rule p = true /\
               min_profit_pips rule <= current_profit_pips p) /\
  (len (rule_closed now rule book b)
   <= Z.max 0 (max_trades_per_interval rule))%Z.
Proof.
  unfold rule_closed, run_rule.
  assert (Hnone : (forall t, In t (@nil Z) ->
            enabled rule = true /\ rule_due rule now = true /\
            exists p, In p book /\ ticket p = t /\
                      rule_matches rule p = true /\
                      min_profit_pips rule <= current_profit_pips p) /\
          (len (@nil Z) <= Z.max 0 (max_trades_per_interval rule))%Z)
    by (split; [intros t [] | unfold len; simpl; lia]).
  destruct (enabled rule); cbn [negb]; [|exact Hnone].
  destruct (rule_due rule now); cbn [negb]; [|exact Hnone].
  destruct (_get_matching_positions book rule) as [|p ps] eqn:Em;
    [exact Hnone|].
  set (cs := sort_by_profit (p :: ps)).
  assert (Hperm : Permutation (filter (rule_matches rule) book) cs).
  { unfold cs. rewrite <- Em. apply sort_by_profit_perm. }
  destruct (take_profits_closed rule cs 0 book b) as [H1 H2].
  unfold closed_by_take in *.
  destruct (take_profits rule cs 0 book b) as [[[book' b'] closed] n].
  cbn [fst snd] in *. split.
  - intros t Ht. destruct (H1 t Ht) as (q & Hq & Htq & Hmin).
    apply (Permutation_in _ (Permutation_sym Hperm)) in Hq.
    apply filter_In in Hq. destruct Hq as [Hq Hm].
    split; [reflexivity|]. split; [reflexivity|]. exists q. auto.
  - rewrite Z.sub_0_r in H2. exact H2.
Qed.

(** The rules of a tick, one after the other. *)
Lemma check_rules_book (now : Z) (rules : list ProfitTakingRule) :
  forall (book : list ActivePosition) (b : B),
  dict_ok ticket book ->
  let result := check_rules now rules book b in
  dict_ok ticket (snd (fst (fst result))) /\
  thinned book (snd (fst (fst result))) /\
  forall i rule, nth_error rules i = Some rule ->
    exists book_i b_i,
      dict_ok ticket book_i /\ thinned book book_i /\
      nth_error (fst (fst (fst result))) i
      = Some (rule_after now rule book_i b_i) /\
      nth_error (snd result) i = Some (rule_closed now rule book_i b_i).
Proof.
  unfold rule_after, rule_closed.
  induction rules as [|r rules IH]; intros book b Hok; cbn [check_rules].
  - cbn [fst snd]. split; [exact Hok|]. split; [apply thinned_refl|].
    intros i rule Hn. destruct i; discriminate.
  - destruct (@run_rule_book now r book b Hok) as [Hok1 Hth1].
    destruct (run_rule now r book b) as [[[r' book1] b1] closed] eqn:Er.
    cbn [fst snd] in Hok1, Hth1.
    destruct (IH book1 b1 Hok1) as (Hok2 & Hth2 & Hnth).
    destruct (check_rules now rules book1 b1) as [[[rs bk] bb] cl].
    cbn [fst snd] in *. split; [exact Hok2|].
    split; [exact (thinned_trans Hth1 Hth2)|].
    intros i rule Hn. destruct i as [|i]; cbn [nth_error] in *.
    + injection Hn as ->. exists book, b. rewrite Er. cbn [fst snd].
      split; [exact Hok|]. split; [apply thinned_refl|]. auto.
    + destruct (Hnth i rule Hn) as (book_i & b_i & Hoki & Hthi & H1 & H2).
      exists book_i, b_i. split; [exact Hoki|].
      split; [exact (thinned_trans Hth1 Hthi)|]. auto.
Qed.

(** An evaluation tick keeps the tickets of the book unique and only thins
    the book: every position tracked after the tick was tracked before it,
    and is either untouched or left with more than 0.01 lot; so a book in
    which every position has more than 0.01 lot stays such a book. *)
Theorem tick_thins_the_book (clock : Z) (m : ProfitMonitor B)
    (current_time : option Z) :
  dict_ok ticket (active_positions m) ->
  let book' :=
    active_positions (fst (check_profit_taking clock m current_time)) in
  dict_ok ticket book' /\
  thinned (active_positions m) book' /\
  (Forall (fun p => (1 # 100) < volume p) (active_positions m) ->
   Forall (fun p => (1 # 100) < volume p) book').
Proof.
  intros Hok book'.
  assert (H2 : dict_ok ticket book' /\ thinned (active_positions m) book').
  { unfold book', check_profit_taking, check_profit_taking_by_rule.
    destruct (broker m) as [b|];
      [|cbn [fst]; split; [exact Hok | apply thinned_refl]].
    destruct (active_positions m) as [|p book] eqn:Eb;
      [cbn [fst]; rewrite Eb; split; [exact Hok | apply thinned_refl]|].
    destruct (@check_rules_book
                (match current_time with None => clock | Some t => t end)
                (profit_taking_rules m) (p :: book) b Hok)
      as (Hok' & Hth & _).
    destruct (check_rules _ (profit_taking_rules m) (p :: book) b)
      as [[[rs bk] bb] cl].
    cbn [fst snd active_positions] in *. auto. }
  destruct H2 as [Hok' Hth]. split; [exact Hok'|]. split; [exact Hth|].
  intros Hall. apply Forall_forall. intros p' Hp'.
  destruct (Hth p' Hp') as (p & Hp & [-> | [_ Hv]]); [|exact Hv].
  rewrite Forall_forall in Hall. auto.
Qed.

Lemma closed_tickets_qualify (clock : Z) (m : ProfitMonitor B)
    (current_time : option Z) (i : nat) (rule : ProfitTakingRule)
    (closed : list Z) :
  dict_ok ticket (active_positions m) ->
  nth_error (profit_taking_rules m) i = Some rule ->
  nth_error (snd (check_profit_taking_by_rule clock m current_time)) i
  = Some closed ->
  (len closed <= Z.max 0 (max_trades_per_interval rule))%Z /\
  forall t, In t closed ->
    enabled rule = true /\
    rule_due rule (match current_time with None => clock | Some t => t end)
    = true /\
    exists p, In p (active_positions m) /\ ticket p = t /\
              rule_matches rule p = true /\
              min_profit_pips rule <= current_profit_pips p.
Proof.
  intros Hok Hn. unfold check_profit_taking_by_rule.
  assert (Hquiet :
            nth_error (map (fun _ => @nil Z) (profit_taking_rules m)) i
            = Some closed ->
            (len closed <= Z.max 0 (max_trades_per_interval rule))%Z /\
            forall t, In t closed ->
              enabled rule = true /\
              rule_due rule
                (match current_time with None => clock | Some t => t end)
              = true /\
              exists p, In p (active_positions m) /\ ticket p = t /\
                        rule_matches rule p = true /\
                        min_profit_pips rule <= current_profit_pips p).
  { rewrite nth_error_map, Hn. intros [= <-].
    split; [unfold len; simpl; lia | intros t []]. }
  destruct (broker m) as [b|]; [|exact Hquiet].
  destruct (active_positions m) as [|p0 book] eqn:Eb; [exact Hquiet|].
  set (now := match current_time with None => clock | Some t => t end).
  destruct (@check_rules_book now (profit_taking_rules m) (p0 :: book) b Hok)
    as (_ & _ & Hnth).
  destruct (Hnth i rule Hn) as (book_i & b_i & Hoki & Hthi & _ & H2).
  destruct (check_rules now (profit_taking_rules m) (p0 :: book) b)
    as [[[rs bk] bb] cl].
  cbn [fst snd] in *. rewrite H2. intros [= <-].
  destruct (run_rule_closed now rule book_i b_i) as [Hq Hcap].
  split; [exact Hcap|].
  intros t Ht. destruct (Hq t Ht) as (He & Hd & q & Hqin & Htq & Hm & Hmin).
  split; [exact He|]. split; [exact Hd|].
  destruct (Hthi q Hqin) as (p & Hp & Htouch).
  destruct (touched_same Htouch) as (Et & _ & _ & Ep).
  exists p. split; [exact Hp|]. split; [congruence|].
  split; [rewrite <- (touched_rule_matches rule Htouch); exact Hm|].
  rewrite <- Ep. exact Hmin.
Qed.

(** On an evaluation tick a rule closes at most its cap of positions (none
    when the cap is not positive), and every ticket it closes belongs to a
    position tracked at the start of the tick that passes the rule's
    filters with a positive profit of at least the rule's minimum; only an
    enabled rule that is due closes anything. *)
Theorem tick_closes_only_qualifying (clock : Z) (m : ProfitMonitor B)
    (current_time : option Z) (i : nat) (rule : ProfitTakingRule)
    (closed : list Z) :
  dict_ok ticket (active_positions m) ->
  nth_error (profit_taking_rules m) i = Some rule ->
  nth_error (snd (check_profit_taking_by_rule clock m current_time)) i
  = Some closed ->
  (len closed <= Z.max 0 (max_trades_per_interval rule))%Z /\
  forall t, In t closed ->
    enabled rule = true /\
    rule_due rule (match current_time with None => clock | Some t => t end)
    = true /\
    exists p, In p (active_positions m) /\ ticket p = t /\
              rule_matches rule p = true /\
              min_profit_pips rule <= current_profit_pips p.
Proof. apply closed_tickets_qualify. Qed.
End Book.

(** *** Ticks that change nothing *)

Section Quiet.
Context {B : Type} `{BaseBroker B}.

Lemma check_rules_length (now : Z) (rules : list ProfitTakingRule) :
  forall (book : list ActivePosition) (b : B),
  List.length (snd (check_rules now rules book b)) = List.length rules.
Proof.
  induction rules as [|r rules IH]; intros book b; cbn [check_rules];
    [reflexivity|].
  destruct (run_rule now r book b) as [[[r' book1] b1] closed].
  specialize (IH book1 b1).
  destruct (check_rules now rules book1 b1) as [[[rs bk] bb] cl].
  cbn [snd List.length] in *. rewrite IH. reflexivity.
Qed.

Lemma check_by_rule_length (clock : Z) (m : ProfitMonitor B)
    (current_time : option Z) :
  List.length (snd (check_profit_taking_by_rule clock m current_time))
  = List.length (profit_taking_rules m).
Proof.
  unfold check_profit_taking_by_rule.
  destruct (broker m) as [b|]; [|apply length_map].
  destruct (active_positions m) as [|p book]; [apply length_map|].
  pose proof (check_rules_length
                (match current_time with None => clock | Some t => t end)
                (profit_taking_rules m) (p :: book) b) as E.
  destruct (check_rules _ (profit_taking_rules m) (p :: book) b)
    as [[[rs bk] bb] cl].
  exact E.
Qed.

Lemma concat_nils (A C : Type) (l : list C) :
  List.concat (map (fun _ => @nil A) l) = [].
Proof. induction l as [|x l IH]; simpl; auto. Qed.

(** The broker cannot carry out a partial close: it has no price for any
    symbol, or it refuses every partial close. *)
Definition broker_down : Prop :=
  (forall (b : B) (sym : string), snd (get_mid_price b sym) = None) \/
  (forall (b : B) (t : Z) (v : Q), snd (close_order_partial b t v) = false).

Lemma _execute_profit_taking_down (book : list ActivePosition) (b : B)
    (p : ActivePosition) (rule : ProfitTakingRule) :
  broker_down ->
  fst (fst (_execute_profit_taking book b p rule)) = book /\
  snd (_execute_profit_taking book b p rule) = false.
Proof.
  intros Hdown. unfold _execute_profit_taking.
  destruct Hdown as [Hp | Hc].
  - specialize (Hp b (symbol p)).
    destruct (get_mid_price b (symbol p)) as [b1 pr]. cbn [snd] in Hp.
    subst pr. auto.
  - destruct (get_mid_price b (symbol p)) as [b1 [cp|]]; [|auto].
    destruct (Qeq_bool cp 0); [auto|].
    specialize (Hc b1 (ticket p) (fmul (volume p) (profit_percentage rule))).
    destruct (close_order_partial b1 (ticket p) _) as [b2 ok].
    cbn [snd] in Hc. subst ok. auto.
Qed.

Lemma take_profits_down (rule : ProfitTakingRule)
    (cands : list ActivePosition) :
  broker_down ->
  forall (c : Z) (book : list ActivePosition) (b : B),
  fst (fst (fst (take_profits rule cands c book b))) = book /\
  snd (fst (take_profits rule cands c book b)) = [] /\
  snd (take_profits rule cands c book b) = c.
Proof.
  intros Hdown.
  induction cands as [|p cands IH]; intros c book b; cbn [take_profits];
    [auto|].
  destruct (c >=? max_trades_per_interval rule)%Z; [auto|].
  destruct (Qle_bool _ _); [|apply IH].
  destruct (@_execute_profit_taking_down book b p rule Hdown) as [E1 E2].
  destruct (_execute_profit_taking book b p rule) as [[book1 b1] ok].
  cbn [fst snd] in *. subst book1 ok. apply IH.
Qed.

Lemma run_rule_down (now : Z) (rule : ProfitTakingRule)
    (book : list ActivePosition) (b : B) :
  broker_down ->
  fst (fst (fst (run_rule now rule book b))) = rule /\
  snd (fst (fst (run_rule now rule book b))) = book /\
  snd (run_rule now rule book b) = [].
Proof.
  intros Hdown. unfold run_rule.
  destruct (negb (enabled rule)); [auto|].
  destruct (negb (rule_due rule now)); [auto|].
  destruct (_get_matching_positions book rule) as [|p ps]; [auto|].
  destruct (@take_profits_down rule (sort_by_profit (p :: ps)) Hdown 0 book b)
    as (E1 & E2 & E3).
  destruct (take_profits rule (sort_by_profit (p :: ps)) 0 book b)
    as [[[book' b'] closed] n].
  cbn [fst snd] in *. subst. auto.
Qed.

Lemma check_rules_down (now : Z) (rules : list ProfitTakingRule) :
  broker_down ->
  forall (book : list ActivePosition) (b : B),
  fst (fst (fst (check_rules now rules book b))) = rules /\
  snd (fst (fst (check_rules now rules book b))) = book /\
  snd (check_rules now rules book b) = map (fun _ => []) rules.
Proof.
  intros Hdown.
  induction rules as [|r rules IH]; intros book b; cbn [check_rules];
    [auto|].
  destruct (@run_rule_down now r book b Hdown) as (E1 & E2 & E3).
  destruct (run_rule now r book b) as [[[r' book1] b1] closed].
  cbn [fst snd] in *. subst.
  destruct (IH book b1) as (F1 & F2 & F3).
  destruct (check_rules now rules book b1) as [[[rs bk] bb] cl].
  cbn [fst snd map] in *. subst. auto.
Qed.

(** When the broker has no price to give, or refuses every partial close, an
    evaluation tick closes nothing and leaves the rules (their
    [last_execution] included) and the tracked positions as they were. *)
Theorem tick_with_broker_down (clock : Z) (m : ProfitMonitor B)
    (current_time : option Z) :
  broker_down ->
  let result := check_profit_taking clock m current_time in
  snd result = [] /\
  profit_taking_rules (fst result) = profit_taking_rules m /\
  active_positions (fst result) = active_positions m.
Proof.
  intros Hdown. unfold check_profit_taking, check_profit_taking_by_rule.
  destruct (broker m) as [b|];
    [|cbn [fst snd]; rewrite concat_nils; auto].
  destruct (active_positions m) as [|p book] eqn:Eb;
    [cbn [fst snd]; rewrite concat_nils; auto|].
  destruct (@check_rules_down
              (match current_time with None => clock | Some t => t end)
              (profit_taking_rules m) Hdown (p :: book) b) as (E1 & E2 & E3).
  destruct (check_rules _ (profit_taking_rules m) (p :: book) b)
    as [[[rs bk] bb] cl].
  cbn [fst snd profit_taking_rules active_positions] in *. subst.
  rewrite concat_nils. auto.
Qed.

(** A rule that cannot act on a tick: disabled, not yet due, or without any
    matching position in profit. *)
Definition rule_idle (now : Z) (book : list ActivePosition)
    (rule : ProfitTakingRule) : Prop :=
  enabled rule = false \/ rule_due rule now = false \/
  _get_matching_positions book rule = [].

Lemma run_rule_idle (now : Z) (rule : ProfitTakingRule)
    (book : list ActivePosition) (b : B) :
  rule_idle now book rule -> run_rule now rule book b = (rule, book, b, []).
Proof.
  unfold run_rule. intros [He | [Hd | Hm]].
  - rewrite He. reflexivity.
  - rewrite Hd. destruct (negb (enabled rule)); reflexivity.
  - rewrite Hm. destruct (negb (enabled rule)); [reflexivity|].
    destruct (negb (rule_due rule now)); reflexivity.
Qed.

Lemma check_rules_idle (now : Z) (rules : list ProfitTakingRule)
    (book : list ActivePosition) (b : B) :
  Forall (rule_idle now book) rules ->
  check_rules now rules book b = (rules, book, b, map (fun _ => []) rules).
Proof.
  induction 1 as [|r rules Hr Hrest IH]; cbn [check_rules]; [reflexivity|].
  rewrite (run_rule_idle b Hr), IH. reflexivity.
Qed.

(** When no rule can act (each is disabled, not yet due, or has no matching
    position in profit), an evaluation tick returns no ticket and leaves the
    whole monitor as it was: rules, positions, and the broker, which is not
    called. *)
Theorem idle_tick_changes_nothing (clock : Z) (m : ProfitMonitor B)
    (current_time : option Z) :
  Forall (rule_idle (match current_time with None => clock | Some t => t end)
                    (active_positions m))
         (profit_taking_rules m) ->
  check_profit_taking clock m current_time = (m, []).
Proof.
  intros Hidle. unfold check_profit_taking, check_profit_taking_by_rule.
  destruct m as [rules book br]. cbn [broker active_positions
    profit_taking_rules] in *.
  destruct br as [b|]; [|rewrite concat_nils; reflexivity].
  destruct book as [|p book]; [rewrite concat_nils; reflexivity|].
  rewrite (check_rules_idle b Hidle), concat_nils. reflexivity.
Qed.

Lemma set_first_enabled_first (rules : list ProfitTakingRule) (n : string)
    (v : bool) :
  forall i rule,
  nth_error rules i = Some rule ->
  name rule = n ->
  (forall j r, (j < i)%nat -> nth_error rules j = Some r -> name r <> n) ->
  nth_error (set_first_enabled rules n v) i = Some (set_enabled rule v).
Proof.
  induction rules as [|r rules IH]; intros i rule Hn Hname Hfirst.
  - destruct i; discriminate.
  - cbn [set_first_enabled]. destruct i as [|i]; cbn [nth_error] in *.
    + injection Hn as ->. subst n. rewrite String.eqb_refl. reflexivity.
    + destruct (String.eqb (name r) n) eqn:E.
      * apply String.eqb_eq in E. exfalso.
        apply (Hfirst 0%nat r); [lia | reflexivity | exact E].
      * cbn [nth_error]. apply IH; [exact Hn | exact Hname|].
        intros j r' Hj Hr'. apply (Hfirst (S j) r'); [lia | exact Hr'].
Qed.

(** After [disable_profit_taking_rule], the first rule of that name closes
    nothing on the next evaluation tick and comes out of it unchanged:
    disabled, with the [last_execution] it had. *)
Theorem disabled_rule_stays_quiet (clock : Z) (m : ProfitMonitor B)
    (current_time : option Z) (n : string) (i : nat)
    (rule : ProfitTakingRule) :
  nth_error (profit_taking_rules m) i = Some rule ->
  name rule = n ->
  (forall j r, (j < i)%nat -> nth_error (profit_taking_rules m) j = Some r ->
               name r <> n) ->
  let result :=
    check_profit_taking_by_rule clock (disable_profit_taking_rule m n)
                                current_time in
  nth_error (snd result) i = Some [] /\
  nth_error (profit_taking_rules (fst result)) i
  = Some (set_enabled rule false).
Proof.
  intros Hn Hname Hfirst.
  pose proof (@set_first_enabled_first (profit_taking_rules m) n false i rule
                Hn Hname Hfirst) as Hd.
  unfold check_profit_taking_by_rule, disable_profit_taking_rule.
  cbn [broker active_positions profit_taking_rules].
  set (rules1 := set_first_enabled (profit_taking_rules m) n false) in *.
  destruct (broker m) as [b|];
    [|cbn [fst snd profit_taking_rules]; rewrite nth_error_map, Hd; auto].
  destruct (active_positions m) as [|p book];
    [cbn [fst snd profit_taking_rules]; rewrite nth_error_map, Hd; auto|].
  set (now := match current_time with None => clock | Some t => t end).
  destruct (@check_rules_nth B _ now rules1 i (set_enabled rule false)
              (p :: book) b Hd) as (book_i & b_i & H1 & H2).
  destruct (check_rules now rules1 (p :: book) b) as [[[rs bk] bb] cl].
  cbn [fst snd profit_taking_rules] in *.
  assert (Hidle : rule_idle now book_i (set_enabled rule false))
    by (left; reflexivity).
  unfold rule_after, rule_closed in *.
  rewrite (run_rule_idle b_i Hidle) in H1, H2. cbn [fst snd] in *. auto.
Qed.

(** A position whose latest profit update reported at most 0 pips is not
    closed on the next evaluation tick, whatever the rules. *)
Theorem losing_position_is_not_closed (clock : Z) (m : ProfitMonitor B)
    (current_time : option Z) (t : Z) (current_price profit_pips : Q) :
  dict_ok ticket (active_positions m) ->
  profit_pips <= 0 ->
  ~ In t (snd (check_profit_taking clock
                 (update_position_profit m t current_price profit_pips)
                 current_time)).
Proof.
  intros Hok Hp Hin.
  set (m1 := update_position_profit m t current_price profit_pips) in *.
  set (f := fun p =>
              mk_active (ticket p) (symbol p) (order_type p) (volume p)
                (open_price p) (open_time p)
                (if String.eqb (order_type p) "BUY"
                 then (current_price - open_price p) * volume p
                 else (open_price p - current_price) * volume p)
                profit_pips (session p) (strategy p)).
  assert (Hf : forall p, ticket (f p) = ticket p) by reflexivity.
  assert (Hok1 : dict_ok ticket (active_positions m1))
    by (apply dict_mutate_ok; assumption).
  unfold check_profit_taking in Hin.
  pose proof (check_by_rule_length clock m1 current_time) as Hlen.
  pose proof (@closed_tickets_qualify B _ clock m1 current_time) as Hq.
  destruct (check_profit_taking_by_rule clock m1 current_time) as [m' cl].
  cbn [fst snd] in *.
  apply in_concat in Hin. destruct Hin as (closed & Hcl & Ht).
  apply In_nth_error in Hcl. destruct Hcl as [i Hi].
  assert (Hr : exists rule, nth_error (profit_taking_rules m1) i = Some rule).
  { destruct (nth_error (profit_taking_rules m1) i) as [r|] eqn:E;
      [eauto|].
    apply nth_error_None in E.
    assert (Hlt : (i < List.length cl)%nat)
      by (apply nth_error_Some; congruence).
    lia. }
  destruct Hr as [rule Hr].
  destruct (Hq i rule closed Hok1 Hr Hi) as [_ Hall].
  destruct (Hall t Ht) as (_ & _ & p & Hpin & Htp & Hm & _).
  assert (Hpips : current_profit_pips p = profit_pips).
  { pose proof (@dict_In_lookup _ ticket _ p Hok1 Hpin) as Hl.
    rewrite Htp in Hl. unfold m1, update_position_profit in Hl.
    cbn [active_positions] in Hl. fold f in Hl.
    destruct (dict_lookup ticket (active_positions m) t) as [w|] eqn:Ew.
    - rewrite (@dict_mutate_lookup_same _ ticket (active_positions m) t f w
                 Hf Ew) in Hl.
      injection Hl as <-. reflexivity.
    - rewrite (dict_mutate_absent ticket _ _ f Ew), Ew in Hl. discriminate. }
  unfold rule_matches in Hm. apply andb_true_iff in Hm.
  destruct Hm as [_ Hm]. apply Qlt_bool_iff in Hm. rewrite Hpips in Hm.
  exact (Qlt_not_le _ _ Hm Hp).
Qed.
End Quiet.

(** *** A London scenario

    One rule (every 15 minutes, at least 10 pips, half of the volume, one
    close per firing, London positions only) and one EURUSD position opened
    in the London session, 20 pips in profit. *)

Definition minutes (n : Z) : Z := (n * 60 * 1000000)%Z.

Definition london_rule (last : option Z) : ProfitTakingRule :=
  mk_rule "London Quick Profit" true 15 10 (5 # 10) 1 (Some LONDON) None last.

Definition london_monitor (last : option Z) : ProfitMonitor StaticBroker :=
  mk_monitor [london_rule last] [tracked 1 "EURUSD" (double (2 # 10)) 20]
             (Some (demo_broker (11 # 10) (11 # 10))).

(** Last fired at 08:40, evaluated at 09:00: the position is closed by half
    and the rule is stamped 09:00. *)
Example london_0900 :
  check_profit_taking 0 (london_monitor (Some (minutes 520)))
                      (Some (minutes 540))
  = (mk_monitor [london_rule (Some (minutes 540))]
                [set_volume (tracked 1 "EURUSD" (double (2 # 10)) 20)
                            (fsub (double (2 # 10))
                                  (fmul (double (2 # 10)) (5 # 10)))]
                (Some (demo_broker (11 # 10) (11 # 10))),
     [1%Z]).
Proof. vm_compute. reflexivity. Qed.

(** Evaluated again at 09:10: the rule is not due. *)
Example london_0910 :
  snd (check_profit_taking 0 (london_monitor (Some (minutes 540)))
                           (Some (minutes 550)))
  = [].
Proof. reflexivity. Qed.

Definition london_run : list (@MonitorOp StaticBroker) :=
  [OpTick 0 (Some (minutes 540));
   OpUpdateProfit 1 (1102 # 1000) 25;
   OpTick 0 (Some (minutes 550));
   OpDisableRule "London Quick Profit";
   OpEnableRule "London Quick Profit";
   OpTick 0 (Some (minutes 555));
   OpTick 0 (Some (minutes 556))].

Example london_run_firings :
  firings 0 (london_monitor None) london_run = [minutes 540; minutes 555].
Proof. reflexivity. Qed.

Lemma last_execution_follows_closes_witness :
  exists rule' closed,
    nth_error (profit_taking_rules
                 (fst (check_profit_taking_by_rule 0
                         (london_monitor (Some (minutes 520)))
                         (Some (minutes 540))))) 0
    = Some rule' /\
    nth_error (snd (check_profit_taking_by_rule 0
                      (london_monitor (Some (minutes 520)))
                      (Some (minutes 540)))) 0
    = Some closed /\
    (closed <> [] -> last_execution rule' = Some (minutes 540)) /\
    (closed = [] ->
       rule' = london_rule (Some (minutes 520)) /\
       forall now', (minutes 540 <= now')%Z -> rule_due rule' now' = true).
Proof.
  apply (@last_execution_follows_closes StaticBroker _ 0%Z
           (london_monitor (Some (minutes 520))) (Some (minutes 540)) 0%nat
           (london_rule (Some (minutes 520)))).
  - reflexivity.
  - reflexivity.
  - reflexivity.
Defined.


(** A broker that is disconnected: no information, no price, no close. *)
Inductive Disconnected := disconnected.

#[export] Instance Disconnected_BaseBroker : BaseBroker Disconnected := {|
  get_account_info b := (b, []);
  get_symbol_info b _ := (b, []);
  get_current_price b _ := (b, []);
  get_mid_price b _ := (b, None);
  close_order_partial b _ _ := (b, false)
|}.

Lemma tick_thins_the_book_witness :
  let book' :=
    active_positions
      (fst (check_profit_taking 0 (london_monitor (Some (minutes 520)))
              (Some (minutes 540)))) in
  dict_ok ticket book' /\
  thinned (active_positions (london_monitor (Some (minutes 520)))) book' /\
  (Forall (fun p => (1 # 100) < volume p)
          (active_positions (london_monitor (Some (minutes 520)))) ->
   Forall (fun p => (1 # 100) < volume p) book').
Proof.
  apply (@tick_thins_the_book StaticBroker _ 0
           (london_monitor (Some (minutes 520))) (Some (minutes 540))).
  unfold dict_ok; simpl. repeat constructor; simpl; intuition.
Defined.

Lemma tick_closes_only_qualifying_witness :
  (len [1%Z] <= Z.max 0 (max_trades_per_interval
                           (london_rule (Some (minutes 520)))))%Z /\
  forall t, In t [1%Z] ->
    enabled (london_rule (Some (minutes 520))) = true /\
    rule_due (london_rule (Some (minutes 520))) (minutes 540) = true /\
    exists p,
      In p (active_positions (london_monitor (Some (minutes 520)))) /\
      ticket p = t /\
      rule_matches (london_rule (Some (minutes 520))) p = true /\
      min_profit_pips (london_rule (Some (minutes 520)))
      <= current_profit_pips p.
Proof.
  apply (@tick_closes_only_qualifying StaticBroker _ 0
           (london_monitor (Some (minutes 520))) (Some (minutes 540)) 0%nat
           (london_rule (Some (minutes 520))) [1%Z]).
  - unfold dict_ok; simpl. repeat constructor; simpl; intuition.
  - reflexivity.
  - reflexivity.
Defined.

Lemma tick_with_broker_down_witness :
  let result :=
    check_profit_taking 0
      (mk_monitor default_rules [tracked 1 "EURUSD" (2 # 10) 40]
                  (Some disconnected))
      (Some (minutes 540)) in
  snd result = [] /\
  profit_taking_rules (fst result) = default_rules /\
  active_positions (fst result) = [tracked 1 "EURUSD" (2 # 10) 40].
Proof.
  apply (@tick_with_broker_down Disconnected _ 0
           (mk_monitor default_rules [tracked 1 "EURUSD" (2 # 10) 40]
                       (Some disconnected))
           (Some (minutes 540))).
  left. intros b sym. reflexivity.
Defined.

Lemma idle_tick_changes_nothing_witness :
  check_profit_taking 0 (london_monitor (Some (minutes 540)))
                      (Some (minutes 550))
  = (london_monitor (Some (minutes 540)), []).
Proof.
  apply (@idle_tick_changes_nothing StaticBroker _ 0
           (london_monitor (Some (minutes 540))) (Some (minutes 550))).
  apply Forall_cons; [|apply Forall_nil]. right. left. reflexivity.
Defined.

Lemma disabled_rule_stays_quiet_witness :
  let result :=
    check_profit_taking_by_rule 0
      (disable_profit_taking_rule (london_monitor None) "London Quick Profit")
      (Some (minutes 540)) in
  nth_error (snd result) 0 = Some [] /\
  nth_error (profit_taking_rules (fst result)) 0
  = Some (set_enabled (london_rule None) false).
Proof.
  apply (@disabled_rule_stays_quiet StaticBroker _ 0 (london_monitor None)
           (Some (minutes 540)) "London Quick Profit" 0%nat
           (london_rule None)).
  - reflexivity.
  - reflexivity.
  - intros j r Hj. lia.
Defined.

Lemma losing_position_is_not_closed_witness :
  ~ In 1%Z
      (snd (check_profit_taking 0
              (update_position_profit (london_monitor None) 1
                 (1099 # 1000) (-10))
              (Some (minutes 540)))).
Proof.
  apply (@losing_position_is_not_closed StaticBroker _ 0
           (london_monitor None) (Some (minutes 540)) 1 (1099 # 1000) (-10)).
  - unfold dict_ok; simpl. repeat constructor; simpl; intuition.
  - unfold Qle; simpl; lia.
Defined.

End Profit.

(** ** Trade ledger of the profit monitor ([profit_monitor.py])

    The running metrics [ProfitMonitor] keeps over its trade records.
    Writing the records to disk ([_save_data]) changes nothing in memory and
    is left out. *)

Module Ledger.

Local Open Scope Q_scope.

Record TradeRecord := mk_trade {
  ticket : Z;
  symbol : string;
  order_type : string;
  volume : Q;
  open_price : Q;
  close_price : option Q;
  open_time : Z;
  close_time : option Z;
  profit : Q;
  swap : Q;
  commission : Q;
  session : SessionType;
  strategy : string;
  stop_loss : option Q;
  take_profit : option Q;
  exit_reason : option string
}.

(** A [dict] of running sums: [d[k] = d.get(k, 0.0) + v]. *)
Section Sums.
Variable K : Type.
Variable eqb : K -> K -> bool.

Fixpoint sum_get (d : list (K * Q)) (k : K) : Q :=
  match d with
  | [] => 0
  | (k', v) :: d' => if eqb k' k then v else sum_get d' k
  end.

Fixpoint sum_set (d : list (K * Q)) (k : K) (v : Q) : list (K * Q) :=
  match d with
  | [] => [(k, v)]
  | (k', v') :: d' =>
      if eqb k' k then (k', v) :: d' else (k', v') :: sum_set d' k v
  end.

Definition sum_add (d : list (K * Q)) (k : K) (v : Q) : list (K * Q) :=
  sum_set d k (sum_get d k + v).

(** The total of the values. *)
Fixpoint sum_total (d : list (K * Q)) : Q :=
  match d with
  | [] => 0
  | (_, v) :: d' => v + sum_total d'
  end.

Lemma sum_set_total (d : list (K * Q)) (k : K) (v : Q) :
  sum_total (sum_set d k v) == sum_total d - sum_get d k + v.
Proof.
  induction d as [|[k' v'] d IH]; simpl.
  - ring.
  - destruct (eqb k' k); simpl; [ring|]. rewrite IH. ring.
Qed.

Lemma sum_add_total (d : list (K * Q)) (k : K) (v : Q) :
  sum_total (sum_add d k v) == sum_total d + v.
Proof. unfold sum_add. rewrite sum_set_total. ring. Qed.
End Sums.

(** [session_pnl]: per session, the running sums per date. *)
Fixpoint nested_add (d : list (SessionType * list (Z * Q)))
    (s : SessionType) (date : Z) (v : Q)
  : list (SessionType * list (Z * Q)) :=
  match d with
  | [] => [(s, sum_add Z.eqb [] date v)]
  | (s', inner) :: d' =>
      if SessionType_eqb s' s then (s', sum_add Z.eqb inner date v) :: d'
      else (s', inner) :: nested_add d' s date v
  end.

Fixpoint nested_total (d : list (SessionType * list (Z * Q))) : Q :=
  match d with
  | [] => 0
  | (_, inner) :: d' => sum_total inner + nested_total d'
  end.

Lemma nested_add_total (d : list (SessionType * list (Z * Q)))
    (s : SessionType) (date : Z) (v : Q) :
  nested_total (nested_add d s date v) == nested_total d + v.
Proof.
  induction d as [|[s' inner] d IH]; simpl.
  - ring.
  - destruct (SessionType_eqb s' s); simpl.
    + rewrite sum_add_total. ring.
    + rewrite IH. ring.
Qed.

(** The metrics of [ProfitMonitor].  Dates stand for their [%Y-%m-%d]
    strings, sessions for their names.  Every record of [trades] is an
    object of its own, as [_load_data] and the bot create them. *)
Record Metrics := mk_metrics {
  trades : list TradeRecord;
  daily_pnl : list (Z * Q);
  session_pnl : list (SessionType * list (Z * Q));
  pair_pnl : list (string * Q);
  strategy_pnl : list (string * Q);
  current_balance : Q;
  peak_balance : Q;
  max_drawdown : Q;
  max_drawdown_pct : Q;
  consecutive_losses : Z;
  max_consecutive_losses : Z
}.

(** The date of an instant (microseconds, naive). *)
Definition date_of (t : Z) : Z := (t / 86400000000)%Z.

(** A monitor without history. *)
Definition fresh : Metrics := mk_metrics [] [] [] [] [] 0 0 0 0 0 0.

(** [_update_metrics] *)
Definition _update_metrics (s : Metrics) (trade : TradeRecord) : Metrics :=
  let date_str := date_of (open_time trade) in
  let daily := sum_add Z.eqb (daily_pnl s) date_str (profit trade) in
  let by_session :=
    nested_add (session_pnl s) (session trade) date_str (profit trade) in
  let by_pair :=
    sum_add String.eqb (pair_pnl s) (symbol trade) (profit trade) in
  let by_strategy :=
    sum_add String.eqb (strategy_pnl s) (strategy trade) (profit trade) in
  let balance := current_balance s + profit trade in
  let peak := if Qlt_bool (peak_balance s) balance
              then balance else peak_balance s in
  let drawdown := (peak - balance) / peak in
  let worse := Qlt_bool 0 peak && Qlt_bool (max_drawdown_pct s) drawdown in
  let streak := if Qlt_bool (profit trade) 0
                then (consecutive_losses s + 1)%Z else 0%Z in
  mk_metrics (trades s) daily by_session by_pair by_strategy balance peak
    (if worse then peak - balance else max_drawdown s)
    (if worse then drawdown else max_drawdown_pct s)
    streak
    (if Qlt_bool (profit trade) 0
     then (if (max_consecutive_losses s <? streak)%Z
           then streak else max_consecutive_losses s)
     else max_consecutive_losses s).

Definition set_trades (s : Metrics) (ts : list TradeRecord) : Metrics :=
  mk_metrics ts (daily_pnl s) (session_pnl s) (pair_pnl s) (strategy_pnl s)
    (current_balance s) (peak_balance s) (max_drawdown s)
    (max_drawdown_pct s) (consecutive_losses s) (max_consecutive_losses s).

(** [add_trade] *)
Definition add_trade (s : Metrics) (trade : TradeRecord) : Metrics :=
  _update_metrics (set_trades s (trades s ++ [trade])) trade.

(** [_recalculate_metrics] *)
Definition _recalculate_metrics (s : Metrics) : Metrics :=
  fold_left _update_metrics (trades s)
    (mk_metrics (trades s) [] [] [] [] 0 0 0 0 0 0).

(** The trade as [close_trade] leaves it. *)
Definition closed_trade (trade : TradeRecord) (price : Q) (time : Z)
    (reason : string) : TradeRecord :=
  mk_trade (ticket trade) (symbol trade) (order_type trade) (volume trade)
    (open_price trade) (Some price) (open_time trade) (Some time)
    (if String.eqb (order_type trade) "BUY"
     then (price - open_price trade) * volume trade
     else (open_price trade - price) * volume trade)
    (swap trade) (commission trade) (session trade) (strategy trade)
    (stop_loss trade) (take_profit trade) (Some reason).

(** The loop of [close_trade]: the first open trade with the ticket, if
    any, as it was, and the list with that trade closed. *)
Fixpoint close_first (ts : list TradeRecord) (t : Z) (price : Q) (time : Z)
    (reason : string) : option (TradeRecord * list TradeRecord) :=
  match ts with
  | [] => None
  | trade :: rest =>
      if (ticket trade =? t)%Z
         && match close_price trade with None => true | Some _ => false end
      then Some (trade, closed_trade trade price time reason :: rest)
      else
        match close_first rest t price time reason with
        | Some (found, rest') => Some (found, trade :: rest')
        | None => None
        end
  end.

(** [close_trade] ([exit_reason] defaults to ["manual"]). *)
Definition close_trade (s : Metrics) (t : Z) (price : Q) (time : Z)
    (reason : option string) : Metrics :=
  let reason := match reason with Some r => r | None => "manual"%string end in
  match close_first (trades s) t price time reason with
  | Some (found, ts) =>
      _update_metrics (set_trades s ts) (closed_trade found price time reason)
  | None => s
  end.

(** The calls that change the ledger. *)
Inductive LedgerOp :=
| OpAddTrade (trade : TradeRecord)
| OpCloseTrade (t : Z) (price : Q) (time : Z) (reason : option string)
| OpRecalculate.

Definition run_op (s : Metrics) (op : LedgerOp) : Metrics :=
  match op with
  | OpAddTrade trade => add_trade s trade
  | OpCloseTrade t price time reason => close_trade s t price time reason
  | OpRecalculate => _recalculate_metrics s
  end.

Definition run_ops (s : Metrics) (ops : list LedgerOp) : Metrics :=
  fold_left run_op ops s.

(** *** Bounds the metrics keep *)

Definition bounded (s : Metrics) : Prop :=
  current_balance s <= peak_balance s /\ 0 <= peak_balance s /\
  0 <= max_drawdown s /\ 0 <= max_drawdown_pct s /\
  (0 <= consecutive_losses s <= max_consecutive_losses s)%Z.

Lemma _update_metrics_bounded (s : Metrics) (trade : TradeRecord) :
  bounded s -> bounded (_update_metrics s trade).
Proof.
  intros (Hb & Hp & Hd & Hdp & Hc).
  unfold bounded, _update_metrics;
    cbn [current_balance peak_balance max_drawdown max_drawdown_pct
         consecutive_losses max_consecutive_losses].
  set (bal := current_balance s + profit trade).
  set (pk := if Qlt_bool (peak_balance s) bal then bal else peak_balance s).
  assert (Hpk : bal <= pk /\ peak_balance s <= pk).
  { unfold pk. destruct (Qlt_bool (peak_balance s) bal) eqn:E.
    - apply Qlt_bool_iff in E. split; [apply Qle_refl | lra].
    - apply Qlt_bool_false_iff in E. split; [exact E | apply Qle_refl]. }
  destruct Hpk as [Hpk1 Hpk2].
  split; [exact Hpk1|]. split; [lra|].
  destruct (Qlt_bool 0 pk) eqn:E0; cbn [andb].
  - apply Qlt_bool_iff in E0.
    destruct (Qlt_bool (max_drawdown_pct s) ((pk - bal) / pk)) eqn:E1.
    + apply Qlt_bool_iff in E1.
      split; [lra|]. split; [lra|].
      destruct (Qlt_bool (profit trade) 0);
        [destruct (_ <? _)%Z eqn:E2;
           [apply Z.ltb_lt in E2 | apply Z.ltb_ge in E2]|]; lia.
    + split; [exact Hd|]. split; [exact Hdp|].
      destruct (Qlt_bool (profit trade) 0);
        [destruct (_ <? _)%Z eqn:E2;
           [apply Z.ltb_lt in E2 | apply Z.ltb_ge in E2]|]; lia.
  - split; [exact Hd|]. split; [exact Hdp|].
    destruct (Qlt_bool (profit trade) 0);
      [destruct (_ <? _)%Z eqn:E2;
         [apply Z.ltb_lt in E2 | apply Z.ltb_ge in E2]|]; lia.
Qed.

Lemma fold_update_bounded (ts : list TradeRecord) (s : Metrics) :
  bounded s -> bounded (fold_left _update_metrics ts s).
Proof.
  revert s. induction ts as [|t ts IH]; intros s Hs; [exact Hs|].
  apply IH. apply _update_metrics_bounded. exact Hs.
Qed.

Lemma bounded_zero (ts : list TradeRecord) :
  bounded (mk_metrics ts [] [] [] [] 0 0 0 0 0 0).
Proof. unfold bounded; simpl. repeat split; try lra; lia. Qed.

Lemma run_op_bounded (s : Metrics) (op : LedgerOp) :
  bounded s -> bounded (run_op s op).
Proof.
  intros Hs. destruct op as [trade | t price time reason |]; cbn [run_op].
  - unfold add_trade. apply _update_metrics_bounded. exact Hs.
  - unfold close_trade.
    destruct (close_first (trades s) t price time _) as [[found ts]|];
      [|exact Hs].
    apply _update_metrics_bounded. exact Hs.
  - unfold _recalculate_metrics. apply fold_update_bounded, bounded_zero.
Qed.

(** Whatever trades are added, closed or recalculated, starting from a
    monitor without history: the peak balance is never negative and never
    below the current balance, the maximum drawdown figures are never
    negative, and the current losing streak lies between 0 and the longest
    streak recorded. *)
Theorem ledger_bounds (ops : list LedgerOp) :
  bounded (run_ops fresh ops).
Proof.
  unfold run_ops.
  assert (H : forall s, bounded s -> bounded (fold_left run_op ops s)).
  { induction ops as [|op ops IH]; intros s Hs; [exact Hs|].
    apply IH. apply run_op_bounded. exact Hs. }
  apply H. apply bounded_zero.
Qed.

(** *** Where the profits are booked *)

(** All the running sums agree with the balance. *)
Definition sums_agree (s : Metrics) : Prop :=
  sum_total (daily_pnl s) == current_balance s /\
  nested_total (session_pnl s) == current_balance s /\
  sum_total (pair_pnl s) == current_balance s /\
  sum_total (strategy_pnl s) == current_balance s.

Lemma _update_metrics_sums_agree (s : Metrics) (trade : TradeRecord) :
  sums_agree s -> sums_agree (_update_metrics s trade).
Proof.
  intros (H1 & H2 & H3 & H4).
  unfold sums_agree, _update_metrics;
    cbn [daily_pnl session_pnl pair_pnl strategy_pnl current_balance].
  rewrite !sum_add_total, nested_add_total, H1, H2, H3, H4.
  repeat split; reflexivity.
Qed.

Lemma fold_update_sums_agree (ts : list TradeRecord) (s : Metrics) :
  sums_agree s -> sums_agree (fold_left _update_metrics ts s).
Proof.
  revert s. induction ts as [|t ts IH]; intros s Hs; [exact Hs|].
  apply IH. apply _update_metrics_sums_agree. exact Hs.
Qed.

Lemma sums_agree_zero (ts : list TradeRecord) :
  sums_agree (mk_metrics ts [] [] [] [] 0 0 0 0 0 0).
Proof. unfold sums_agree; simpl. repeat split; reflexivity. Qed.

(** Whatever trades are added, closed or recalculated, starting from a
    monitor without history, the P&L broken down by day, by session and
    day, by pair and by strategy each add up to the current balance. *)
Theorem ledger_breakdowns_add_up (ops : list LedgerOp) :
  sums_agree (run_ops fresh ops).
Proof.
  unfold run_ops.
  assert (H : forall s, sums_agree s -> sums_agree (fold_left run_op ops s)).
  { induction ops as [|op ops IH]; intros s Hs; [exact Hs|].
    apply IH.
    destruct op as [trade | t price time reason |]; cbn [run_op].
    - unfold add_trade. apply _update_metrics_sums_agree. exact Hs.
    - unfold close_trade.
      destruct (close_first (trades s) t price time _) as [[found ts]|];
        [|exact Hs].
      apply _update_metrics_sums_agree. exact Hs.
    - unfold _recalculate_metrics.
      apply fold_update_sums_agree, sums_agree_zero. }
  apply H. apply sums_agree_zero.
Qed.

(** The sum of the profits of the recorded trades. *)
Fixpoint total_profit (ts : list TradeRecord) : Q :=
  match ts with
  | [] => 0
  | t :: rest => profit t + total_profit rest
  end.

(** The balance equals the sum of the profits of the recorded trades. *)
Definition booked (s : Metrics) : Prop :=
  current_balance s == total_profit (trades s).

Lemma total_profit_app (a b : list TradeRecord) :
  total_profit (a ++ b) == total_profit a + total_profit b.
Proof.
  induction a as [|t a IH]; simpl; [ring|]. rewrite IH. ring.
Qed.

Lemma _update_metrics_trades (s : Metrics) (trade : TradeRecord) :
  trades (_update_metrics s trade) = trades s /\
  current_balance (_update_metrics s trade)
  = current_balance s + profit trade.
Proof. split; reflexivity. Qed.

Lemma fold_update_balance (ts : list TradeRecord) (s : Metrics) :
  trades (fold_left _update_metrics ts s) = trades s /\
  current_balance (fold_left _update_metrics ts s)
  == current_balance s + total_profit ts.
Proof.
  revert s. induction ts as [|t ts IH]; intros s; simpl.
  - split; [reflexivity | ring].
  - destruct (IH (_update_metrics s t)) as [E1 E2].
    split; [exact E1|]. rewrite E2. cbn [_update_metrics current_balance].
    ring.
Qed.

Lemma close_first_total (ts : list TradeRecord) (t : Z) (price : Q)
    (time : Z) (reason : string) (found : TradeRecord)
    (ts' : list TradeRecord) :
  close_first ts t price time reason = Some (found, ts') ->
  total_profit ts'
  == total_profit ts - profit found
     + profit (closed_trade found price time reason).
Proof.
  revert ts'. induction ts as [|trade rest IH]; intros ts';
    cbn [close_first]; [discriminate|].
  destruct ((ticket trade =? t)%Z && _).
  - intros [= <- <-]. cbn [total_profit]. ring.
  - destruct (close_first rest t price time reason) as [[f r]|];
      [|discriminate].
    intros [= <- <-]. cbn [total_profit]. rewrite (IH r eq_refl). ring.
Qed.

Lemma booked_recalculate (s : Metrics) : booked (_recalculate_metrics s).
Proof.
  unfold booked, _recalculate_metrics.
  destruct (fold_update_balance (trades s)
              (mk_metrics (trades s) [] [] [] [] 0 0 0 0 0 0)) as [E1 E2].
  rewrite E1, E2. cbn [trades current_balance]. ring.
Qed.

Lemma booked_add_trade (s : Metrics) (trade : TradeRecord) :
  booked s -> booked (add_trade s trade).
Proof.
  intros Hb. unfold booked, add_trade in *.
  cbn [_update_metrics trades current_balance set_trades].
  rewrite total_profit_app, Hb. cbn [total_profit]. ring.
Qed.

Definition is_close (op : LedgerOp) : bool :=
  match op with OpCloseTrade _ _ _ _ => true | _ => false end.

(** As long as trades are only added and the metrics recalculated, the
    balance is the sum of the profits of the recorded trades. *)
Theorem ledger_booked_without_closes (ops : list LedgerOp) :
  forallb (fun op => negb (is_close op)) ops = true ->
  booked (run_ops fresh ops).
Proof.
  unfold run_ops.
  assert (H : forall s, booked s ->
                forallb (fun op => negb (is_close op)) ops = true ->
                booked (fold_left run_op ops s)).
  { induction ops as [|op ops IH]; intros s Hs Hops; [exact Hs|].
    cbn [forallb] in Hops. apply andb_true_iff in Hops as [Hop Hops].
    apply IH; [|exact Hops].
    destruct op as [trade | t price time reason |]; cbn [run_op].
    - apply booked_add_trade. exact Hs.
    - discriminate.
    - apply booked_recalculate. }
  apply H. unfold booked; simpl. reflexivity.
Qed.

(** [close_trade] books the trade it closes a second time: where the
    balance was the sum of the recorded profits, it afterwards exceeds that
    sum by the profit the trade carried before it was closed. *)
Theorem close_trade_books_twice (s : Metrics) (t : Z) (price : Q) (time : Z)
    (reason : option string) (found : TradeRecord)
    (ts : list TradeRecord) :
  booked s ->
  close_first (trades s) t price time
    (match reason with Some r => r | None => "manual"%string end)
  = Some (found, ts) ->
  trades (close_trade s t price time reason) = ts /\
  current_balance (close_trade s t price time reason)
  == total_profit ts + profit found.
Proof.
  intros Hb Hc. unfold close_trade.
  rewrite Hc. cbn [_update_metrics trades current_balance set_trades].
  split; [reflexivity|].
  rewrite (close_first_total _ _ _ _ _ Hc). unfold booked in Hb.
  rewrite Hb. ring.
Qed.

(** A trade recorded at open with profit 0, then closed 20 pips up. *)
Definition opened : TradeRecord :=
  mk_trade 1 "EURUSD" "BUY" 1 (11000 # 10000) None 0 None 0 0 0 LONDON
           "breakout" None None None.

Definition carried : TradeRecord :=
  mk_trade 2 "EURUSD" "BUY" 1 (11000 # 10000) None 0 None 5 0 0 LONDON
           "breakout" None None None.

Example close_trade_after_zero_profit_open :
  Qred (current_balance
          (close_trade (add_trade fresh opened) 1 (11020 # 10000) 60 None))
  = Qred (2 # 1000).
Proof. reflexivity. Qed.

(** Recorded with a profit of 5 already: after the close the balance holds
    the 5 and the recomputed profit, the records only the latter. *)
Example close_trade_after_carried_profit :
  Qred (current_balance
          (close_trade (add_trade fresh carried) 2 (11020 # 10000) 60 None))
  = Qred (5 + (2 # 1000)) /\
  Qred (total_profit
          (trades (close_trade (add_trade fresh carried) 2
                     (11020 # 10000) 60 None)))
  = Qred (2 # 1000).
Proof. split; reflexivity. Qed.

Lemma ledger_booked_without_closes_witness :
  booked (run_ops fresh [OpAddTrade carried; OpAddTrade opened;
                         OpRecalculate]).
Proof.
  apply (@ledger_booked_without_closes
           [OpAddTrade carried; OpAddTrade opened; OpRecalculate]).
  reflexivity.
Defined.

Lemma close_trade_books_twice_witness :
  trades (close_trade (add_trade fresh carried) 2 (11020 # 10000) 60 None)
  = [closed_trade carried (11020 # 10000) 60 "manual"] /\
  current_balance
    (close_trade (add_trade fresh carried) 2 (11020 # 10000) 60 None)
  == total_profit [closed_trade carried (11020 # 10000) 60 "manual"]
     + profit carried.
Proof.
  apply (@close_trade_books_twice (add_trade fresh carried) 2
           (11020 # 10000) 60 None carried
           [closed_trade carried (11020 # 10000) 60 "manual"]).
  - reflexivity.
  - reflexivity.
Defined.

End Ledger.

(** ** Quotations of the MetaTrader broker ([mt5_broker.py])

    [get_symbol_info] asks the terminal; the terminal is the state it is
    passed and returns. *)

Module MT5.

Local Open Scope Q_scope.

Section Terminal.
Variable T : Type.
Variable get_symbol_info : T -> string -> T * pydict.

(** [get_current_price] *)
Definition get_current_price (t : T) (symbol : string) : T * pydict :=
  let (t, symbol_info) := get_symbol_info t symbol in
  if negb (pydict_truthy symbol_info) then (t, [])
  else (t, [("bid"%string, pydict_get symbol_info "bid" 0);
            ("ask"%string, pydict_get symbol_info "ask" 0);
            ("spread"%string, pydict_get symbol_info "spread" 0)]).

(** [get_mid_price] *)
Definition get_mid_price (t : T) (symbol : string) : T * option Q :=
  let (t, symbol_info) := get_symbol_info t symbol in
  if negb (pydict_truthy symbol_info) then (t, None)
  else
    let bid := pydict_get symbol_info "bid" 0 in
    let ask := pydict_get symbol_info "ask" 0 in
    if Qlt_bool 0 bid && Qlt_bool 0 ask then (t, Some ((bid + ask) / 2))
    else if Qlt_bool 0 bid then (t, Some bid)
    else if Qlt_bool 0 ask then (t, Some ask)
    else (t, None).

(** A mid price, when there is one, is positive and lies between the bid
    and the ask of the symbol information (a side that is missing or not
    positive counting as it is read, 0 by default). *)
Theorem mid_price_positive_between (t : T) (symbol : string) (m : Q) :
  snd (get_mid_price t symbol) = Some m ->
  let symbol_info := snd (get_symbol_info t symbol) in
  let bid := pydict_get symbol_info "bid" 0 in
  let ask := pydict_get symbol_info "ask" 0 in
  0 < m /\ ((bid <= m /\ m <= ask) \/ (ask <= m /\ m <= bid)).
Proof.
  unfold get_mid_price. destruct (get_symbol_info t symbol) as [t1 si].
  cbn [snd]. destruct (negb (pydict_truthy si)); [discriminate|].
  cbv zeta.
  destruct (Qlt_bool 0 (pydict_get si "bid" 0)) eqn:Eb;
    destruct (Qlt_bool 0 (pydict_get si "ask" 0)) eqn:Ea; cbn [andb snd];
    try discriminate; intros [= <-];
    try apply Qlt_bool_iff in Eb; try apply Qlt_bool_iff in Ea;
    try apply Qlt_bool_false_iff in Eb; try apply Qlt_bool_false_iff in Ea.
  - set (bid := pydict_get si "bid" 0) in *.
    set (ask := pydict_get si "ask" 0) in *.
    assert (E : (bid + ask) / 2 == (bid + ask) * (1 # 2)) by (field).
    rewrite E. split; [lra|].
    destruct (Qlt_le_dec ask bid); [right | left]; lra.
  - split; [exact Eb|]. right. split; [lra | apply Qle_refl].
  - split; [exact Ea|]. left. split; [lra | apply Qle_refl].
Qed.

End Terminal.

(** A terminal that quotes 1.1000 / 1.1002 for every symbol. *)
Definition quoting (t : unit) (symbol : string) : unit * pydict :=
  (t, [("bid"%string, 11000 # 10000); ("ask"%string, 11002 # 10000)]).

Lemma mid_price_positive_between_witness :
  snd (get_mid_price quoting tt "EURUSD")
  = Some (((11000 # 10000) + (11002 # 10000)) / 2) /\
  (0 < ((11000 # 10000) + (11002 # 10000)) / 2 /\
   (((11000 # 10000) <= ((11000 # 10000) + (11002 # 10000)) / 2 /\
     ((11000 # 10000) + (11002 # 10000)) / 2 <= (11002 # 10000)) \/
    ((11002 # 10000) <= ((11000 # 10000) + (11002 # 10000)) / 2 /\
     ((11000 # 10000) + (11002 # 10000)) / 2 <= (11000 # 10000)))).
Proof.
  split; [reflexivity|].
  apply (@mid_price_positive_between unit quoting tt "EURUSD"). reflexivity.
Defined.

End MT5.

(** ** The session manager ([session_manager.py], [SessionManager])

    The sessions the manager keeps, by type.  The events it registers with
    the scheduler, its callbacks and its thread are outside this state. *)

Module SessionManager.

Local Open Scope Z_scope.

Lemma SessionType_eqb_eq (a b : SessionType) :
  SessionType_eqb a b = true <-> a = b.
Proof. destruct a, b; simpl; split; intros; congruence. Qed.

(** [SessionConfig] of [config.py], its ["HH:MM"] strings parsed and its
    time zone name resolved. *)
Record SessionConfig := mk_config {
  session_type : SessionType;
  start_time : Z * Z;
  end_time : Z * Z;
  timezone : Session.tzinfo;
  enabled : bool
}.

(** [MarketSession.__init__] *)
Definition MarketSession (config : SessionConfig) : Session.MarketSession :=
  Session.mk_session (timezone config) false
    (Session.time_hm (fst (start_time config)) (snd (start_time config)))
    (Session.time_hm (fst (end_time config)) (snd (end_time config))).

(** The [sessions] dict: entries in insertion order. *)
Definition sessions_dict := list (SessionType * Session.MarketSession).

Fixpoint sessions_get (d : sessions_dict) (k : SessionType)
  : option Session.MarketSession :=
  match d with
  | [] => None
  | (k', v) :: d' => if SessionType_eqb k' k then Some v else sessions_get d' k
  end.

Fixpoint sessions_set (d : sessions_dict) (k : SessionType)
    (v : Session.MarketSession) : sessions_dict :=
  match d with
  | [] => [(k, v)]
  | (k', v') :: d' =>
      if SessionType_eqb k' k then (k', v) :: d'
      else (k', v') :: sessions_set d' k v
  end.

Record SessionManager := mk_manager {
  sessions : sessions_dict
}.

Definition init : SessionManager := mk_manager [].

(** [add_session] *)
Definition add_session (sm : SessionManager) (config : SessionConfig)
  : SessionManager :=
  mk_manager
    (sessions_set (sessions sm) (session_type config) (MarketSession config)).

(** [get_active_sessions]; [now] is what [datetime.now()] reads. *)
Definition get_active_sessions (sm : SessionManager) (now : Z)
  : list SessionType :=
  map fst
    (filter (fun kv => Session.is_session_active (snd kv) now (Some now))
       (sessions sm)).

(** [SessionManager.is_session_active] *)
Definition is_session_active (sm : SessionManager)
    (session_type : SessionType) (now : Z) : bool :=
  match sessions_get (sessions sm) session_type with
  | None => false
  | Some session => Session.is_session_active session now None
  end.

(** [get_session_overlap] *)
Definition get_session_overlap (sm : SessionManager) (now : Z)
  : list SessionType :=
  let active_sessions := get_active_sessions sm now in
  if 1 <? Z.of_nat (List.length active_sessions) then active_sessions
  else [].

(** The configuration added last for a type. *)
Fixpoint last_for (ty : SessionType) (configs : list SessionConfig)
  : option SessionConfig :=
  match configs with
  | [] => None
  | c :: rest =>
      match last_for ty rest with
      | Some c' => Some c'
      | None => if SessionType_eqb (session_type c) ty then Some c else None
      end
  end.

Lemma sessions_get_set (d : sessions_dict) (k k' : SessionType)
    (v : Session.MarketSession) :
  sessions_get (sessions_set d k v) k'
  = if SessionType_eqb k k' then Some v else sessions_get d k'.
Proof.
  induction d as [|[k0 v0] d IH]; cbn [sessions_set sessions_get].
  - reflexivity.
  - destruct (SessionType_eqb k0 k) eqn:E0; cbn [sessions_get].
    + apply SessionType_eqb_eq in E0. subst k0.
      destruct (SessionType_eqb k k'); reflexivity.
    + destruct (SessionType_eqb k0 k') eqn:E1; [|exact IH].
      apply SessionType_eqb_eq in E1. subst k0.
      destruct (SessionType_eqb k k') eqn:E2; [|reflexivity].
      apply SessionType_eqb_eq in E2. subst k'.
      assert (E : SessionType_eqb k k = true)
        by (apply SessionType_eqb_eq; reflexivity).
      congruence.
Qed.

Lemma sessions_set_keys (d : sessions_dict) (k k' : SessionType)
    (v : Session.MarketSession) :
  In k' (map fst (sessions_set d k v)) <-> In k' (map fst d) \/ k' = k.
Proof.
  induction d as [|[k0 v0] d IH]; cbn [sessions_set map fst In].
  - intuition congruence.
  - destruct (SessionType_eqb k0 k) eqn:E0; cbn [map fst In].
    + apply SessionType_eqb_eq in E0. subst k0. intuition congruence.
    + rewrite IH. tauto.
Qed.

Lemma sessions_set_NoDup (d : sessions_dict) (k : SessionType)
    (v : Session.MarketSession) :
  NoDup (map fst d) -> NoDup (map fst (sessions_set d k v)).
Proof.
  induction d as [|[k0 v0] d IH]; cbn [sessions_set map fst]; intros Hd.
  - constructor; [intros [] | constructor].
  - inversion Hd as [|? ? Hn Hd']; subst.
    destruct (SessionType_eqb k0 k) eqn:E0; cbn [map fst].
    + constructor; assumption.
    + constructor; [|apply IH; exact Hd'].
      rewrite sessions_set_keys. intros [H | ->]; [exact (Hn H)|].
      assert (E : SessionType_eqb k k = true)
        by (apply SessionType_eqb_eq; reflexivity).
      congruence.
Qed.

Lemma sessions_get_In (d : sessions_dict) (k : SessionType)
    (v : Session.MarketSession) :
  sessions_get d k = Some v -> In (k, v) d.
Proof.
  induction d as [|[k0 v0] d IH]; cbn [sessions_get]; [discriminate|].
  destruct (SessionType_eqb k0 k) eqn:E0.
  - apply SessionType_eqb_eq in E0. intros [= ->]. left. congruence.
  - intros H. right. apply IH. exact H.
Qed.

Lemma sessions_In_get (d : sessions_dict) (k : SessionType)
    (v : Session.MarketSession) :
  NoDup (map fst d) -> In (k, v) d -> sessions_get d k = Some v.
Proof.
  induction d as [|[k0 v0] d IH]; cbn [sessions_get map fst];
    intros Hd Hin; [destruct Hin|].
  inversion Hd as [|? ? Hn Hd']; subst.
  destruct Hin as [[= -> ->] | Hin].
  - assert (E : SessionType_eqb k k = true)
      by (apply SessionType_eqb_eq; reflexivity).
    rewrite E. reflexivity.
  - destruct (SessionType_eqb k0 k) eqn:E0; [|apply IH; assumption].
    apply SessionType_eqb_eq in E0. subst k0. exfalso. apply Hn.
    apply (in_map fst) in Hin. exact Hin.
Qed.

Lemma NoDup_map_fst_filter (f : SessionType * Session.MarketSession -> bool)
    (d : sessions_dict) :
  NoDup (map fst d) -> NoDup (map fst (filter f d)).
Proof.
  induction d as [|kv d IH]; cbn [filter map]; intros Hd; [constructor|].
  inversion Hd as [|? ? Hn Hd']; subst.
  destruct (f kv); cbn [map]; [|apply IH; exact Hd'].
  constructor; [|apply IH; exact Hd'].
  intros Hin. apply Hn. apply in_map_iff in Hin as [x [Hx Hin]].
  apply filter_In in Hin as [Hin _]. rewrite <- Hx.
  apply in_map. exact Hin.
Qed.

Lemma added_sessions (configs : list SessionConfig) (sm : SessionManager) :
  NoDup (map fst (sessions sm)) ->
  NoDup (map fst (sessions (fold_left add_session configs sm))) /\
  forall ty,
    sessions_get (sessions (fold_left add_session configs sm)) ty
    = match last_for ty configs with
      | Some c => Some (MarketSession c)
      | None => sessions_get (sessions sm) ty
      end.
Proof.
  revert sm. induction configs as [|c rest IH]; intros sm Hsm;
    cbn [fold_left last_for].
  - split; [exact Hsm | reflexivity].
  - destruct (IH (add_session sm c)) as [Hn Hg].
    { cbn [add_session sessions]. apply sessions_set_NoDup. exact Hsm. }
    split; [exact Hn|]. intros ty. rewrite Hg.
    destruct (last_for ty rest); [reflexivity|].
    cbn [add_session sessions]. rewrite sessions_get_set.
    destruct (SessionType_eqb (session_type c) ty); reflexivity.
Qed.

(** However many sessions are added, the manager keeps one per type, the
    one added last: the active sessions list no type twice, and a type is
    listed exactly when [is_session_active] holds of it, which is when the
    configuration added last for the type is active at that instant. *)
Theorem active_sessions_follow_last_config (configs : list SessionConfig)
    (ty : SessionType) (now : Z) :
  let sm := fold_left add_session configs init in
  NoDup (get_active_sessions sm now) /\
  (In ty (get_active_sessions sm now) <-> is_session_active sm ty now = true)
  /\
  (is_session_active sm ty now = true <->
   exists c, last_for ty configs = Some c /\
             Session.is_session_active (MarketSession c) now None = true).
Proof.
  cbv zeta.
  destruct (@added_sessions configs init) as [Hn Hg]; [constructor|].
  set (sm := fold_left add_session configs init) in *.
  split; [|split].
  - unfold get_active_sessions. apply NoDup_map_fst_filter. exact Hn.
  - unfold get_active_sessions, is_session_active. split.
    + intros Hin. apply in_map_iff in Hin as [[k v] [Hk Hin]].
      cbn [fst] in Hk. subst k. apply filter_In in Hin as [Hin Hact].
      rewrite (@sessions_In_get (sessions sm) ty v Hn Hin). exact Hact.
    + destruct (sessions_get (sessions sm) ty) as [v|] eqn:E;
        [|discriminate].
      intros Hact. apply in_map_iff. exists (ty, v). split; [reflexivity|].
      apply filter_In. split; [apply sessions_get_In; exact E | exact Hact].
  - unfold is_session_active. rewrite (Hg ty). cbn [init sessions_get sessions].
    destruct (last_for ty configs) as [c|].
    + split; [intros H; exists c; auto | intros [c' [[= <-] H]]; exact H].
    + split; [discriminate | intros [c' [[=] _]]].
Qed.

Lemma two_members (l : list SessionType) (a b : SessionType) :
  In a l -> In b l -> a <> b -> 1 < Z.of_nat (List.length l).
Proof.
  destruct l as [|x [|y l]]; cbn [In List.length]; intros Ha Hb Hab.
  - destruct Ha.
  - exfalso. destruct Ha as [<-|[]], Hb as [<-|[]]. apply Hab. reflexivity.
  - lia.
Qed.

Lemma time_leb_refl (t : Session.time) : Session.time_leb t t = true.
Proof.
  unfold Session.time_leb, Session.time_cmp, Session.time_tuple.
  destruct t as [h m s u]; cbn [Session.tuple_cmp Session.hour Session.minute
    Session.second Session.microsecond].
  rewrite !Z.compare_refl. reflexivity.
Qed.

Lemma time_leb_not_gtb (a b : Session.time) :
  Session.time_gtb a b = false -> Session.time_leb a b = true.
Proof.
  unfold Session.time_gtb, Session.time_leb.
  destruct (Session.time_cmp a b); congruence.
Qed.

(** Both ends of a session's window belong to it: at the instant one
    daytime session ends and another one starts, both are active and the
    manager reports them as overlapping. *)
Theorem overlap_at_handover (sm : SessionManager) (now : Z)
    (ta tb : SessionType) (a b : Session.MarketSession) :
  sessions_get (sessions sm) ta = Some a ->
  sessions_get (sessions sm) tb = Some b ->
  ta <> tb ->
  Session.time_gtb (Session.start_time a) (Session.end_time a) = false ->
  Session.time_gtb (Session.start_time b) (Session.end_time b) = false ->
  Session.astimezone_time (Session.timezone a) now = Session.end_time a ->
  Session.astimezone_time (Session.timezone b) now = Session.start_time b ->
  In ta (get_session_overlap sm now) /\ In tb (get_session_overlap sm now).
Proof.
  intros Ha Hb Hab Hda Hdb Hna Hnb.
  assert (Ia : In ta (get_active_sessions sm now)).
  { unfold get_active_sessions. apply in_map_iff. exists (ta, a).
    split; [reflexivity|]. apply filter_In.
    split; [apply sessions_get_In; exact Ha|].
    cbn [snd]. unfold Session.is_session_active. rewrite Hda, Hna.
    rewrite time_leb_refl, (time_leb_not_gtb _ _ Hda). reflexivity. }
  assert (Ib : In tb (get_active_sessions sm now)).
  { unfold get_active_sessions. apply in_map_iff. exists (tb, b).
    split; [reflexivity|]. apply filter_In.
    split; [apply sessions_get_In; exact Hb|].
    cbn [snd]. unfold Session.is_session_active. rewrite Hdb, Hnb.
    rewrite time_leb_refl, (time_leb_not_gtb _ _ Hdb). reflexivity. }
  unfold get_session_overlap. cbv zeta.
  pose proof (@two_members _ ta tb Ia Ib Hab) as Hlen.
  apply Z.ltb_lt in Hlen. rewrite Hlen. split; assumption.
Qed.

(** The sessions of [TradingBotConfig.from_env]. *)
Definition from_env_sessions : list SessionConfig :=
  [ mk_config ASIAN (0, 0) (8, 0) Session.utc true;
    mk_config LONDON (8, 0) (16, 0) Session.utc true;
    mk_config NEW_YORK (13, 0) (21, 0) Session.utc true ].

Example overlap_at_1400 :
  get_session_overlap (fold_left add_session from_env_sessions init)
    (Session.at_hm 14 0)
  = [LONDON; NEW_YORK].
Proof. reflexivity. Qed.

Example no_overlap_at_1000 :
  get_session_overlap (fold_left add_session from_env_sessions init)
    (Session.at_hm 10 0)
  = [].
Proof. reflexivity. Qed.

Lemma overlap_at_handover_witness :
  In ASIAN (get_session_overlap
              (fold_left add_session from_env_sessions init)
              (Session.at_hm 8 0)) /\
  In LONDON (get_session_overlap
               (fold_left add_session from_env_sessions init)
               (Session.at_hm 8 0)).
Proof.
  apply (@overlap_at_handover
           (fold_left add_session from_env_sessions init)
           (Session.at_hm 8 0) ASIAN LONDON
           (MarketSession (mk_config ASIAN (0, 0) (8, 0) Session.utc true))
           (MarketSession (mk_config LONDON (8, 0) (16, 0) Session.utc true)));
    try reflexivity.
  discriminate.
Defined.

End SessionManager.
